(** * Volatility report: rolling returns, events and magnitude buckets

    A shallow embedding of [volatility_report.py]: the bar series built by
    [process_data] (frame construction, datetime index, in-place sort, the
    three [pct_change] columns) and the bucket table of [analyze_volatility].

    Prices and returns are Python floats, that is IEEE 754 binary64 values;
    they are modelled bit for bit with the specification floats of the
    standard library ([spec_float], precision 53, maximal exponent 1024), so
    rounding, infinities and NaN behave as they do in numpy.  Frames are
    mutable objects: they live in a store and the functions are written in a
    state-and-exception monad over that store, in which the exceptions of
    the program travel as they do in Python: the [ValueError] and
    [AttributeError] of [fetch_candle_data], the [TypeError] of extending a
    list by [None], the [OutOfBoundsDatetime] of [to_datetime], the
    [KeyError] of a missing column. *)

From Stdlib Require Import ZArith Ascii String List Bool Lia Permutation Sorted SpecFloat.
Import ListNotations.
Local Open Scope string_scope.
Local Open Scope list_scope.
Local Open Scope nat_scope.

(** ** Binary64 arithmetic *)

Module F64.

Definition prec : Z := 53.
Definition emax : Z := 1024.

Definition float := spec_float.

Definition nan : float := S754_nan.
Definition zero : float := S754_zero false.
Definition inf : float := S754_infinity false.

Definition of_int (z : Z) : float := binary_normalize prec emax z 0 false.

Definition div (x y : float) : float := SFdiv prec emax x y.
Definition sub (x y : float) : float := SFsub prec emax x y.
Definition neg (x : float) : float := SFopp x.
Definition abs (x : float) : float := SFabs x.

(** The four comparisons of Python; each is false as soon as one side is NaN. *)
Definition le (x y : float) : bool := SFleb x y.
Definition lt (x y : float) : bool := SFltb x y.
Definition ge (x y : float) : bool := le y x.
Definition gt (x y : float) : bool := lt y x.

Definition is_nan (x : float) : bool :=
  match x with S754_nan => true | _ => false end.

Definition is_inf (x : float) : bool :=
  match x with S754_infinity _ => true | _ => false end.

Definition is_zero (x : float) : bool :=
  match x with S754_zero _ => true | _ => false end.

Definition signbit (x : float) : bool :=
  match x with
  | S754_nan => false
  | S754_zero s | S754_infinity s | S754_finite s _ _ => s
  end.

(** The decimal literal [m]e-[k], e.g. [lit 5 3] for [0.005]: the binary64
    value nearest to m / 10^k.  Both [m] and [10^k] are exact in binary64
    for the literals of the program, so one correctly rounded division
    yields that value. *)
Definition lit (m : Z) (k : nat) : float :=
  div (of_int m) (of_int (10 ^ Z.of_nat k)).

End F64.

Abbreviation float := F64.float.

(** ** A small model of pandas: series, frames, the object store *)

Module pd.

(** A column with its dtype.  [Datetime64] holds seconds since the epoch. *)
Inductive Series :=
| Int64 (v : list Z)
| Float64 (v : list float)
| Datetime64 (v : list Z).

Definition size (s : Series) : nat :=
  match s with
  | Int64 v | Datetime64 v => length v
  | Float64 v => length v
  end.

(** Boolean-mask selection: keep the positions where the mask is true. *)
Fixpoint compress {A : Type} (mask : list bool) (l : list A) : list A :=
  match mask, l with
  | b :: mask', x :: l' => if b then x :: compress mask' l' else compress mask' l'
  | _, _ => []
  end.

(** Positional gather, as used to apply a sorting permutation. *)
Definition take {A : Type} (d : A) (order : list nat) (l : list A) : list A :=
  map (fun i => nth i l d) order.

Definition Series_compress (mask : list bool) (s : Series) : Series :=
  match s with
  | Int64 v => Int64 (compress mask v)
  | Float64 v => Float64 (compress mask v)
  | Datetime64 v => Datetime64 (compress mask v)
  end.

Definition Series_take (order : list nat) (s : Series) : Series :=
  match s with
  | Int64 v => Int64 (take 0%Z order v)
  | Float64 v => Float64 (take F64.nan order v)
  | Datetime64 v => Datetime64 (take 0%Z order v)
  end.

(** Sorting is by insertion, which keeps equal keys in their input order;
    [argsort_by] returns the sorting permutation.  On keys that are pairwise
    different, and on keys that are already ascending, this is the order
    pandas produces.  On an index that repeats a key and is not ascending,
    [sort_index] runs an unstable quicksort, and the rows that share a key
    may come out in another order than here: what is proved below about the
    order of rows is stated for distinct or ascending keys, or of the frame
    as it is, whatever order its equal keys are in. *)
Fixpoint insert_by {A : Type} (le : A -> A -> bool) (x : A) (l : list A) : list A :=
  match l with
  | [] => [x]
  | y :: l' => if le x y then x :: l else y :: insert_by le x l'
  end.

Definition sort_by {A : Type} (le : A -> A -> bool) (l : list A) : list A :=
  fold_right (insert_by le) [] l.

Definition argsort_by {K : Type} (le : K -> K -> bool) (keys : list K) : list nat :=
  map snd (sort_by (fun a b => le (fst a) (fst b))
                   (combine keys (seq 0 (length keys)))).

(** Floats sort ascending with NaN last. *)
Definition float_le_nan_last (a b : float) : bool :=
  F64.is_nan b || (negb (F64.is_nan a) && F64.le a b).

Definition argsort (s : Series) : list nat :=
  match s with
  | Int64 v | Datetime64 v => argsort_by Z.leb v
  | Float64 v => argsort_by float_le_nan_last v
  end.

(** [abs] on int64 wraps at the most negative value. *)
Definition abs64 (z : Z) : Z :=
  if (z =? - 2 ^ 63)%Z then z else Z.abs z.

(** [shift(periods)] for [periods >= 0]: the values move down, NaN enters
    at the top, the length is kept. *)
Definition shift (periods : nat) (v : list float) : list float :=
  firstn (length v) (repeat F64.nan periods ++ v).

(** [pct_change(periods)] is [data / data.shift(periods) - 1], elementwise
    in binary64.  (Releases of pandas before 3.0 first forward-fill missing
    values of [data]; that step is the identity on a column without NaN and
    is not part of this model.) *)
Definition pct (x y : float) : float :=
  F64.sub (F64.div x y) (F64.of_int 1).

Definition pct_change_values (periods : nat) (v : list float) : list float :=
  map (fun p => pct (fst p) (snd p)) (combine v (shift periods v)).

Record DataFrame := mkDataFrame {
  index : Series;
  columns : list (string * Series)
}.

Fixpoint lookup (col : string) (cs : list (string * Series)) : option Series :=
  match cs with
  | [] => None
  | (n, s) :: cs' => if String.eqb n col then Some s else lookup col cs'
  end.

(** Assignment to a column: replace it in place, or append a new one. *)
Fixpoint assign (col : string) (s : Series) (cs : list (string * Series))
  : list (string * Series) :=
  match cs with
  | [] => [(col, s)]
  | (n, s') :: cs' =>
      if String.eqb n col then (n, s) :: cs' else (n, s') :: assign col s cs'
  end.

Definition drop (col : string) (cs : list (string * Series))
  : list (string * Series) :=
  filter (fun c => negb (String.eqb (fst c) col)) cs.

Definition map_columns (f : Series -> Series) (cs : list (string * Series))
  : list (string * Series) :=
  map (fun c => (fst c, f (snd c))) cs.

(** Every column is as long as the index. *)
Definition wf (d : DataFrame) : Prop :=
  Forall (fun c => size (snd c) = size (index d)) (columns d).

(** *** Store, exceptions, monad *)

Definition ref := nat.
Definition store := list DataFrame.

Inductive exn :=
| KeyError (key : string)
| TypeError
| ValueError (msg : string)
| AttributeError
| OutOfBoundsDatetime.

Inductive outcome (A : Type) :=
| Ok (a : A)
| Raise (e : exn).
Arguments Ok {A} a.
Arguments Raise {A} e.

Definition M (A : Type) : Type := store -> outcome A * store.

Definition ret {A : Type} (a : A) : M A := fun h => (Ok a, h).

Definition raise {A : Type} (e : exn) : M A := fun h => (Raise e, h).

Definition bind {A B : Type} (m : M A) (k : A -> M B) : M B :=
  fun h =>
    match m h with
    | (Ok a, h') => k a h'
    | (Raise e, h') => (Raise e, h')
    end.

Definition empty_frame : DataFrame := mkDataFrame (Int64 []) [].

(** Allocation of a new frame object. *)
Definition new (d : DataFrame) : M ref :=
  fun h => (Ok (length h), h ++ [d]).

(** Reading through a reference.  A reference handed out by [new] is always
    in range; outside the range the empty frame stands in. *)
Definition load (r : ref) : M DataFrame :=
  fun h => (Ok (nth r h empty_frame), h).

Fixpoint update (r : ref) (d : DataFrame) (h : store) : store :=
  match r, h with
  | _, [] => []
  | O, _ :: h' => d :: h'
  | S r', d' :: h' => d' :: update r' d h'
  end.

Definition store_at (r : ref) (d : DataFrame) : M unit :=
  fun h => (Ok tt, update r d h).

(** A step that returns or raises without looking at the store. *)
Definition lift {A : Type} (o : outcome A) : M A := fun h => (o, h).

(** [to_datetime(s, unit='s')] of integer seconds.  Only the integer case
    arises in the program ([time] is an integer column).  In pandas 3 the
    result counts microseconds in 64 bits, so a timestamp further than
    9223372036854 seconds from the epoch cannot be converted: the call
    raises [OutOfBoundsDatetime] as soon as the column holds one.  (Releases
    before 3.0 count nanoseconds, and their range is narrower.) *)
Definition datetime_max : Z := (2 ^ 63 - 1) / 1000000.

Definition in_bounds (t : Z) : bool :=
  ((- datetime_max <=? t) && (t <=? datetime_max))%Z.

Definition to_datetime (s : Series) : M Series :=
  match s with
  | Int64 v =>
      if forallb in_bounds v then ret (Datetime64 v)
      else raise OutOfBoundsDatetime
  | _ => ret s
  end.

End pd.

Import pd.

Declare Scope pd_scope.
Delimit Scope pd_scope with pd.
Notation "x <- c ;; k" := (bind c (fun x => k))
  (at level 61, c at next level, right associativity) : pd_scope.
Notation "c ;;; k" := (bind c (fun _ => k))
  (at level 61, right associativity) : pd_scope.
Local Open Scope pd_scope.

Module frame.

(** [df[col]] *)
Definition getitem (df : ref) (col : string) : M Series :=
  d <- load df ;;
  match lookup col (columns d) with
  | Some s => ret s
  | None => raise (KeyError col)
  end.

(** [df[mask]] with a boolean mask: a new frame with the selected rows. *)
Definition getitem_bool (df : ref) (mask : list bool) : M ref :=
  d <- load df ;;
  new (mkDataFrame (Series_compress mask (index d))
                   (map_columns (Series_compress mask) (columns d))).

(** [df.copy()] *)
Definition copy (df : ref) : M ref :=
  d <- load df ;;
  new d.

(** [df[col] = s], in place. *)
Definition setitem (df : ref) (col : string) (s : Series) : M unit :=
  d <- load df ;;
  store_at df (mkDataFrame (index d) (assign col s (columns d))).

(** [df.set_index(col, inplace=True)]: the column becomes the index. *)
Definition set_index (df : ref) (col : string) : M unit :=
  d <- load df ;;
  match lookup col (columns d) with
  | Some s => store_at df (mkDataFrame s (drop col (columns d)))
  | None => raise (KeyError col)
  end.

(** [df.sort_index(inplace=True)]: rows reordered by ascending index. *)
Definition sort_index (df : ref) : M unit :=
  d <- load df ;;
  let order := argsort (index d) in
  store_at df (mkDataFrame (Series_take order (index d))
                           (map_columns (Series_take order) (columns d))).

(** [df.empty]: no rows or no columns. *)
Definition empty (df : ref) : M bool :=
  d <- load df ;;
  ret ((size (index d) =? 0)%nat || (length (columns d) =? 0)%nat).

(** [len(df)] *)
Definition len (df : ref) : M nat :=
  d <- load df ;;
  ret (size (index d)).

End frame.

Module series.

(** [s.abs()] *)
Definition abs (s : Series) : M Series :=
  match s with
  | Int64 v => ret (Int64 (map abs64 v))
  | Float64 v => ret (Float64 (map F64.abs v))
  | Datetime64 _ => raise TypeError
  end.

(** Comparison of a numeric column with a float scalar: integers are
    converted to binary64 first. *)
Definition compare_scalar (op : float -> float -> bool) (s : Series) (c : float)
  : M (list bool) :=
  match s with
  | Int64 v => ret (map (fun z => op (F64.of_int z) c) v)
  | Float64 v => ret (map (fun x => op x c) v)
  | Datetime64 _ => raise TypeError
  end.

Definition ge := compare_scalar F64.ge.
Definition gt := compare_scalar F64.gt.
Definition le := compare_scalar F64.le.
Definition lt := compare_scalar F64.lt.

(** [m1 & m2] *)
Definition and (m1 m2 : list bool) : list bool :=
  map (fun p => andb (fst p) (snd p)) (combine m1 m2).

(** [s.pct_change(periods)] *)
Definition pct_change (s : Series) (periods : nat) : M Series :=
  match s with
  | Int64 v => ret (Float64 (pct_change_values periods (map F64.of_int v)))
  | Float64 v => ret (Float64 (pct_change_values periods v))
  | Datetime64 _ => raise TypeError
  end.

End series.

(** ** The program *)

(** One raw candle record of the supplier: epoch seconds and OHLC prices. *)
Record Candle := mkCandle {
  time : Z;
  open : float;
  high : float;
  low : float;
  close : float
}.

(** [pd.DataFrame(all_candles)]: one column per field, default range index. *)
Definition DataFrame_of_records (cs : list Candle) : DataFrame :=
  mkDataFrame
    (Int64 (map Z.of_nat (seq 0 (length cs))))
    [ ("time", Int64 (map time cs));
      ("open", Float64 (map open cs));
      ("high", Float64 (map high cs));
      ("low", Float64 (map low cs));
      ("close", Float64 (map close cs)) ].

(** The bars-per-minute factor chosen from the resolution string. *)
Definition factor_of (resolution : string) : nat :=
  if String.eqb resolution "1m" then 1
  else if String.eqb resolution "1s" then 60
  else 1.

Fixpoint for_each {A B : Type} (l : list A) (body : A -> M B) : M (list B) :=
  match l with
  | [] => ret []
  | a :: l' =>
      b <- body a ;;
      bs <- for_each l' body ;;
      ret (b :: bs)
  end.

(** A loop that carries a value from one round to the next. *)
Fixpoint for_fold {A S : Type} (l : list A) (s : S) (body : S -> A -> M S) : M S :=
  match l with
  | [] => ret s
  | a :: l' =>
      s' <- body s a ;;
      for_fold l' s' body
  end.

(** [all_candles.extend(candles)]: [None] is not iterable. *)
Definition extend (all_candles : list Candle) (candles : option (list Candle))
  : M (list Candle) :=
  match candles with
  | Some cs => ret (all_candles ++ cs)
  | None => raise TypeError
  end.

Section Pipeline.

(** The acquisition layer: what a call of [fetch_candle_data] for a symbol, a
    date and a resolution comes to, a list of candles, [None], or an
    exception; and the configured dates
    ([get_date_range(START_DATE, END_DATE)]). *)
Variable fetch_candle_data :
  string -> string -> string -> outcome (option (list Candle)).
Variable dates : list string.

Definition process_data (symbol resolution : string) : M (option ref) :=
  all_candles <-
    for_fold dates [] (fun all_candles date =>
      candles <- lift (fetch_candle_data symbol date resolution) ;;
      extend all_candles candles) ;;
  match all_candles with
  | [] => ret None
  | _ :: _ =>
      df <- new (DataFrame_of_records all_candles) ;;
      t <- frame.getitem df "time" ;;
      datetime <- to_datetime t ;;
      frame.setitem df "datetime" datetime ;;;
      frame.set_index df "datetime" ;;;
      frame.sort_index df ;;;
      let factor := factor_of resolution in
      c5 <- frame.getitem df "close" ;;
      r5 <- series.pct_change c5 (5 * factor) ;;
      frame.setitem df "ret_5m" r5 ;;;
      c10 <- frame.getitem df "close" ;;
      r10 <- series.pct_change c10 (10 * factor) ;;
      frame.setitem df "ret_10m" r10 ;;;
      c15 <- frame.getitem df "close" ;;
      r15 <- series.pct_change c15 (15 * factor) ;;
      frame.setitem df "ret_15m" r15 ;;;
      ret (Some df)
  end.

End Pipeline.

Record BucketRow := mkBucketRow {
  Bucket : string;
  Pumps : nat;
  Dumps : nat
}.

Definition threshold : float := F64.lit 5 3.

Definition buckets : list (float * float * string) :=
  [ (F64.lit 5 3, F64.lit 6 3, "0.5% - 0.6%");
    (F64.lit 6 3, F64.lit 7 3, "0.6% - 0.7%");
    (F64.lit 7 3, F64.lit 8 3, "0.7% - 0.8%");
    (F64.lit 8 3, F64.lit 9 3, "0.8% - 0.9%");
    (F64.lit 9 3, F64.lit 10 3, "0.9% - 1.0%");
    (F64.lit 10 3, F64.lit 15 3, "1.0% - 1.5%");
    (F64.lit 15 3, F64.lit 20 3, "1.5% - 2.0%");
    (F64.lit 20 3, F64.inf, "> 2.0%") ].

Definition analyze_volatility (df : ref) (window_col : string) : M (list BucketRow) :=
  s <- frame.getitem df window_col ;;
  a <- series.abs s ;;
  mask <- series.ge a threshold ;;
  selected <- frame.getitem_bool df mask ;;
  events <- frame.copy selected ;;
  e <- frame.empty events ;;
  if e : bool then ret []
  else
    for_each buckets (fun b =>
      let '(low, high, label) := b in
      p1 <- frame.getitem events window_col ;;
      m1 <- series.ge p1 low ;;
      p2 <- frame.getitem events window_col ;;
      m2 <- series.lt p2 high ;;
      pumps <- frame.getitem_bool events (series.and m1 m2) ;;
      d1 <- frame.getitem events window_col ;;
      n1 <- series.le d1 (F64.neg low) ;;
      d2 <- frame.getitem events window_col ;;
      n2 <- series.gt d2 (F64.neg high) ;;
      dumps <- frame.getitem_bool events (series.and n1 n2) ;;
      np <- frame.len pumps ;;
      nd <- frame.len dumps ;;
      ret (mkBucketRow label np nd)).

(** The per-value tests behind the masks, for one float of the column. *)
Definition is_event (x : float) : bool := F64.ge (F64.abs x) threshold.

Definition is_pump (b : float * float * string) (x : float) : bool :=
  F64.ge x (fst (fst b)) && F64.lt x (snd (fst b)).

Definition is_dump (b : float * float * string) (x : float) : bool :=
  F64.le x (F64.neg (fst (fst b))) && F64.gt x (F64.neg (snd (fst b))).

(** ** Definitions used to state the properties *)

(** A run of adjacent buckets from a lowest bound to a highest bound: every
    bucket starts where the previous one ends, and no bound is NaN. *)
Inductive Chain : float -> list (float * float * string) -> float -> Prop :=
| Chain_last (lo hi : float) (label : string) :
    F64.le lo hi = true -> Chain lo [(lo, hi, label)] hi
| Chain_step (lo mid hi : float) (label : string) (bs : list (float * float * string)) :
    F64.le lo mid = true -> Chain mid bs hi -> Chain lo ((lo, mid, label) :: bs) hi.

(** How many buckets of a table claim one value, as a pump and as a dump. *)
Fixpoint pump_hits (bs : list (float * float * string)) (x : float) : nat :=
  match bs with
  | [] => 0
  | b :: bs' => (if is_pump b x then 1 else 0) + pump_hits bs' x
  end.

Fixpoint dump_hits (bs : list (float * float * string)) (x : float) : nat :=
  match bs with
  | [] => 0
  | b :: bs' => (if is_dump b x then 1 else 0) + dump_hits bs' x
  end.

(** The table that [analyze_volatility] builds from the selected values. *)
Definition bucket_row (ev : list float) (b : float * float * string) : BucketRow :=
  mkBucketRow (snd b)
              (length (filter (is_pump b) ev))
              (length (filter (is_dump b) ev)).

Definition bucket_table (ev : list float) : list BucketRow :=
  match ev with
  | [] => []
  | _ :: _ => map (bucket_row ev) buckets
  end.

Definition total_pumps (rows : list BucketRow) : nat :=
  fold_right (fun r acc => Pumps r + acc) 0 rows.

Definition total_dumps (rows : list BucketRow) : nat :=
  fold_right (fun r acc => Dumps r + acc) 0 rows.

Definition not_infinite (x : float) : bool := negb (F64.is_inf x).

(** A store that only grew: everything that was there is still there. *)
Definition extends (h h' : store) : Prop := exists extra, h' = h ++ extra.

(** A computation that never writes to an existing frame. *)
Definition allocates_only {A : Type} (m : M A) : Prop :=
  forall h, extends h (snd (m h)).

(** A supplier whose every call returns a list of candles. *)
Definition answering (supply : string -> string -> string -> list Candle)
  : string -> string -> string -> outcome (option (list Candle)) :=
  fun symbol date resolution => Ok (Some (supply symbol date resolution)).

(** Every timestamp is one that [to_datetime] can convert. *)
Definition timestamps_in_range (cs : list Candle) : bool :=
  forallb in_bounds (map time cs).

(** The bars in the order of the sorted frame. *)
Definition default_bar : Candle := mkCandle 0 F64.nan F64.nan F64.nan F64.nan.

Definition sorted_bars (cs : list Candle) : list Candle :=
  take default_bar (argsort_by Z.leb (map time cs)) cs.

(** The look-back windows, in minutes, with the column each one fills. *)
Definition window_columns : list (nat * string) :=
  [ (5, "ret_5m"); (10, "ret_10m"); (15, "ret_15m") ].

Definition window_bars (minutes : nat) (resolution : string) : nat :=
  minutes * factor_of resolution.

(** The frame [process_data] leaves in the store for a non-empty input. *)
Definition built_frame (cs : list Candle) (resolution : string) : DataFrame :=
  let bars := sorted_bars cs in
  let closes := map close bars in
  mkDataFrame
    (Datetime64 (map time bars))
    [ ("time", Int64 (map time bars));
      ("open", Float64 (map open bars));
      ("high", Float64 (map high bars));
      ("low", Float64 (map low bars));
      ("close", Float64 closes);
      ("ret_5m", Float64 (pct_change_values (window_bars 5 resolution) closes));
      ("ret_10m", Float64 (pct_change_values (window_bars 10 resolution) closes));
      ("ret_15m", Float64 (pct_change_values (window_bars 15 resolution) closes)) ].

(** The value of a return column at one position ([NaN] when out of range). *)
Definition float_at (s : option Series) (i : nat) : float :=
  match s with
  | Some (Float64 v) => nth i v F64.nan
  | _ => F64.nan
  end.

(** ** Concrete inputs used in the examples *)

(** A bar whose four prices are the integer [price]. *)
Definition bar (t price : Z) : Candle :=
  let p := F64.of_int price in mkCandle t p p p p.

(** The dates of the configured range, and a supplier that has candles for
    one of these days only. *)
Definition configured_dates : list string :=
  [ "2025-12-11"; "2025-12-12"; "2025-12-13" ].

Definition supplier_on (day : string) (cs : list Candle)
  : string -> string -> string -> outcome (option (list Candle)) :=
  answering (fun _ date _ => if String.eqb date day then cs else []).

(** A supplier that has the candles of a calendar, day by day. *)
Fixpoint candles_of (book : list (string * list Candle)) (date : string)
  : list Candle :=
  match book with
  | [] => []
  | (day, cs) :: book' => if String.eqb date day then cs else candles_of book' date
  end.

Definition two_day_book : list (string * list Candle) :=
  [ ("2025-12-11", [ bar 0 100; bar 60 101; bar 120 102 ]);
    ("2025-12-12", [ bar 86400 103; bar 86460 104; bar 86520 105 ]) ].

Definition climbing_bars : list Candle :=
  [ bar 0 100; bar 60 101; bar 120 102; bar 180 103; bar 240 104; bar 300 105 ].

Definition zero_start_bars : list Candle :=
  [ bar 0 0; bar 60 1; bar 120 1; bar 180 1; bar 240 1; bar 300 100 ].

Definition repeated_time_bars : list Candle :=
  [ bar 60 3; bar 0 1; bar 0 2 ].

(** A one-column frame holding the given returns. *)
Definition returns_frame (col : string) (xs : list float) : DataFrame :=
  mkDataFrame (Int64 (map Z.of_nat (seq 0 (length xs)))) [ (col, Float64 xs) ].

(** ** Further definitions: views of a table *)

(** A row with its two counts exchanged. *)
Definition swap_counts (r : BucketRow) : BucketRow :=
  mkBucketRow (Bucket r) (Dumps r) (Pumps r).

Definition is_positive (x : float) : bool := negb (F64.signbit x).

(** ** The acquisition layer: [fetch_candle_data] *)

Module str.

(** [s.rstrip(c)]: drop every trailing occurrence of the character. *)
Fixpoint rstrip (c : Ascii.ascii) (s : string) : string :=
  match s with
  | EmptyString => EmptyString
  | String a s' =>
      match rstrip c s' with
      | EmptyString => if Ascii.eqb a c then EmptyString else String a EmptyString
      | String b r => String a (String b r)
      end
  end.

(** [s.endswith(suffix)]: some tail of [s] is the suffix. *)
Fixpoint endswith (s suffix : string) : bool :=
  if String.eqb s suffix then true
  else match s with
       | EmptyString => false
       | String _ s' => endswith s' suffix
       end.

End str.

(** The address the request goes to: the configured address without its
    trailing slashes, with [/candles] appended unless it is already there. *)
Definition candles_url (api_url : string) : string :=
  let base_url := str.rstrip "/"%char api_url in
  if str.endswith base_url "/candles" then base_url
  else base_url ++ "/candles".

(** What [requests.get], [raise_for_status] and [json] come to: a
    [RequestException] (no connection, time-out, error status, and, as
    [requests] has it since release 2.27, a body that is not JSON); a
    decoded body that is not an object (an array, a string,
    a number, [null]); or an object, of which the code reads the member
    [data]: absent ([Json None]), a list of candle records, or [null].  A
    member [data] of yet another shape is not modelled. *)
Inductive response :=
| RequestException
| NotAnObject
| Json (data : option (list Candle))
| JsonNull.

(** The exceptions of Python, as above. *)
Definition raised : Type := exn.

(** Python's truth test on the value of an environment variable: unset and
    empty both count as missing. *)
Definition missing (v : option string) : bool :=
  match v with
  | None => true
  | Some EmptyString => true
  | Some (String _ _) => false
  end.

(** The string held by a variable that is set. *)
Definition text (v : option string) : string :=
  match v with
  | Some s => s
  | None => EmptyString
  end.

Section Acquisition.

(** The two environment variables, and the network. *)
Variable API_KEY : option string.
Variable API_URL : option string.
Variable requests_get :
  string -> list (string * string) -> list (string * string) -> response.

(** [data.get("data", [])] returns the member as it is, [None] for [null];
    on a body that is not an object the attribute [get] does not exist, and
    that [AttributeError] is not a [RequestException], so it is not caught. *)
Definition fetch_candle_data (symbol date resolution : string)
  : outcome (option (list Candle)) :=
  if missing API_KEY || missing API_URL
  then Raise (ValueError
    "API credentials not found in .env file (ORDERFLOW_API_KEY, ORDERFLOW_API_URL)")
  else
    let url := candles_url (text API_URL) in
    let params :=
      [ ("symbol", symbol); ("date", date); ("resolution", resolution) ] in
    let headers := [ ("X-API-Key", text API_KEY) ] in
    match requests_get url params headers with
    | Json (Some data) => Ok (Some data)
    | Json None => Ok (Some [])
    | JsonNull => Ok None
    | NotAnObject => Raise AttributeError
    | RequestException => Ok (Some [])
    end.

End Acquisition.

(** ** Calendar dates: [get_date_range]

    The part of Python's [datetime] that [get_date_range] uses, for dates at
    midnight: the proleptic Gregorian ordinal of a date and back, parsing
    with the format [%Y-%m-%d] and printing with it. *)

Module datetime.

Local Open Scope Z_scope.

Record date := mkdate { year : Z; month : Z; day : Z }.

Definition is_leap (y : Z) : bool :=
  (y mod 4 =? 0) && (negb (y mod 100 =? 0) || (y mod 400 =? 0)).

Definition DAYS_IN_MONTH (m : Z) : Z :=
  match m with
  | 1 => 31 | 2 => 28 | 3 => 31 | 4 => 30 | 5 => 31 | 6 => 30
  | 7 => 31 | 8 => 31 | 9 => 30 | 10 => 31 | 11 => 30 | 12 => 31
  | _ => -1
  end.

Definition DAYS_BEFORE_MONTH (m : Z) : Z :=
  match m with
  | 1 => 0 | 2 => 31 | 3 => 59 | 4 => 90 | 5 => 120 | 6 => 151
  | 7 => 181 | 8 => 212 | 9 => 243 | 10 => 273 | 11 => 304 | 12 => 334
  | _ => -1
  end.

Definition days_before_year (y : Z) : Z :=
  let y' := y - 1 in
  y' * 365 + y' / 4 - y' / 100 + y' / 400.

Definition days_in_month (y m : Z) : Z :=
  if (m =? 2) && is_leap y then 29 else DAYS_IN_MONTH m.

Definition days_before_month (y m : Z) : Z :=
  DAYS_BEFORE_MONTH m + (if (2 <? m) && is_leap y then 1 else 0).

Definition ymd2ord (y m d : Z) : Z :=
  days_before_year y + days_before_month y m + d.

(** The month and the day of a zero-based day of the year. *)
Definition month_and_day (leapyear : bool) (n : Z) : Z * Z :=
  let month := Z.shiftr (n + 50) 5 in
  let preceding :=
    DAYS_BEFORE_MONTH month + (if (2 <? month) && leapyear then 1 else 0) in
  if n <? preceding
  then
    let month' := month - 1 in
    let preceding' :=
      preceding - (DAYS_IN_MONTH month' + (if (month' =? 2) && leapyear then 1 else 0)) in
    (month', n - preceding' + 1)
  else (month, n - preceding + 1).

Definition ord2ymd (n : Z) : date :=
  let n := n - 1 in
  let n400 := n / 146097 in
  let n := n mod 146097 in
  let year := n400 * 400 + 1 in
  let n100 := n / 36524 in
  let n := n mod 36524 in
  let n4 := n / 1461 in
  let n := n mod 1461 in
  let n1 := n / 365 in
  let n := n mod 365 in
  let year := year + n100 * 100 + n4 * 4 + n1 in
  if (n1 =? 4) || (n100 =? 4) then mkdate (year - 1) 12 31
  else
    let leapyear := (n1 =? 3) && (negb (n4 =? 24) || (n100 =? 3)) in
    let '(m, d) := month_and_day leapyear n in
    mkdate year m d.

Definition toordinal (t : date) : Z := ymd2ord (year t) (month t) (day t).

(** A date the constructor accepts: the year from 1 to 9999, the month from
    1 to 12, the day within the month. *)
Definition valid (t : date) : bool :=
  (1 <=? year t) && (year t <=? 9999)
  && (1 <=? month t) && (month t <=? 12)
  && (1 <=? day t) && (day t <=? days_in_month (year t) (month t)).

(** *** Parsing with [%Y-%m-%d] *)

Definition digit (c : ascii) : option Z :=
  let n := nat_of_ascii c in
  if ((48 <=? n) && (n <=? 57))%nat then Some (Z.of_nat (n - 48)) else None.

Definition is_digit_between (lo hi : Z) (c : ascii) : bool :=
  match digit c with
  | Some v => (lo <=? v) && (v <=? hi)
  | None => false
  end.

Definition value (c : ascii) : Z :=
  match digit c with Some v => v | None => 0 end.

(** [\d\d\d\d] *)
Definition parse_year (s : string) : option (Z * string) :=
  match s with
  | String a (String b (String c (String d rest))) =>
      if is_digit_between 0 9 a && is_digit_between 0 9 b
         && is_digit_between 0 9 c && is_digit_between 0 9 d
      then Some (1000 * value a + 100 * value b + 10 * value c + value d, rest)
      else None
  | _ => None
  end.

(** [1[0-2]|0[1-9]|[1-9]], the alternatives tried in this order. *)
Definition parse_month (s : string) : option (Z * string) :=
  match s with
  | String a rest =>
      match rest with
      | String b rest' =>
          if is_digit_between 1 1 a && is_digit_between 0 2 b
          then Some (10 + value b, rest')
          else if is_digit_between 0 0 a && is_digit_between 1 9 b
          then Some (value b, rest')
          else if is_digit_between 1 9 a then Some (value a, rest)
          else None
      | EmptyString =>
          if is_digit_between 1 9 a then Some (value a, rest) else None
      end
  | EmptyString => None
  end.

(** [3[0-1]|[1-2]\d|0[1-9]|[1-9]| [1-9]], the alternatives tried in this
    order. *)
Definition parse_day (s : string) : option (Z * string) :=
  match s with
  | String a rest =>
      match rest with
      | String b rest' =>
          if is_digit_between 3 3 a && is_digit_between 0 1 b
          then Some (30 + value b, rest')
          else if is_digit_between 1 2 a && is_digit_between 0 9 b
          then Some (10 * value a + value b, rest')
          else if is_digit_between 0 0 a && is_digit_between 1 9 b
          then Some (value b, rest')
          else if is_digit_between 1 9 a then Some (value a, rest)
          else if Ascii.eqb a " " && is_digit_between 1 9 b
          then Some (value b, rest')
          else None
      | EmptyString =>
          if is_digit_between 1 9 a then Some (value a, rest) else None
      end
  | EmptyString => None
  end.

Definition expect_dash (s : string) : option string :=
  match s with
  | String c rest => if Ascii.eqb c "-" then Some rest else None
  | EmptyString => None
  end.

(** [datetime.strptime(s, "%Y-%m-%d")]; [None] stands for [ValueError]
    (no match, text left over, or a date that does not exist). *)
Definition strptime (s : string) : option date :=
  match parse_year s with
  | None => None
  | Some (y, s1) =>
      match expect_dash s1 with
      | None => None
      | Some s2 =>
          match parse_month s2 with
          | None => None
          | Some (m, s3) =>
              match expect_dash s3 with
              | None => None
              | Some s4 =>
                  match parse_day s4 with
                  | Some (d, EmptyString) =>
                      if valid (mkdate y m d) then Some (mkdate y m d) else None
                  | _ => None
                  end
              end
          end
      end
  end.

(** *** Printing with [%Y-%m-%d] *)

Definition digit_char (v : Z) : ascii := ascii_of_nat (48 + Z.to_nat v).

Definition two_digits (v : Z) : string :=
  String (digit_char (v / 10)) (String (digit_char (v mod 10)) EmptyString).

(** The year is printed on four digits.  (Below the year 1000 some C
    libraries print fewer digits; the properties below are stated for the
    years from 1000 on.) *)
Definition four_digits (v : Z) : string :=
  String (digit_char (v / 1000))
    (String (digit_char (v / 100 mod 10))
       (String (digit_char (v / 10 mod 10))
          (String (digit_char (v mod 10)) EmptyString))).

Definition strftime (t : date) : string :=
  (four_digits (year t) ++ "-" ++ two_digits (month t) ++ "-" ++ two_digits (day t))%string.

End datetime.

(** A day with midnight as its time, moved by a number of days
    ([start_dt + timedelta(days=i)]). *)
Definition plus_days (t : datetime.date) (i : Z) : datetime.date :=
  datetime.ord2ymd (datetime.toordinal t + i).

(** [range(n)] *)
Definition range (n : Z) : list Z := map Z.of_nat (seq 0 (Z.to_nat n)).

Definition get_date_range (start end_ : string) : raised + list string :=
  match datetime.strptime start with
  | None => inl (ValueError "time data does not match format '%Y-%m-%d'")
  | Some start_dt =>
      match datetime.strptime end_ with
      | None => inl (ValueError "time data does not match format '%Y-%m-%d'")
      | Some end_dt =>
          let delta_days := (datetime.toordinal end_dt - datetime.toordinal start_dt)%Z in
          inr (map (fun i => datetime.strftime (plus_days start_dt i))
                   (range (delta_days + 1)))
      end
  end.

Definition START_DATE : string := "2025-12-11".
Definition END_DATE : string := "2025-12-13".

(** ** The report: [generate_plot_base64] and [main] *)

(** The text of the page around the sections, as in the template of [main]. *)
Definition page_head : string := "
    <html>
    <head>
        <title>Volatility Report</title>
        <style>
            body { font-family: sans-serif; padding: 20px; }
            .chart-container { display: flex; flex-wrap: wrap; gap: 20px; }
            .chart-container > div { flex: 1; min-width: 400px; }
            img { max-width: 100%; border: 1px solid #ddd; }
            table { border-collapse: collapse; width: 100%; }
            th, td { border: 1px solid #ddd; padding: 8px; text-align: left; }
        </style>
    </head>
    <body>
        <h1>Volatility Analysis Report</h1>
        ".

Definition page_tail : string := "
    </body>
    </html>
    ".

Definition page (sections : list string) : string :=
  (page_head ++ String.concat "" sections ++ page_tail)%string.

Definition SYMBOLS : list string := [ "BTCUSDT"; "ETHUSDT" ].

Definition windows : list (string * string * string) :=
  [ ("5m", "ret_5m", "5 Minute Window");
    ("10m", "ret_10m", "10 Minute Window");
    ("15m", "ret_15m", "15 Minute Window") ].

(** Python's truth test on a plot: [None] and the empty string are false. *)
Definition truthy (plot : option string) : bool := negb (missing plot).

Section Report.

(** The supplier of candles and the dates, as for [process_data]; and the
    drawing of the chart, an external collaborator: the picture of a table
    under a title, as base64 text. *)
Variable supplier : string -> string -> string -> outcome (option (list Candle)).
Variable dates : list string.
Variable render : list BucketRow -> string -> string.

Definition generate_plot_base64 (results : list BucketRow) (title : string)
  : option string :=
  match results with
  | [] => None
  | _ :: _ => Some (render results title)
  end.

(** One round of the loop over the windows in [main]: the heading, then the
    block of the one-minute bars and the block of the one-second bars. *)
Definition report_window (symbol : string) (df_1m df_1s : option ref)
           (symbol_html : string) (w : string * string * string) : M string :=
  let '(win_id, win_col, win_title) := w in
  let symbol_html := (symbol_html ++ "<h3>" ++ win_title ++ "</h3>")%string in
  let symbol_html := (symbol_html ++ "<div class='chart-container'>")%string in
  plot_1m <-
    match df_1m with
    | Some df =>
        results_1m <- analyze_volatility df win_col ;;
        match results_1m with
        | _ :: _ =>
            ret (generate_plot_base64 results_1m
                   (symbol ++ " - " ++ win_title ++ " (1m Res)")%string)
        | [] => ret None
        end
    | None => ret None
    end ;;
  let symbol_html :=
    if truthy plot_1m
    then (symbol_html ++ "<div><h4>1m Resolution</h4><img src='data:image/png;base64,"
            ++ text plot_1m ++ "'></div>")%string
    else (symbol_html ++ "<div><h4>1m Resolution</h4><p>No events found.</p></div>")%string in
  plot_1s <-
    match df_1s with
    | Some df =>
        results_1s <- analyze_volatility df win_col ;;
        match results_1s with
        | _ :: _ =>
            ret (generate_plot_base64 results_1s
                   (symbol ++ " - " ++ win_title ++ " (1s Res)")%string)
        | [] => ret None
        end
    | None => ret None
    end ;;
  let symbol_html :=
    if truthy plot_1s
    then (symbol_html ++ "<div><h4>1s Resolution</h4><img src='data:image/png;base64,"
            ++ text plot_1s ++ "'></div>")%string
    else (symbol_html ++ "<div><h4>1s Resolution</h4><p>No events found.</p></div>")%string in
  ret (symbol_html ++ "</div><hr>")%string.

(** The loop over the symbols, carrying the sections collected so far. *)
Fixpoint report_symbols (symbols : list string) (html_sections : list string)
  : M (list string) :=
  match symbols with
  | [] => ret html_sections
  | symbol :: symbols' =>
      df_1m <- process_data supplier dates symbol "1m" ;;
      df_1s <- process_data supplier dates symbol "1s" ;;
      match df_1m, df_1s with
      | None, None => report_symbols symbols' html_sections
      | _, _ =>
          symbol_html <-
            for_fold windows ("<h2>" ++ symbol ++ "</h2>")%string
                     (report_window symbol df_1m df_1s) ;;
          report_symbols symbols' (html_sections ++ [symbol_html])
      end
  end.

(** [main], up to the text of the page: the two loops and the template.
    Drawing a chart is taken as given ([render]); writing the text to
    [volatility_report.html] and opening the browser come after this and
    are not part of the model, and neither are the lines printed on the
    way. *)
Definition main : M string :=
  html_sections <- report_symbols SYMBOLS [] ;;
  ret (page html_sections).

End Report.

(** A frame reference on which every window can be analysed: in range,
    well-formed, with a float column for each window. *)
Definition analyzable (h : store) (df : option ref) : Prop :=
  match df with
  | None => True
  | Some r =>
      r < length h
      /\ wf (nth r h empty_frame)
      /\ forall w, In w windows ->
           exists xs, lookup (snd (fst w)) (columns (nth r h empty_frame))
                      = Some (Float64 xs)
  end.

(** The table of a window column of a frame that may be absent. *)
Definition table_of (h : store) (df : option ref) (col : string) : list BucketRow :=
  match df with
  | None => []
  | Some r =>
      match lookup col (columns (nth r h empty_frame)) with
      | Some (Float64 xs) => bucket_table (filter is_event xs)
      | _ => []
      end
  end.

(** The block of one resolution: the chart when there is one, and the
    sentence "No events found." otherwise. *)
Definition block (resolution : string) (plot : option string) : string :=
  if truthy plot
  then ("<div><h4>" ++ resolution ++ " Resolution</h4><img src='data:image/png;base64,"
          ++ text plot ++ "'></div>")%string
  else ("<div><h4>" ++ resolution ++ " Resolution</h4><p>No events found.</p></div>")%string.

(** The text of one window, from the two tables. *)
Definition window_html (render : list BucketRow -> string -> string)
           (symbol : string) (table_1m table_1s : list BucketRow)
           (html : string) (w : string * string * string) : string :=
  let '(win_id, win_col, win_title) := w in
  (((((html ++ "<h3>" ++ win_title ++ "</h3>") ++ "<div class='chart-container'>")
       ++ block "1m" (generate_plot_base64 render table_1m
                        (symbol ++ " - " ++ win_title ++ " (1m Res)")))
      ++ block "1s" (generate_plot_base64 render table_1s
                       (symbol ++ " - " ++ win_title ++ " (1s Res)")))
     ++ "</div><hr>")%string.

(** ** The float literals of the program

    The bit patterns are those Python prints with [float.hex]: 0.005 is
    0x1.47ae147ae147bp-8, 0.006 is 0x1.89374bc6a7efap-8, 0.02 is
    0x1.47ae147ae147bp-6, and 1.0 is 0x1p+0. *)

Example literal_0_005 : F64.lit 5 3 = S754_finite false 5764607523034235 (-60).
Proof. vm_compute. reflexivity. Qed.

Example literal_0_006 : F64.lit 6 3 = S754_finite false 6917529027641082 (-60).
Proof. vm_compute. reflexivity. Qed.

Example literal_0_020 : F64.lit 20 3 = S754_finite false 5764607523034235 (-58).
Proof. vm_compute. reflexivity. Qed.

Example literal_1 : F64.of_int 1 = S754_finite false 4503599627370496 (-52).
Proof. vm_compute. reflexivity. Qed.

(** ** Order facts on binary64 values *)

Section FloatOrder.

Local Open Scope Z_scope.

Ltac split_compare :=
  repeat match goal with
  | H : context [Pos.compare_cont Eq ?a ?b] |- _ =>
      change (Pos.compare_cont Eq a b) with (Pos.compare a b) in H
  | |- context [Pos.compare_cont Eq ?a ?b] =>
      change (Pos.compare_cont Eq a b) with (Pos.compare a b)
  end;
  repeat match goal with
  | H : context [Z.compare ?a ?b] |- _ => destruct (Z.compare_spec a b)
  | |- context [Z.compare ?a ?b] => destruct (Z.compare_spec a b)
  | H : context [Pos.compare ?a ?b] |- _ => destruct (Pos.compare_spec a b)
  | |- context [Pos.compare ?a ?b] => destruct (Pos.compare_spec a b)
  end;
  simpl in *; subst; try discriminate; try reflexivity; try lia.

Lemma SFcompare_antisym (x y : float) :
  SFcompare y x = option_map CompOpp (SFcompare x y).
Proof.
  destruct x as [[]|[]| |[] mx ex], y as [[]|[]| |[] my ey]; simpl; try reflexivity;
    split_compare.
Qed.

Lemma SFcompare_opp (x y : float) :
  SFcompare (SFopp x) (SFopp y) = SFcompare y x.
Proof.
  destruct x as [[]|[]| |[] mx ex], y as [[]|[]| |[] my ey]; simpl; try reflexivity;
    split_compare.
Qed.

Lemma SFopp_involutive (x : float) : SFopp (SFopp x) = x.
Proof. destruct x as [[]|[]| |[] mx ex]; reflexivity. Qed.

Lemma lt_not_le (x y : float) :
  F64.is_nan x = false -> F64.is_nan y = false ->
  F64.lt x y = negb (F64.le y x).
Proof.
  intros Hx Hy. unfold F64.lt, F64.le, SFltb, SFleb.
  rewrite (SFcompare_antisym x y).
  destruct x as [[]|[]| |[] mx ex], y as [[]|[]| |[] my ey]; simpl in *;
    try discriminate; try reflexivity; split_compare.
Qed.

Lemma le_trans (a b c : float) :
  F64.le a b = true -> F64.le b c = true -> F64.le a c = true.
Proof.
  unfold F64.le, SFleb.
  destruct a as [[]|[]| |[] ma ea], b as [[]|[]| |[] mb eb], c as [[]|[]| |[] mc ec];
    simpl; intros Hab Hbc; try discriminate; try reflexivity; split_compare.
Qed.

Lemma lt_le_trans (a b c : float) :
  F64.lt a b = true -> F64.le b c = true -> F64.lt a c = true.
Proof.
  unfold F64.lt, F64.le, SFltb, SFleb.
  destruct a as [[]|[]| |[] ma ea], b as [[]|[]| |[] mb eb], c as [[]|[]| |[] mc ec];
    simpl; intros Hab Hbc; try discriminate; try reflexivity; split_compare.
Qed.

Lemma le_nan_free (a b : float) :
  F64.le a b = true -> F64.is_nan a = false /\ F64.is_nan b = false.
Proof.
  unfold F64.le, SFleb.
  destruct a as [[]|[]| |[] ma ea], b as [[]|[]| |[] mb eb]; simpl;
    intros H; try discriminate; split; reflexivity.
Qed.

Lemma lt_nan_free (a b : float) :
  F64.lt a b = true -> F64.is_nan a = false /\ F64.is_nan b = false.
Proof.
  unfold F64.lt, SFltb.
  destruct a as [[]|[]| |[] ma ea], b as [[]|[]| |[] mb eb]; simpl;
    intros H; try discriminate; split; reflexivity.
Qed.

(** [x <= -c] is [-x >= c], and [x > -c] is [-x < c]: negation is exact. *)
Lemma le_neg_swap (x c : float) : F64.le x (F64.neg c) = F64.ge (F64.neg x) c.
Proof.
  unfold F64.ge, F64.le, F64.neg, SFleb.
  rewrite <- (SFcompare_opp (SFopp x) c), SFopp_involutive. reflexivity.
Qed.

Lemma gt_neg_swap (x c : float) : F64.gt x (F64.neg c) = F64.lt (F64.neg x) c.
Proof.
  unfold F64.gt, F64.lt, F64.neg, SFltb.
  rewrite <- (SFcompare_opp c (SFopp x)), SFopp_involutive. reflexivity.
Qed.

Lemma neg_of_negative (x : float) :
  F64.signbit x = true -> F64.abs x = F64.neg x.
Proof. destruct x as [[]|[]| |[] mx ex]; simpl; intros H; try discriminate; reflexivity. Qed.

(** For a positive bound, [|x| >= c] splits into [x >= c] or [-x >= c],
    and the two cannot hold together. *)
Lemma abs_ge_split (x c : float) :
  F64.lt (S754_zero false) c = true ->
  F64.ge (F64.abs x) c = F64.ge x c || F64.ge (F64.neg x) c.
Proof.
  unfold F64.ge, F64.lt, F64.le, F64.abs, F64.neg, SFltb, SFleb.
  destruct c as [[]|[]| |[] mc ec], x as [[]|[]| |[] mx ex]; simpl;
    intros H; try discriminate; try reflexivity;
    repeat match goal with |- context [match ?c with Eq => _ | Lt => _ | Gt => _ end] =>
      destruct c end; reflexivity.
Qed.

Lemma ge_neg_exclusive (x c : float) :
  F64.lt (S754_zero false) c = true ->
  F64.ge x c = true -> F64.ge (F64.neg x) c = true -> False.
Proof.
  unfold F64.ge, F64.lt, F64.le, F64.neg, SFltb, SFleb.
  destruct c as [[]|[]| |[] mc ec], x as [[]|[]| |[] mx ex]; simpl;
    intros H H1 H2; discriminate.
Qed.

Lemma lt_inf (x : float) :
  F64.is_nan x = false -> F64.lt x F64.inf = negb (F64.is_inf x && negb (F64.signbit x)).
Proof. destruct x as [[]|[]| |[] mx ex]; simpl; intros H; try discriminate; reflexivity. Qed.

End FloatOrder.

(** ** Buckets: the dump test mirrors the pump test, and a chain of buckets
    claims a value at most once *)

Lemma is_dump_mirror (b : float * float * string) (x : float) :
  is_dump b x = is_pump b (F64.neg x).
Proof.
  unfold is_dump, is_pump. rewrite le_neg_swap, gt_neg_swap. reflexivity.
Qed.

Lemma dump_hits_mirror (bs : list (float * float * string)) (x : float) :
  dump_hits bs x = pump_hits bs (F64.neg x).
Proof.
  induction bs as [|b bs IH]; simpl; [reflexivity|].
  rewrite is_dump_mirror, IH. reflexivity.
Qed.

Lemma Chain_le (lo hi : float) (bs : list (float * float * string)) :
  Chain lo bs hi -> F64.le lo hi = true.
Proof.
  induction 1 as [lo hi label H | lo mid hi label bs H _ IH]; [exact H|].
  exact (le_trans _ _ _ H IH).
Qed.

Lemma Chain_pump_hits (lo hi : float) (bs : list (float * float * string)) (x : float) :
  Chain lo bs hi -> F64.is_nan x = false ->
  pump_hits bs x = if F64.ge x lo && F64.lt x hi then 1 else 0.
Proof.
  intros HC Hx.
  induction HC as [lo hi label H | lo mid hi label bs H HC IH]; simpl.
  - unfold is_pump; simpl. destruct (F64.ge x lo && F64.lt x hi); reflexivity.
  - rewrite IH. unfold is_pump; simpl.
    pose proof (Chain_le _ _ _ HC) as Hmh.
    destruct (le_nan_free _ _ Hmh) as [Hm _].
    pose proof (lt_not_le x mid Hx Hm) as Hlt.
    unfold F64.ge in *.
    destruct (F64.le mid x) eqn:Emx; simpl in Hlt; rewrite Hlt; simpl.
    + rewrite (le_trans _ _ _ H Emx). rewrite andb_false_r. reflexivity.
    + rewrite (lt_le_trans _ _ _ Hlt Hmh), andb_true_r.
      destruct (F64.le lo x); reflexivity.
Qed.

Lemma buckets_Chain : Chain threshold buckets F64.inf.
Proof.
  unfold threshold, buckets.
  repeat (first [ apply Chain_last | apply Chain_step ]; [vm_compute; reflexivity|]).
  apply Chain_last. vm_compute; reflexivity.
Qed.

Lemma pump_hits_nan (bs : list (float * float * string)) (x : float) :
  F64.is_nan x = true -> pump_hits bs x = 0.
Proof.
  intros Hx. destruct x; try discriminate.
  induction bs as [|b bs IH]; simpl; [reflexivity|].
  rewrite IH. unfold is_pump, F64.ge, F64.le, SFleb.
  destruct (fst (fst b)); reflexivity.
Qed.

Lemma threshold_positive : F64.lt (S754_zero false) threshold = true.
Proof. vm_compute. reflexivity. Qed.

Lemma is_event_split (x : float) :
  is_event x = F64.ge x threshold || F64.ge (F64.neg x) threshold.
Proof. unfold is_event. apply abs_ge_split, threshold_positive. Qed.

Lemma is_event_not_nan (x : float) : is_event x = true -> F64.is_nan x = false.
Proof.
  unfold is_event, F64.ge. intros H. apply le_nan_free in H.
  destruct x; try reflexivity. destruct H as [_ H]. discriminate.
Qed.

Lemma neg_is_nan (x : float) : F64.is_nan (F64.neg x) = F64.is_nan x.
Proof. destruct x; reflexivity. Qed.

Lemma pump_hits_buckets (x : float) :
  F64.is_nan x = false ->
  pump_hits buckets x =
  if F64.ge x threshold && negb (F64.is_inf x && negb (F64.signbit x)) then 1 else 0.
Proof.
  intros Hx. rewrite (Chain_pump_hits _ _ _ x buckets_Chain Hx).
  rewrite (lt_inf x Hx). reflexivity.
Qed.

(** An event is claimed by exactly one bucket and one direction, unless it is
    infinite, in which case no bucket claims it. *)
Lemma hits_of_event (x : float) :
  is_event x = true ->
  pump_hits buckets x + dump_hits buckets x = if F64.is_inf x then 0 else 1.
Proof.
  intros Hev. pose proof (is_event_not_nan x Hev) as Hx.
  rewrite dump_hits_mirror, !pump_hits_buckets by (rewrite ?neg_is_nan; exact Hx).
  rewrite is_event_split in Hev.
  pose proof (ge_neg_exclusive x threshold threshold_positive) as Hex.
  destruct x as [sx|sx| |sx mx ex].
  - destruct sx; vm_compute in Hev; discriminate Hev.
  - destruct sx; vm_compute; reflexivity.
  - discriminate Hx.
  - change (F64.is_inf (F64.neg (S754_finite sx mx ex))) with false.
    change (F64.is_inf (S754_finite sx mx ex)) with false.
    cbn [andb negb].
    destruct (F64.ge (S754_finite sx mx ex) threshold),
             (F64.ge (F64.neg (S754_finite sx mx ex)) threshold);
      try discriminate; try reflexivity.
    exfalso; apply Hex; reflexivity.
Qed.

(** Whatever the value, the whole table claims it at most once. *)
Lemma hits_at_most_one (x : float) :
  pump_hits buckets x + dump_hits buckets x <= 1.
Proof.
  destruct (F64.is_nan x) eqn:Hx.
  - rewrite dump_hits_mirror, !pump_hits_nan by (rewrite ?neg_is_nan; exact Hx). lia.
  - rewrite dump_hits_mirror, !pump_hits_buckets by (rewrite ?neg_is_nan; exact Hx).
    pose proof (ge_neg_exclusive x threshold threshold_positive) as Hex.
    destruct (F64.ge x threshold) eqn:Ea, (F64.ge (F64.neg x) threshold) eqn:Eb;
      try (exfalso; apply Hex; reflexivity); cbn [andb];
      repeat match goal with |- context [if ?c then _ else _] => destruct c end; lia.
Qed.

Lemma pump_hits_In (bs : list (float * float * string)) (b : float * float * string)
      (x : float) :
  In b bs -> is_pump b x = true -> 1 <= pump_hits bs x.
Proof.
  induction bs as [|b' bs IH]; simpl; [tauto|].
  intros [->|Hin] Hp.
  - rewrite Hp. lia.
  - specialize (IH Hin Hp). lia.
Qed.

Lemma pump_hits_unique (bs : list (float * float * string))
      (b1 b2 : float * float * string) (x : float) :
  pump_hits bs x <= 1 -> In b1 bs -> In b2 bs ->
  is_pump b1 x = true -> is_pump b2 x = true -> b1 = b2.
Proof.
  induction bs as [|b bs IH]; simpl; [tauto|].
  intros Hle [->|H1] [->|H2] Hp1 Hp2.
  - reflexivity.
  - rewrite Hp1 in Hle. pose proof (pump_hits_In _ _ _ H2 Hp2). lia.
  - rewrite Hp2 in Hle. pose proof (pump_hits_In _ _ _ H1 Hp1). lia.
  - apply IH; try assumption. lia.
Qed.

(** ** Counting rows of the table *)

Lemma length_filter_sum {A : Type} (p : A -> bool) (l : list A) :
  length (filter p l) = list_sum (map (fun x => if p x then 1 else 0) l).
Proof.
  induction l as [|x l IH]; simpl; [reflexivity|].
  destruct (p x); simpl; rewrite IH; reflexivity.
Qed.

Lemma list_sum_plus {A : Type} (f g : A -> nat) (l : list A) :
  list_sum (map (fun x => f x + g x) l) = list_sum (map f l) + list_sum (map g l).
Proof.
  induction l as [|x l IH]; simpl; [reflexivity|]. rewrite IH. lia.
Qed.

Lemma total_pumps_rows (ev : list float) (bs : list (float * float * string)) :
  total_pumps (map (bucket_row ev) bs) = list_sum (map (pump_hits bs) ev).
Proof.
  induction bs as [|b bs IH]; simpl.
  - induction ev as [|x ev IHev]; simpl; [reflexivity | exact IHev].
  - rewrite IH, length_filter_sum, <- list_sum_plus. reflexivity.
Qed.

Lemma total_dumps_rows (ev : list float) (bs : list (float * float * string)) :
  total_dumps (map (bucket_row ev) bs) = list_sum (map (dump_hits bs) ev).
Proof.
  induction bs as [|b bs IH]; simpl.
  - induction ev as [|x ev IHev]; simpl; [reflexivity | exact IHev].
  - rewrite IH, length_filter_sum, <- list_sum_plus. reflexivity.
Qed.

Lemma bucket_table_totals (ev : list float) :
  total_pumps (bucket_table ev) + total_dumps (bucket_table ev) =
  list_sum (map (fun x => pump_hits buckets x + dump_hits buckets x) ev).
Proof.
  destruct ev as [|x ev]; [reflexivity|].
  unfold bucket_table. rewrite total_pumps_rows, total_dumps_rows, <- list_sum_plus.
  reflexivity.
Qed.

(** The counts of the table add up to the number of selected values that are
    not infinite. *)
Lemma bucket_table_counts (ev : list float) :
  Forall (fun x => is_event x = true) ev ->
  total_pumps (bucket_table ev) + total_dumps (bucket_table ev) =
  length (filter not_infinite ev).
Proof.
  intros Hev. rewrite bucket_table_totals, length_filter_sum.
  induction Hev as [|x ev Hx _ IH]; [reflexivity|].
  cbn [map list_sum fold_right]. unfold list_sum in IH.
  rewrite IH, (hits_of_event x Hx). unfold not_infinite.
  destruct (F64.is_inf x); reflexivity.
Qed.

Lemma bucket_table_bound (ev : list float) :
  total_pumps (bucket_table ev) + total_dumps (bucket_table ev) <= length ev.
Proof.
  rewrite bucket_table_totals.
  induction ev as [|x ev IH]; [apply le_n|].
  cbn [map list_sum fold_right length]. unfold list_sum in IH.
  pose proof (hits_at_most_one x). lia.
Qed.

(** ** Lists, masks and frames *)

Lemma compress_map_filter {A : Type} (p : A -> bool) (l : list A) :
  compress (map p l) l = filter p l.
Proof.
  induction l as [|x l IH]; simpl; [reflexivity|].
  rewrite IH. reflexivity.
Qed.

Lemma length_compress_map {A B : Type} (p : B -> bool) (xs : list B) (l : list A) :
  length l = length xs ->
  length (compress (map p xs) l) = length (filter p xs).
Proof.
  revert l. induction xs as [|x xs IH]; intros [|a l] Hlen; simpl in *;
    try discriminate; try reflexivity.
  injection Hlen as Hlen. destruct (p x); simpl; rewrite (IH l Hlen); reflexivity.
Qed.

Lemma size_compress_map {B : Type} (p : B -> bool) (xs : list B) (s : Series) :
  size s = length xs ->
  size (Series_compress (map p xs) s) = length (filter p xs).
Proof.
  destruct s as [v|v|v]; simpl; apply length_compress_map.
Qed.

Lemma and_map {B : Type} (f g : B -> bool) (xs : list B) :
  series.and (map f xs) (map g xs) = map (fun x => f x && g x) xs.
Proof.
  unfold series.and. induction xs as [|x xs IH]; simpl; [reflexivity|].
  rewrite IH. reflexivity.
Qed.

Lemma lookup_map_columns (f : Series -> Series) (col : string)
      (cs : list (string * Series)) :
  lookup col (map_columns f cs) = option_map f (lookup col cs).
Proof.
  induction cs as [|[n s] cs IH]; simpl; [reflexivity|].
  destruct (String.eqb n col); [reflexivity | exact IH].
Qed.

Lemma lookup_In (col : string) (cs : list (string * Series)) (s : Series) :
  lookup col cs = Some s -> In (col, s) cs.
Proof.
  induction cs as [|[n s'] cs IH]; simpl; [discriminate|].
  destruct (String.eqb n col) eqn:E.
  - apply String.eqb_eq in E. intros [= ->]. left. subst. reflexivity.
  - intros H. right. exact (IH H).
Qed.

Lemma wf_lookup (d : DataFrame) (col : string) (s : Series) :
  wf d -> lookup col (columns d) = Some s -> size s = size (index d).
Proof.
  intros Hwf Hl. apply lookup_In in Hl.
  unfold wf in Hwf. rewrite Forall_forall in Hwf. exact (Hwf _ Hl).
Qed.

Lemma nth_new (h : store) (d : DataFrame) (rest : store) :
  nth (length h) (h ++ d :: rest) empty_frame = d.
Proof. rewrite app_nth2, Nat.sub_diag by apply le_n. reflexivity. Qed.

Lemma nth_extends (h extra : store) (r : ref) :
  r < length h -> nth r (h ++ extra) empty_frame = nth r h empty_frame.
Proof. intros H. apply app_nth1, H. Qed.

Lemma extends_refl (h : store) : extends h h.
Proof. exists []. symmetry. apply app_nil_r. Qed.

Lemma extends_trans (h1 h2 h3 : store) :
  extends h1 h2 -> extends h2 h3 -> extends h1 h3.
Proof.
  intros [e1 ->] [e2 ->]. exists (e1 ++ e2). symmetry. apply app_assoc.
Qed.

Lemma extends_app (h extra : store) : extends h (h ++ extra).
Proof. exists extra. reflexivity. Qed.

Lemma nth_new_1 (h : store) (p d : DataFrame) :
  nth (length h) ((h ++ [p]) ++ [d]) empty_frame = p.
Proof. rewrite <- app_assoc. apply nth_new. Qed.

Lemma nth_old_1 (h : store) (p : DataFrame) (r : ref) :
  r < length h -> nth r (h ++ [p]) empty_frame = nth r h empty_frame.
Proof. apply nth_extends. Qed.

Lemma nth_old_2 (h : store) (p d : DataFrame) (r : ref) :
  r < length h -> nth r ((h ++ [p]) ++ [d]) empty_frame = nth r h empty_frame.
Proof. intros H. rewrite <- app_assoc. apply nth_extends, H. Qed.

(** ** Running the loop over the buckets *)

Lemma for_each_run {A B : Type} (body : A -> M B) (f : A -> B)
      (Inv : store -> Prop) (l : list A) :
  (forall a h, Inv h ->
     exists h', body a h = (Ok (f a), h') /\ Inv h' /\ extends h h') ->
  forall h, Inv h ->
    exists h', for_each l body h = (Ok (map f l), h') /\ extends h h'.
Proof.
  intros Hbody. induction l as [|a l IH]; intros h Hh; simpl.
  - exists h. split; [reflexivity | apply extends_refl].
  - destruct (Hbody a h Hh) as (h1 & E1 & I1 & X1).
    destruct (IH h1 I1) as (h2 & E2 & X2).
    exists h2. split; [|exact (extends_trans _ _ _ X1 X2)].
    unfold bind. rewrite E1, E2. reflexivity.
Qed.

(** What one call of [analyze_volatility] returns on a float column of a
    well-formed frame, and that it only allocates. *)
Lemma analyze_volatility_run (h : store) (df : ref) (col : string) (xs : list float) :
  wf (nth df h empty_frame) ->
  lookup col (columns (nth df h empty_frame)) = Some (Float64 xs) ->
  exists h',
    analyze_volatility df col h = (Ok (bucket_table (filter is_event xs)), h')
    /\ extends h h'.
Proof.
  intros Hwf Hcol.
  pose proof (wf_lookup _ _ _ Hwf Hcol) as Hsize. simpl in Hsize.
  set (d := nth df h empty_frame) in *.
  set (mask := map is_event xs).
  set (sel := mkDataFrame (Series_compress mask (index d))
                          (map_columns (Series_compress mask) (columns d))).
  assert (Hsel : lookup col (columns sel) = Some (Float64 (filter is_event xs))).
  { unfold sel; simpl. rewrite lookup_map_columns, Hcol. simpl.
    unfold mask. rewrite compress_map_filter. reflexivity. }
  assert (Hidx : size (index sel) = length (filter is_event xs)).
  { unfold sel, mask; simpl. apply size_compress_map. symmetry. exact Hsize. }
  assert (Hcols : (length (columns sel) =? 0)%nat = false).
  { unfold sel; simpl. unfold map_columns. rewrite length_map.
    destruct (columns d); [discriminate Hcol | reflexivity]. }
  unfold analyze_volatility.
  cbv beta iota delta [bind frame.getitem load ret].
  fold d. rewrite Hcol.
  cbv beta iota delta [series.abs series.ge series.compare_scalar ret
                       frame.getitem_bool frame.copy frame.empty bind load new].
  rewrite map_map. change (map (fun x => F64.ge (F64.abs x) threshold) xs) with mask.
  fold d. fold sel.
  rewrite (nth_new h sel []).
  replace (nth (length (h ++ [sel])) ((h ++ [sel]) ++ [sel]) empty_frame) with sel
    by (symmetry; apply nth_new).
  rewrite Hidx, Hcols, orb_false_r.
  destruct (filter is_event xs) as [|x0 ev0] eqn:Eev.
  - simpl. exists ((h ++ [sel]) ++ [sel]). split; [reflexivity|].
    rewrite <- app_assoc. apply extends_app.
  - cbn [length Nat.eqb].
    set (events := length (h ++ [sel])).
    set (h1 := (h ++ [sel]) ++ [sel]).
    set (ev := x0 :: ev0) in *.
    match goal with
    | |- context [for_each buckets ?body] =>
        assert (Hbody : forall a h',
                  events < length h' /\ nth events h' empty_frame = sel ->
                  exists h'', body a h' = (Ok (bucket_row ev a), h'')
                    /\ (events < length h'' /\ nth events h'' empty_frame = sel)
                    /\ extends h' h'')
    end.
    { intros [[low high] label] h' [Hlt Hev].
      eexists. split; [|split; [split|]].
      - repeat (cbv beta iota delta [bind frame.getitem load ret series.ge series.lt
                           series.le series.gt series.compare_scalar
                           frame.getitem_bool frame.len new];
                progress rewrite ?(nth_old_1 h' _ events Hlt), ?Hev, ?Hsel,
                                  ?nth_new_1, ?(nth_new (h' ++ [_]) _ [])).
        rewrite !and_map.
        unfold bucket_row, is_pump, is_dump. cbn [fst snd index].
        rewrite !size_compress_map by exact Hidx.
        reflexivity.
      - rewrite !length_app. lia.
      - rewrite nth_old_2 by exact Hlt. exact Hev.
      - rewrite <- app_assoc. apply extends_app. }
    destruct (for_each_run _ _ _ buckets Hbody h1) as (h2 & E2 & X2).
    { split; [unfold h1, events; rewrite !length_app; simpl; lia | apply nth_new]. }
    exists h2. split.
    + exact E2.
    + apply (extends_trans _ h1); [|exact X2].
      unfold h1. rewrite <- app_assoc. apply extends_app.
Qed.

(** ** Running [process_data] *)

Lemma update_new (h : store) (d d' : DataFrame) :
  update (length h) d' (h ++ [d]) = h ++ [d'].
Proof.
  induction h as [|x h IH]; simpl; [reflexivity|]. rewrite IH. reflexivity.
Qed.

Lemma take_map {A B : Type} (f : A -> B) (d : A) (order : list nat) (l : list A) :
  take (f d) order (map f l) = map f (take d order l).
Proof.
  unfold take. rewrite map_map. apply map_ext. intros i. apply map_nth.
Qed.

(** The loop over the dates leaves the store alone; when every call returns
    a list, it collects the lists in the order of the dates. *)
Lemma fetch_loop_store
      (fetch : string -> string -> string -> outcome (option (list Candle)))
      (symbol resolution : string) (dates : list string)
      (acc : list Candle) (h : store) :
  snd (for_fold dates acc (fun all_candles date =>
         candles <- lift (fetch symbol date resolution) ;;
         extend all_candles candles) h) = h.
Proof.
  revert acc. induction dates as [|d dates IH]; intros acc; [reflexivity|].
  cbn [for_fold]. unfold bind at 1. unfold bind at 1. unfold lift at 1.
  destruct (fetch symbol d resolution) as [[cs|]|e]; cbn [extend ret raise];
    [apply IH | reflexivity | reflexivity].
Qed.

Lemma fetch_loop_run
      (fetch : string -> string -> string -> outcome (option (list Candle)))
      (supply : string -> list Candle)
      (symbol resolution : string) (dates : list string)
      (acc : list Candle) (h : store) :
  (forall date, In date dates -> fetch symbol date resolution = Ok (Some (supply date))) ->
  for_fold dates acc (fun all_candles date =>
    candles <- lift (fetch symbol date resolution) ;;
    extend all_candles candles) h
  = (Ok (acc ++ flat_map supply dates), h).
Proof.
  revert acc. induction dates as [|d dates IH]; intros acc Hall.
  - cbn [for_fold flat_map]. rewrite app_nil_r. reflexivity.
  - cbn [for_fold flat_map]. unfold bind at 1. unfold bind at 1. unfold lift at 1.
    rewrite (Hall d (or_introl eq_refl)). cbn [extend ret].
    rewrite IH by (intros date Hin; apply Hall; right; exact Hin).
    rewrite app_assoc. reflexivity.
Qed.

(** A supplier is seen through its answers on the dates only. *)
Lemma process_data_supplied
      (fetch : string -> string -> string -> outcome (option (list Candle)))
      (supply : string -> string -> string -> list Candle)
      (dates : list string) (symbol resolution : string) (h : store) :
  (forall date, In date dates ->
     fetch symbol date resolution = Ok (Some (supply symbol date resolution))) ->
  process_data fetch dates symbol resolution h
  = process_data (answering supply) dates symbol resolution h.
Proof.
  intros Hall. unfold process_data. unfold bind at 1.
  rewrite (fetch_loop_run fetch (fun date => supply symbol date resolution)) by exact Hall.
  symmetry. unfold bind at 1.
  rewrite (fetch_loop_run (answering supply) (fun date => supply symbol date resolution))
    by reflexivity.
  reflexivity.
Qed.

Lemma process_data_empty (supply : string -> string -> string -> list Candle)
      (dates : list string) (symbol resolution : string) (h : store) :
  flat_map (fun date => supply symbol date resolution) dates = [] ->
  process_data (answering supply) dates symbol resolution h = (Ok None, h).
Proof.
  intros E. unfold process_data. unfold bind at 1.
  rewrite (fetch_loop_run (answering supply) (fun date => supply symbol date resolution))
    by reflexivity.
  cbn [app]. rewrite E. reflexivity.
Qed.

Lemma process_data_run (supply : string -> string -> string -> list Candle)
      (dates : list string) (symbol resolution : string) (h : store) :
  let cs := flat_map (fun date => supply symbol date resolution) dates in
  cs <> [] ->
  timestamps_in_range cs = true ->
  process_data (answering supply) dates symbol resolution h =
  (Ok (Some (length h)), h ++ [built_frame cs resolution]).
Proof.
  intros cs Hne Hrange. unfold process_data. unfold bind at 1.
  rewrite (fetch_loop_run (answering supply) (fun date => supply symbol date resolution))
    by reflexivity.
  cbn [app]. fold cs. unfold timestamps_in_range in Hrange.
  destruct cs as [|c0 cs0] eqn:Ecs; [contradiction|]. rewrite <- Ecs in *. clear Hne.
  repeat (cbv beta iota delta [bind ret raise load new store_at frame.getitem
                               frame.setitem frame.set_index frame.sort_index
                               series.pct_change];
          progress (rewrite ?nth_new, ?update_new, ?Hrange;
                    cbn [lookup assign drop filter map_columns map columns index
                         DataFrame_of_records fst snd negb andb String.eqb Ascii.eqb
                         Bool.eqb to_datetime argsort Series_take])).
  unfold built_frame, sorted_bars, window_bars.
  rewrite <- !take_map. reflexivity.
Qed.

(** One timestamp out of range stops the conversion: the frame has been
    created from the records, and nothing more is done to it. *)
Lemma process_data_out_of_range (supply : string -> string -> string -> list Candle)
      (dates : list string) (symbol resolution : string) (h : store) :
  let cs := flat_map (fun date => supply symbol date resolution) dates in
  cs <> [] ->
  timestamps_in_range cs = false ->
  process_data (answering supply) dates symbol resolution h =
  (Raise OutOfBoundsDatetime, h ++ [DataFrame_of_records cs]).
Proof.
  intros cs Hne Hrange. unfold process_data. unfold bind at 1.
  rewrite (fetch_loop_run (answering supply) (fun date => supply symbol date resolution))
    by reflexivity.
  cbn [app]. fold cs. unfold timestamps_in_range in Hrange.
  destruct cs as [|c0 cs0] eqn:Ecs; [contradiction|]. rewrite <- Ecs in *. clear Hne.
  unfold bind at 1. unfold new at 1. unfold bind at 1. unfold frame.getitem at 1.
  unfold bind at 1. unfold load at 1. rewrite nth_new.
  cbn [lookup columns DataFrame_of_records String.eqb Ascii.eqb Bool.eqb ret].
  unfold bind at 1. cbn [to_datetime]. rewrite Hrange. reflexivity.
Qed.

(** ** Sorting by the index *)

Section Sorting.

Context {A : Type} (le : A -> A -> bool).
Hypothesis le_total : forall a b, le a b = true \/ le b a = true.

Let R (a b : A) : Prop := le a b = true.

Lemma insert_by_Permutation (x : A) (l : list A) :
  Permutation (insert_by le x l) (x :: l).
Proof.
  induction l as [|y l IH]; simpl; [apply Permutation_refl|].
  destruct (le x y); [apply Permutation_refl|].
  apply perm_trans with (y :: x :: l); [apply perm_skip, IH | apply perm_swap].
Qed.

Lemma sort_by_Permutation (l : list A) : Permutation (sort_by le l) l.
Proof.
  induction l as [|x l IH]; simpl; [apply perm_nil|].
  apply perm_trans with (x :: sort_by le l);
    [apply insert_by_Permutation | apply perm_skip, IH].
Qed.

Lemma insert_by_HdRel (y x : A) (l : list A) :
  R y x -> HdRel R y l -> HdRel R y (insert_by le x l).
Proof.
  intros Hyx Hy. destruct l as [|z l]; simpl; [constructor; exact Hyx|].
  destruct (le x z); constructor; [exact Hyx|].
  inversion Hy; assumption.
Qed.

Lemma insert_by_Sorted (x : A) (l : list A) :
  Sorted R l -> Sorted R (insert_by le x l).
Proof.
  induction 1 as [|y l Hs IH Hhd]; simpl; [repeat constructor|].
  destruct (le x y) eqn:E.
  - constructor; [constructor; assumption | constructor; exact E].
  - constructor; [exact IH|].
    apply insert_by_HdRel; [|exact Hhd].
    destruct (le_total x y) as [H|H]; [congruence | exact H].
Qed.

Lemma sort_by_Sorted (l : list A) : Sorted R (sort_by le l).
Proof.
  induction l as [|x l IH]; simpl; [constructor | apply insert_by_Sorted, IH].
Qed.

End Sorting.

Lemma map_snd_combine {A B : Type} (a : list A) (b : list B) :
  length a = length b -> map snd (combine a b) = b.
Proof.
  revert b. induction a as [|x a IH]; intros [|y b] H; simpl in *;
    try discriminate; [reflexivity|].
  injection H as H. rewrite (IH b H). reflexivity.
Qed.

Lemma take_seq {A : Type} (d : A) (l : list A) :
  take d (seq 0 (length l)) l = l.
Proof.
  unfold take. apply (nth_ext _ _ d d).
  - rewrite length_map, length_seq. reflexivity.
  - intros i Hi. rewrite length_map, length_seq in Hi.
    rewrite (nth_indep _ d (nth 0 l d)) by (rewrite length_map, length_seq; exact Hi).
    rewrite (map_nth (fun i => nth i l d) (seq 0 (length l)) 0 i).
    rewrite seq_nth by exact Hi. reflexivity.
Qed.

Lemma In_combine_seq {K : Type} (d : K) (keys : list K) (s : nat) (k : K) (i : nat) :
  In (k, i) (combine keys (seq s (length keys))) ->
  s <= i /\ nth (i - s) keys d = k.
Proof.
  revert s. induction keys as [|k0 keys IH]; intros s; simpl; [tauto|].
  intros [E|Hin].
  - injection E as -> ->. rewrite Nat.sub_diag. split; [apply le_n | reflexivity].
  - destruct (IH (S s) Hin) as [Hle Hn]. split; [lia|].
    replace (i - s) with (S (i - S s)) by lia. exact Hn.
Qed.

Lemma Sorted_map_fst (l : list (Z * nat)) :
  Sorted (fun a b => Z.leb (fst a) (fst b) = true) l -> Sorted Z.le (map fst l).
Proof.
  induction 1 as [|a l Hs IH Hhd]; simpl; constructor; [exact IH|].
  destruct Hhd as [|b l Hab]; simpl; constructor. apply Z.leb_le, Hab.
Qed.

(** The sorted frame holds exactly the input bars, in ascending time order. *)
Lemma sorted_bars_Permutation (cs : list Candle) : Permutation (sorted_bars cs) cs.
Proof.
  unfold sorted_bars, argsort_by, take. rewrite map_map.
  set (pairs := combine (map time cs) (seq 0 (length (map time cs)))).
  set (le' := fun a b : Z * nat => Z.leb (fst a) (fst b)).
  apply perm_trans with (map (fun p : Z * nat => nth (snd p) cs default_bar) pairs).
  - apply Permutation_map, sort_by_Permutation.
  - rewrite <- (map_map snd (fun i => nth i cs default_bar)).
    unfold pairs. rewrite map_snd_combine by (rewrite length_seq; reflexivity).
    rewrite length_map. fold (take default_bar (seq 0 (length cs)) cs).
    rewrite take_seq. apply Permutation_refl.
Qed.

Lemma sorted_bars_times (cs : list Candle) :
  map time (sorted_bars cs) =
  map fst (sort_by (fun a b : Z * nat => Z.leb (fst a) (fst b))
                   (combine (map time cs) (seq 0 (length (map time cs))))).
Proof.
  unfold sorted_bars, argsort_by, take. rewrite !map_map.
  apply map_ext_in. intros [k i] Hin. simpl.
  apply (Permutation_in _ (sort_by_Permutation _ _)) in Hin.
  destruct (In_combine_seq 0%Z _ _ _ _ Hin) as [_ Hk].
  rewrite Nat.sub_0_r in Hk. rewrite <- Hk.
  symmetry. apply (map_nth time cs default_bar i).
Qed.

Lemma sorted_bars_Sorted (cs : list Candle) : Sorted Z.le (map time (sorted_bars cs)).
Proof.
  rewrite sorted_bars_times. apply Sorted_map_fst, sort_by_Sorted.
  intros a b. rewrite !Z.leb_le. lia.
Qed.

Lemma sorted_bars_length (cs : list Candle) : length (sorted_bars cs) = length cs.
Proof. apply Permutation_length, sorted_bars_Permutation. Qed.

(** ** Rolling returns, position by position *)

Lemma pct_nan_r (x : float) : pct x F64.nan = F64.nan.
Proof. destruct x; reflexivity. Qed.

Lemma shift_length (n : nat) (v : list float) : length (shift n v) = length v.
Proof.
  unfold shift. rewrite length_firstn, length_app. lia.
Qed.

Lemma shift_nth (n : nat) (v : list float) (i : nat) :
  i < length v ->
  nth i (shift n v) F64.nan = if i <? n then F64.nan else nth (i - n) v F64.nan.
Proof.
  intros Hi. unfold shift. rewrite nth_firstn.
  destruct (Nat.ltb_spec i (length v)) as [_|]; [|lia].
  destruct (Nat.ltb_spec i n) as [Hlt|Hge].
  - rewrite app_nth1 by (rewrite repeat_length; exact Hlt). apply nth_repeat.
  - rewrite app_nth2 by (rewrite repeat_length; exact Hge).
    rewrite repeat_length. reflexivity.
Qed.

Lemma pct_change_values_length (n : nat) (v : list float) :
  length (pct_change_values n v) = length v.
Proof.
  unfold pct_change_values.
  rewrite length_map, length_combine, shift_length. apply Nat.min_id.
Qed.

Lemma pct_change_values_nth (n : nat) (v : list float) (i : nat) :
  i < length v ->
  nth i (pct_change_values n v) F64.nan =
  if i <? n then F64.nan else pct (nth i v F64.nan) (nth (i - n) v F64.nan).
Proof.
  intros Hi. unfold pct_change_values.
  rewrite (nth_indep _ F64.nan ((fun p => pct (fst p) (snd p)) (F64.nan, F64.nan)))
    by (rewrite length_map, length_combine, shift_length, Nat.min_id; exact Hi).
  rewrite (map_nth (fun p => pct (fst p) (snd p))).
  rewrite combine_nth by (symmetry; apply shift_length).
  cbn [fst snd]. rewrite shift_nth by exact Hi.
  destruct (i <? n); [apply pct_nan_r | reflexivity].
Qed.

(** ** Computations that only allocate *)

Lemma allocates_ret {A : Type} (a : A) : allocates_only (ret a).
Proof. intros h. apply extends_refl. Qed.

Lemma allocates_raise {A : Type} (e : exn) : allocates_only (@raise A e).
Proof. intros h. apply extends_refl. Qed.

Lemma allocates_load (r : ref) : allocates_only (load r).
Proof. intros h. apply extends_refl. Qed.

Lemma allocates_new (d : DataFrame) : allocates_only (new d).
Proof. intros h. apply extends_app. Qed.

Lemma allocates_bind {A B : Type} (m : M A) (k : A -> M B) :
  allocates_only m -> (forall a, allocates_only (k a)) -> allocates_only (bind m k).
Proof.
  intros Hm Hk h. unfold bind. specialize (Hm h).
  destruct (m h) as [[a|e] h1]; simpl in *; [|exact Hm].
  exact (extends_trans _ _ _ Hm (Hk a h1)).
Qed.

Lemma allocates_for_each {A B : Type} (l : list A) (body : A -> M B) :
  (forall a, allocates_only (body a)) -> allocates_only (for_each l body).
Proof.
  intros Hbody. induction l as [|a l IH]; simpl; [apply allocates_ret|].
  apply allocates_bind; [apply Hbody|]. intros b.
  apply allocates_bind; [exact IH|]. intros bs. apply allocates_ret.
Qed.

Lemma allocates_getitem (df : ref) (col : string) :
  allocates_only (frame.getitem df col).
Proof.
  apply allocates_bind; [apply allocates_load|]. intros d.
  destruct (lookup col (columns d)); [apply allocates_ret | apply allocates_raise].
Qed.

Lemma allocates_compare_scalar (op : float -> float -> bool) (s : Series) (c : float) :
  allocates_only (series.compare_scalar op s c).
Proof. destruct s; simpl; first [apply allocates_ret | apply allocates_raise]. Qed.

Lemma allocates_abs (s : Series) : allocates_only (series.abs s).
Proof. destruct s; simpl; first [apply allocates_ret | apply allocates_raise]. Qed.

Lemma allocates_getitem_bool (df : ref) (mask : list bool) :
  allocates_only (frame.getitem_bool df mask).
Proof.
  apply allocates_bind; [apply allocates_load|]. intros d. apply allocates_new.
Qed.

Lemma allocates_copy (df : ref) : allocates_only (frame.copy df).
Proof.
  apply allocates_bind; [apply allocates_load|]. intros d. apply allocates_new.
Qed.

Lemma allocates_empty (df : ref) : allocates_only (frame.empty df).
Proof.
  apply allocates_bind; [apply allocates_load|]. intros d. apply allocates_ret.
Qed.

Lemma allocates_len (df : ref) : allocates_only (frame.len df).
Proof.
  apply allocates_bind; [apply allocates_load|]. intros d. apply allocates_ret.
Qed.

Create HintDb alloc.
#[local] Hint Resolve allocates_ret allocates_raise allocates_getitem allocates_abs
  allocates_getitem_bool allocates_copy allocates_empty allocates_len : alloc.

Lemma allocates_analyze_volatility (df : ref) (col : string) :
  allocates_only (analyze_volatility df col).
Proof.
  unfold analyze_volatility, series.ge, series.lt, series.le, series.gt.
  repeat first
    [ apply allocates_bind; [solve [auto with alloc | apply allocates_compare_scalar]|]; intros ?
    | apply allocates_for_each; intros [[? ?] ?]
    | match goal with |- allocates_only (if ?c then _ else _) => destruct c end
    | solve [auto with alloc] ].
Qed.

Lemma analyze_volatility_dangling (h : store) (df : ref) (col : string) :
  length h <= df -> analyze_volatility df col h = (Raise (KeyError col), h).
Proof.
  intros Hle. unfold analyze_volatility, frame.getitem, bind, load.
  rewrite nth_overflow by exact Hle. reflexivity.
Qed.

(** ** The frame that [process_data] builds *)

Lemma built_frame_window (cs : list Candle) (resolution : string)
      (minutes : nat) (col : string) :
  In (minutes, col) window_columns ->
  lookup col (columns (built_frame cs resolution)) =
  Some (Float64 (pct_change_values (window_bars minutes resolution)
                                   (map close (sorted_bars cs)))).
Proof.
  intros [E|[E|[E|[]]]]; injection E as <- <-; reflexivity.
Qed.

Lemma built_frame_close (cs : list Candle) (resolution : string) :
  lookup "close" (columns (built_frame cs resolution)) =
  Some (Float64 (map close (sorted_bars cs))).
Proof. reflexivity. Qed.

Lemma built_frame_wf (cs : list Candle) (resolution : string) :
  wf (built_frame cs resolution).
Proof.
  unfold wf, built_frame. cbn [columns index].
  repeat constructor; cbn [snd size];
    rewrite ?pct_change_values_length, !length_map; reflexivity.
Qed.

Lemma closes_nth (bars : list Candle) (i : nat) :
  nth i (map close bars) F64.nan = close (nth i bars default_bar).
Proof. exact (map_nth close bars default_bar i). Qed.

Lemma window_bars_positive (minutes : nat) (col resolution : string) :
  In (minutes, col) window_columns -> 0 < window_bars minutes resolution.
Proof.
  unfold window_bars, factor_of.
  intros [E|[E|[E|[]]]]; injection E as <- <-;
    destruct (String.eqb resolution "1m"), (String.eqb resolution "1s"); lia.
Qed.

(** ** Division by a zero close *)

Lemma pct_zero_reference (x y : float) :
  F64.is_zero y = true -> F64.is_zero x = false -> F64.is_nan x = false ->
  F64.is_inf (pct x y) = true /\ is_event (pct x y) = true.
Proof.
  destruct y as [sy| | |]; try discriminate. intros _.
  destruct x as [sx|sx| |sx mx ex]; try discriminate; intros _ _;
    destruct sx, sy; vm_compute; split; reflexivity.
Qed.

Lemma pct_zero_zero (x y : float) :
  F64.is_zero y = true -> F64.is_zero x = true -> pct x y = F64.nan.
Proof.
  destruct y as [sy| | |]; try discriminate. intros _.
  destruct x as [sx| | |]; try discriminate. intros _. reflexivity.
Qed.


(** What the table adds up to on any float column: one row per bucket in
    the declared order, and as many counted rows as there are events that
    are not infinite. *)
Lemma analyze_volatility_counts (h : store) (df : ref) (col : string) (xs : list float) :
  wf (nth df h empty_frame) ->
  lookup col (columns (nth df h empty_frame)) = Some (Float64 xs) ->
  filter is_event xs <> [] ->
  exists (rows : list BucketRow) (h' : store),
    analyze_volatility df col h = (Ok rows, h')
    /\ map Bucket rows = map snd buckets
    /\ total_pumps rows + total_dumps rows
       = length (filter not_infinite (filter is_event xs)).
Proof.
  intros Hwf Hcol Hne.
  destruct (analyze_volatility_run h df col xs Hwf Hcol) as (h' & Hrun & _).
  exists (bucket_table (filter is_event xs)), h'.
  split; [exact Hrun|]. split.
  - destruct (filter is_event xs) as [|x ev]; [contradiction|].
    unfold bucket_table. rewrite map_map. reflexivity.
  - apply bucket_table_counts, Forall_forall.
    intros x Hx. apply filter_In in Hx. apply Hx.
Qed.

(** Rounding matters at the threshold: from a close of 1000 to a close of
    1005 the column holds [1005 / 1000 - 1], which is below the float 0.005
    and is not an event, although [(1005 - 1000) / 1000] is that float. *)
Remark ratio_minus_one_rounds_below_threshold :
  is_event (pct (F64.of_int 1005) (F64.of_int 1000)) = false
  /\ F64.div (F64.sub (F64.of_int 1005) (F64.of_int 1000)) (F64.of_int 1000) = threshold.
Proof. vm_compute. split; reflexivity. Qed.

(** ** The properties of the specification *)

(** C1 (the code departs from the claim on an infinite return).  The bars
    with closes 0, 1, 1, 1, 1, 100 at one-minute resolution give a 5-minute
    return of [100 / 0 - 1 = +inf] at position 5.  That row passes the event
    filter, so the table has its 8 rows, yet no bucket counts it: the last
    bucket tests [< inf].  One event, and counts that add up to zero. *)
Theorem infinite_event_is_not_counted :
  exists (r : ref) (h' : store) (xs : list float) (rows : list BucketRow),
    process_data (supplier_on "2025-12-11" zero_start_bars) configured_dates
                 "BTCUSDT" "1m" [] = (Ok (Some r), h')
    /\ lookup "ret_5m" (columns (nth r h' empty_frame)) = Some (Float64 xs)
    /\ nth 5 xs F64.nan = F64.inf
    /\ length (filter is_event xs) = 1
    /\ fst (analyze_volatility r "ret_5m" h') = Ok rows
    /\ map Bucket rows = map snd buckets
    /\ length rows = 8
    /\ total_pumps rows + total_dumps rows = 0.
Proof.
  eexists. eexists. eexists. eexists.
  split; [vm_compute; reflexivity|].
  split; [vm_compute; reflexivity|].
  split; [vm_compute; reflexivity|].
  split; [vm_compute; reflexivity|].
  split; [vm_compute; reflexivity|].
  vm_compute. repeat split.
Qed.

(** C2, as stated, fails: with a zero close at the reference point and a
    close of 100 now, the 5-minute return is [+inf], not NaN, and the event
    filter selects it. *)
Lemma zero_reference_gives_infinite_event :
  exists (r : ref) (h' : store),
    process_data (supplier_on "2025-12-11" zero_start_bars) configured_dates
                 "BTCUSDT" "1m" [] = (Ok (Some r), h')
    /\ F64.is_zero (close (nth 0 (sorted_bars zero_start_bars) default_bar)) = true
    /\ float_at (lookup "ret_5m" (columns (nth r h' empty_frame))) 5 = F64.inf
    /\ F64.is_nan (float_at (lookup "ret_5m" (columns (nth r h' empty_frame))) 5) = false
    /\ is_event (float_at (lookup "ret_5m" (columns (nth r h' empty_frame))) 5) = true.
Proof.
  eexists. eexists.
  split; [vm_compute; reflexivity|].
  vm_compute. repeat split.
Qed.

(** C2 (amended).  For bars whose timestamps can be converted: when the
    close at the reference point, [window_bars] rows earlier in the frame, is
    zero, the return is NaN if the current close is zero as well, and an
    infinity if the current close is a non-zero number; the event filter
    selects the infinity.  Nothing is raised, and every position of the
    column is computed as usual from the close column of the frame. *)
Theorem zero_reference_return
        (supply : string -> string -> string -> list Candle) (dates : list string)
        (symbol resolution : string) (h : store)
        (minutes : nat) (col : string) :
  let cs := flat_map (fun date => supply symbol date resolution) dates in
  let w := window_bars minutes resolution in
  cs <> [] ->
  timestamps_in_range cs = true ->
  In (minutes, col) window_columns ->
  exists (r : ref) (h' : store) (closes rets : list float),
    process_data (answering supply) dates symbol resolution h = (Ok (Some r), h')
    /\ lookup "close" (columns (nth r h' empty_frame)) = Some (Float64 closes)
    /\ lookup col (columns (nth r h' empty_frame)) = Some (Float64 rets)
    /\ Permutation closes (map close cs)
    /\ length rets = length cs
    /\ (forall i, w <= i -> i < length cs ->
        F64.is_zero (nth (i - w) closes F64.nan) = true ->
        (F64.is_zero (nth i closes F64.nan) = false ->
         F64.is_nan (nth i closes F64.nan) = false ->
         F64.is_inf (nth i rets F64.nan) = true /\ is_event (nth i rets F64.nan) = true)
        /\ (F64.is_zero (nth i closes F64.nan) = true ->
            F64.is_nan (nth i rets F64.nan) = true
            /\ is_event (nth i rets F64.nan) = false))
    /\ (forall j, j < length cs ->
        nth j rets F64.nan =
        if j <? w then F64.nan
        else pct (nth j closes F64.nan) (nth (j - w) closes F64.nan)).
Proof.
  intros cs w Hne Hrange Hin.
  set (closes := map close (sorted_bars cs)).
  exists (length h), (h ++ [built_frame cs resolution]), closes,
         (pct_change_values w closes).
  assert (Hlen : length closes = length cs)
    by (unfold closes; rewrite length_map; apply sorted_bars_length).
  assert (Hnth : forall j, j < length cs ->
            nth j (pct_change_values w closes) F64.nan =
            if j <? w then F64.nan
            else pct (nth j closes F64.nan) (nth (j - w) closes F64.nan)).
  { intros j Hj. apply pct_change_values_nth. rewrite Hlen. exact Hj. }
  split; [exact (process_data_run supply dates symbol resolution h Hne Hrange)|].
  rewrite nth_new.
  split; [apply built_frame_close|].
  split; [exact (built_frame_window cs resolution minutes col Hin)|].
  split; [unfold closes; apply Permutation_map, sorted_bars_Permutation|].
  split; [rewrite pct_change_values_length; exact Hlen|].
  split; [|exact Hnth].
  intros i Hwi Hi Hzero. rewrite (Hnth i Hi).
  destruct (Nat.ltb_spec i w) as [Hlt|_]; [lia|].
  split.
  - intros Hz Hn. exact (pct_zero_reference _ _ Hzero Hz Hn).
  - intros Hz. rewrite (pct_zero_zero _ _ Hzero Hz). split; reflexivity.
Qed.

Lemma zero_reference_return_witness :
  exists (r : ref) (h' : store) (rets : list float),
    process_data (supplier_on "2025-12-11" zero_start_bars) configured_dates
                 "BTCUSDT" "1m" [] = (Ok (Some r), h')
    /\ lookup "ret_5m" (columns (nth r h' empty_frame)) = Some (Float64 rets)
    /\ F64.is_inf (nth 5 rets F64.nan) = true
    /\ is_event (nth 5 rets F64.nan) = true.
Proof.
  destruct (zero_reference_return
              (fun _ date _ => if String.eqb date "2025-12-11" then zero_start_bars else [])
              configured_dates "BTCUSDT" "1m" [] 5 "ret_5m")
    as (r & h' & closes & rets & Hrun & Hclose & Hcol & _ & _ & Hzero & _).
  - vm_compute. discriminate.
  - vm_compute. reflexivity.
  - left. reflexivity.
  - exists r, h', rets. split; [exact Hrun|]. split; [exact Hcol|].
    injection Hrun as <- <-.
    vm_compute in Hclose. injection Hclose as <-.
    apply (Hzero 5).
    + vm_compute. apply le_n.
    + vm_compute. apply le_n.
    + vm_compute. reflexivity.
    + vm_compute. reflexivity.
    + vm_compute. reflexivity.
Defined.

(** C3, as stated, fails: two records with the same timestamp are both kept.
    The supplier hands back bars at times 60, 0, 0 with closes 3, 1, 2; the
    frame has three rows at times 0, 0, 60, so the index repeats a timestamp,
    and the closes 1 and 2 of the two records at time 0 are both present. *)
Lemma repeated_timestamps_are_kept :
  exists (r : ref) (h' : store) (closes : list float),
    process_data (supplier_on "2025-12-12" repeated_time_bars) configured_dates
                 "BTCUSDT" "1m" [] = (Ok (Some r), h')
    /\ index (nth r h' empty_frame) = Datetime64 [0; 0; 60]%Z
    /\ lookup "close" (columns (nth r h' empty_frame)) = Some (Float64 closes)
    /\ length closes = 3
    /\ In (F64.of_int 1) closes
    /\ In (F64.of_int 2) closes
    /\ ~ NoDup [0; 0; 60]%Z.
Proof.
  eexists. eexists. eexists.
  split; [vm_compute; reflexivity|].
  split; [vm_compute; reflexivity|].
  split; [vm_compute; reflexivity|].
  split; [reflexivity|].
  split; [left; vm_compute; reflexivity|].
  split; [right; left; vm_compute; reflexivity|].
  intros H. inversion H as [|x l Hin _]. apply Hin. left. reflexivity.
Qed.

(** C3 (amended).  For a non-empty collection of raw records whose
    timestamps can be converted, the frame is sorted by ascending timestamp
    (equal timestamps allowed) and holds exactly the input records, each one
    once: nothing is dropped or merged.  The result is a function of the
    input sequence. *)
Theorem built_series_sorted_permutation
        (supply : string -> string -> string -> list Candle) (dates : list string)
        (symbol resolution : string) (h : store) :
  let cs := flat_map (fun date => supply symbol date resolution) dates in
  cs <> [] ->
  timestamps_in_range cs = true ->
  exists (r : ref) (h' : store) (bars : list Candle),
    process_data (answering supply) dates symbol resolution h = (Ok (Some r), h')
    /\ index (nth r h' empty_frame) = Datetime64 (map time bars)
    /\ lookup "time" (columns (nth r h' empty_frame)) = Some (Int64 (map time bars))
    /\ lookup "open" (columns (nth r h' empty_frame)) = Some (Float64 (map open bars))
    /\ lookup "high" (columns (nth r h' empty_frame)) = Some (Float64 (map high bars))
    /\ lookup "low" (columns (nth r h' empty_frame)) = Some (Float64 (map low bars))
    /\ lookup "close" (columns (nth r h' empty_frame)) = Some (Float64 (map close bars))
    /\ Sorted Z.le (map time bars)
    /\ Permutation bars cs.
Proof.
  intros cs Hne Hrange.
  exists (length h), (h ++ [built_frame cs resolution]), (sorted_bars cs).
  split; [exact (process_data_run supply dates symbol resolution h Hne Hrange)|].
  rewrite nth_new.
  repeat (split; [reflexivity|]).
  split; [apply sorted_bars_Sorted | apply sorted_bars_Permutation].
Qed.

Lemma built_series_sorted_permutation_witness :
  exists (r : ref) (h' : store) (bars : list Candle),
    process_data (supplier_on "2025-12-12" repeated_time_bars) configured_dates
                 "BTCUSDT" "1m" [] = (Ok (Some r), h')
    /\ index (nth r h' empty_frame) = Datetime64 (map time bars)
    /\ Sorted Z.le (map time bars)
    /\ Permutation bars repeated_time_bars.
Proof.
  destruct (built_series_sorted_permutation
              (fun _ date _ => if String.eqb date "2025-12-12" then repeated_time_bars else [])
              configured_dates "BTCUSDT" "1m" [])
    as (r & h' & bars & Hrun & Hidx & _ & _ & _ & _ & _ & Hsorted & Hperm).
  - vm_compute. discriminate.
  - vm_compute. reflexivity.
  - exists r, h', bars. repeat split; assumption.
Defined.

(** C4, as stated, fails: no bucket and no negative event exist on which the
    dump test and the pump test of the absolute value disagree. *)
Lemma no_mirror_gap :
  (exists (b : float * float * string) (r : float),
      In b buckets /\ F64.lt r F64.zero = true /\ is_event r = true
      /\ is_dump b r <> is_pump b (F64.abs r))
  <-> False.
Proof.
  split; [|intros []].
  intros (b & r & _ & Hneg & _ & Hdiff). apply Hdiff.
  rewrite is_dump_mirror, (neg_of_negative r); [reflexivity|].
  destruct r as [[]|[]| |[] mr er]; try discriminate Hneg; reflexivity.
Qed.

(** C4 (amended).  For every bucket and every negative return, the dump test
    holds exactly when the pump test holds of the absolute value: dumps are
    bucketed by magnitude, lower bound included and upper bound excluded,
    just as pumps are. *)
Theorem dump_test_mirrors_pump_test (b : float * float * string) (r : float) :
  F64.lt r F64.zero = true ->
  is_dump b r = is_pump b (F64.abs r).
Proof.
  intros Hneg. rewrite is_dump_mirror, (neg_of_negative r); [reflexivity|].
  destruct r as [[]|[]| |[] mr er]; try discriminate Hneg; reflexivity.
Qed.

Lemma dump_test_mirrors_pump_test_witness :
  is_dump (F64.lit 6 3, F64.lit 7 3, "0.6% - 0.7%") (F64.neg (F64.lit 6 3))
  = is_pump (F64.lit 6 3, F64.lit 7 3, "0.6% - 0.7%") (F64.abs (F64.neg (F64.lit 6 3))).
Proof.
  apply (dump_test_mirrors_pump_test
           (F64.lit 6 3, F64.lit 7 3, "0.6% - 0.7%") (F64.neg (F64.lit 6 3))).
  vm_compute. reflexivity.
Defined.

(** C5.  A return of absolute value exactly 0.005 is an event.  The value
    0.006 passes the pump test of the bucket labelled "0.6% - 0.7%" (the
    second of the table) and fails that of "0.5% - 0.6%" (the first); run on
    a column holding 0.006, 0.005 and -0.005, [analyze_volatility] counts
    one pump and one dump in the first row and one pump in the second. *)
Theorem threshold_and_bucket_bounds (x : float) :
  F64.abs x = F64.lit 5 3 ->
  is_event x = true
  /\ nth_error buckets 0 = Some (F64.lit 5 3, F64.lit 6 3, "0.5% - 0.6%")
  /\ nth_error buckets 1 = Some (F64.lit 6 3, F64.lit 7 3, "0.6% - 0.7%")
  /\ is_pump (F64.lit 6 3, F64.lit 7 3, "0.6% - 0.7%") (F64.lit 6 3) = true
  /\ is_pump (F64.lit 5 3, F64.lit 6 3, "0.5% - 0.6%") (F64.lit 6 3) = false
  /\ fst (analyze_volatility 0 "ret_5m"
            [returns_frame "ret_5m" [F64.lit 6 3; F64.lit 5 3; F64.neg (F64.lit 5 3)]])
     = Ok [ mkBucketRow "0.5% - 0.6%" 1 1; mkBucketRow "0.6% - 0.7%" 1 0;
            mkBucketRow "0.7% - 0.8%" 0 0; mkBucketRow "0.8% - 0.9%" 0 0;
            mkBucketRow "0.9% - 1.0%" 0 0; mkBucketRow "1.0% - 1.5%" 0 0;
            mkBucketRow "1.5% - 2.0%" 0 0; mkBucketRow "> 2.0%" 0 0 ].
Proof.
  intros Habs. split.
  - unfold is_event. rewrite Habs. vm_compute. reflexivity.
  - vm_compute. repeat split.
Qed.

Lemma threshold_and_bucket_bounds_witness :
  is_event (F64.neg (F64.lit 5 3)) = true.
Proof.
  apply (threshold_and_bucket_bounds (F64.neg (F64.lit 5 3))).
  vm_compute. reflexivity.
Defined.

(** C6.  For bars whose timestamps can be converted, the N-minute return
    column holds, at every position [i], the change against the close
    [N * factor] positions earlier (and NaN before that), where the factor
    is 60 for resolution "1s" and 1 for "1m" and for any other string.  Five
    minutes are 300 bars at "1s" and 5 bars at "1m". *)
Theorem window_is_minutes_times_factor
        (supply : string -> string -> string -> list Candle) (dates : list string)
        (symbol resolution : string) (h : store) (minutes : nat) (col : string) :
  let cs := flat_map (fun date => supply symbol date resolution) dates in
  let w := minutes * (if String.eqb resolution "1s" then 60 else 1) in
  cs <> [] ->
  timestamps_in_range cs = true ->
  In (minutes, col) window_columns ->
  exists (r : ref) (h' : store) (closes rets : list float),
    process_data (answering supply) dates symbol resolution h = (Ok (Some r), h')
    /\ lookup "close" (columns (nth r h' empty_frame)) = Some (Float64 closes)
    /\ lookup col (columns (nth r h' empty_frame)) = Some (Float64 rets)
    /\ length closes = length cs
    /\ length rets = length cs
    /\ (forall i, i < length cs ->
        nth i rets F64.nan =
        if i <? w then F64.nan
        else F64.sub (F64.div (nth i closes F64.nan) (nth (i - w) closes F64.nan))
                     (F64.of_int 1))
    /\ window_bars minutes resolution = w
    /\ window_bars 5 "1s" = 300
    /\ window_bars 5 "1m" = 5.
Proof.
  intros cs w Hne Hrange Hin.
  assert (Hw : window_bars minutes resolution = w).
  { unfold window_bars, factor_of, w.
    destruct (String.eqb_spec resolution "1m") as [->|_]; [reflexivity|].
    destruct (String.eqb resolution "1s"); reflexivity. }
  assert (Hlen : length (map close (sorted_bars cs)) = length cs)
    by (rewrite length_map; apply sorted_bars_length).
  exists (length h), (h ++ [built_frame cs resolution]),
         (map close (sorted_bars cs)),
         (pct_change_values w (map close (sorted_bars cs))).
  split; [exact (process_data_run supply dates symbol resolution h Hne Hrange)|].
  rewrite nth_new.
  split; [apply built_frame_close|].
  split; [rewrite <- Hw; exact (built_frame_window cs resolution minutes col Hin)|].
  split; [exact Hlen|].
  split; [rewrite pct_change_values_length; exact Hlen|].
  split; [|split; [exact Hw | split; reflexivity]].
  intros i Hi. apply pct_change_values_nth. rewrite Hlen. exact Hi.
Qed.

Lemma window_is_minutes_times_factor_witness :
  exists (r : ref) (h' : store) (closes rets : list float),
    process_data (supplier_on "2025-12-11" climbing_bars) configured_dates
                 "BTCUSDT" "1m" [] = (Ok (Some r), h')
    /\ lookup "close" (columns (nth r h' empty_frame)) = Some (Float64 closes)
    /\ lookup "ret_5m" (columns (nth r h' empty_frame)) = Some (Float64 rets)
    /\ nth 5 rets F64.nan
       = F64.sub (F64.div (nth 5 closes F64.nan) (nth 0 closes F64.nan)) (F64.of_int 1).
Proof.
  destruct (window_is_minutes_times_factor
              (fun _ date _ => if String.eqb date "2025-12-11" then climbing_bars else [])
              configured_dates "BTCUSDT" "1m" [] 5 "ret_5m")
    as (r & h' & closes & rets & Hrun & Hclose & Hret & _ & _ & Hall & _).
  - vm_compute. discriminate.
  - vm_compute. reflexivity.
  - left. reflexivity.
  - exists r, h', closes, rets. repeat (split; [assumption|]).
    apply (Hall 5). vm_compute. apply le_n.
Defined.

(** C7, as stated, fails: the return at position 5 is not the float 0.05. *)
Lemma climbing_return_is_not_exactly_0_05 :
  exists (r : ref) (h' : store),
    process_data (supplier_on "2025-12-11" climbing_bars) configured_dates
                 "BTCUSDT" "1m" [] = (Ok (Some r), h')
    /\ F64.div (F64.sub (F64.of_int 105) (F64.of_int 100)) (F64.of_int 100) = F64.lit 5 2
    /\ float_at (lookup "ret_5m" (columns (nth r h' empty_frame))) 5 <> F64.lit 5 2.
Proof.
  eexists. eexists.
  split; [vm_compute; reflexivity|].
  split; [vm_compute; reflexivity|].
  vm_compute. discriminate.
Qed.

(** C7 (amended).  For closes 100, 101, 102, 103, 104, 105 at one-minute
    resolution and the 5-minute window, positions 0 to 4 hold NaN and
    position 5 holds the binary64 value of [105 / 100 - 1], that is
    0.050000000000000044: above the float 0.05 and below 0.0500000000000001. *)
Theorem climbing_return_at_5 :
  exists (r : ref) (h' : store) (rets : list float),
    process_data (supplier_on "2025-12-11" climbing_bars) configured_dates
                 "BTCUSDT" "1m" [] = (Ok (Some r), h')
    /\ lookup "ret_5m" (columns (nth r h' empty_frame)) = Some (Float64 rets)
    /\ firstn 5 rets = repeat F64.nan 5
    /\ length rets = 6
    /\ nth 5 rets F64.nan
       = F64.sub (F64.div (F64.of_int 105) (F64.of_int 100)) (F64.of_int 1)
    /\ F64.lt (F64.lit 5 2) (nth 5 rets F64.nan) = true
    /\ F64.lt (nth 5 rets F64.nan) (F64.lit 500000000000001 16) = true.
Proof.
  eexists. eexists. eexists.
  split; [vm_compute; reflexivity|].
  split; [vm_compute; reflexivity|].
  vm_compute. repeat split.
Qed.



(** C9.  A value passes the pump test of at most one bucket and the dump test
    of at most one bucket, and never a pump test together with a dump test;
    so the counts of the table never exceed the number of events. *)
Theorem no_event_counted_twice
        (x : float) (b1 b2 : float * float * string)
        (h : store) (df : ref) (col : string) (xs : list float) :
  In b1 buckets -> In b2 buckets ->
  wf (nth df h empty_frame) ->
  lookup col (columns (nth df h empty_frame)) = Some (Float64 xs) ->
  (is_pump b1 x = true -> is_pump b2 x = true -> b1 = b2)
  /\ (is_dump b1 x = true -> is_dump b2 x = true -> b1 = b2)
  /\ (is_pump b1 x = true -> is_dump b2 x = true -> False)
  /\ exists (rows : list BucketRow) (h' : store),
       analyze_volatility df col h = (Ok rows, h')
       /\ total_pumps rows + total_dumps rows <= length (filter is_event xs).
Proof.
  intros H1 H2 Hwf Hcol.
  pose proof (hits_at_most_one x) as Hone.
  split; [|split; [|split]].
  - apply (pump_hits_unique buckets); [lia | exact H1 | exact H2].
  - rewrite !is_dump_mirror. rewrite dump_hits_mirror in Hone.
    apply (pump_hits_unique buckets); [lia | exact H1 | exact H2].
  - intros Hp Hd. rewrite is_dump_mirror in Hd. rewrite dump_hits_mirror in Hone.
    pose proof (pump_hits_In buckets b1 x H1 Hp).
    pose proof (pump_hits_In buckets b2 (F64.neg x) H2 Hd). lia.
  - destruct (analyze_volatility_run h df col xs Hwf Hcol) as (h' & Hrun & _).
    exists (bucket_table (filter is_event xs)), h'.
    split; [exact Hrun | apply bucket_table_bound].
Qed.

Lemma no_event_counted_twice_witness :
  exists (rows : list BucketRow) (h' : store),
    analyze_volatility 0 "ret_5m"
      [returns_frame "ret_5m" [F64.lit 6 3; F64.lit 5 3; F64.neg (F64.lit 5 3)]]
    = (Ok rows, h')
    /\ total_pumps rows + total_dumps rows
       <= length (filter is_event [F64.lit 6 3; F64.lit 5 3; F64.neg (F64.lit 5 3)]).
Proof.
  apply (no_event_counted_twice (F64.lit 6 3)
           (F64.lit 5 3, F64.lit 6 3, "0.5% - 0.6%")
           (F64.lit 6 3, F64.lit 7 3, "0.6% - 0.7%")
           [returns_frame "ret_5m" [F64.lit 6 3; F64.lit 5 3; F64.neg (F64.lit 5 3)]]
           0 "ret_5m" [F64.lit 6 3; F64.lit 5 3; F64.neg (F64.lit 5 3)]).
  - left. reflexivity.
  - right. left. reflexivity.
  - repeat constructor.
  - reflexivity.
Defined.

(** C10.  [analyze_volatility] never writes to a frame that exists: whatever
    the store, the reference and the column name, and whether it returns or
    raises, the store afterwards is the store before followed by newly
    allocated frames, and the argument frame is what it was. *)
Theorem analyze_volatility_leaves_input_unchanged
        (h : store) (df : ref) (col : string) :
  (exists extra, snd (analyze_volatility df col h) = h ++ extra)
  /\ nth_error (snd (analyze_volatility df col h)) df = nth_error h df.
Proof.
  pose proof (allocates_analyze_volatility df col h) as [extra Hext].
  split; [exists extra; exact Hext|].
  destruct (Nat.lt_ge_cases df (length h)) as [Hlt|Hge].
  - rewrite Hext. apply nth_error_app1. exact Hlt.
  - rewrite (analyze_volatility_dangling h df col Hge). reflexivity.
Qed.

(** ** More on [process_data] and [analyze_volatility] *)

Lemma analyzable_extends (h h' : store) (df : option ref) :
  extends h h' -> analyzable h df -> analyzable h' df.
Proof.
  intros [extra ->] Ha. destruct df as [r|]; [|exact I].
  destruct Ha as (Hlt & Hwf & Hcols). unfold analyzable.
  rewrite nth_extends by exact Hlt. rewrite length_app.
  split; [lia|]. split; assumption.
Qed.

Lemma analyzable_built (h : store) (cs : list Candle) (resolution : string) :
  analyzable (h ++ [built_frame cs resolution]) (Some (length h)).
Proof.
  unfold analyzable. rewrite nth_new, length_app. simpl.
  split; [lia|]. split; [apply built_frame_wf|].
  intros w [<-|[<-|[<-|[]]]]; eexists; reflexivity.
Qed.

(** What [process_data] comes to once the loop over the dates has returned
    the candles [cs]. *)
Lemma process_data_after_loop
      (fetch : string -> string -> string -> outcome (option (list Candle)))
      (dates : list string) (symbol resolution : string) (h : store) :
  process_data fetch dates symbol resolution h =
  match for_fold dates [] (fun all_candles date =>
          candles <- lift (fetch symbol date resolution) ;;
          extend all_candles candles) h with
  | (Raise e, _) => (Raise e, h)
  | (Ok [], _) => (Ok None, h)
  | (Ok (c :: cs), _) =>
      if timestamps_in_range (c :: cs)
      then (Ok (Some (length h)), h ++ [built_frame (c :: cs) resolution])
      else (Raise OutOfBoundsDatetime, h ++ [DataFrame_of_records (c :: cs)])
  end.
Proof.
  pose proof (fetch_loop_store fetch symbol resolution dates [] h) as Hstore.
  destruct (for_fold dates [] _ h) as [[cs|e] h1] eqn:Eloop; cbn [snd] in Hstore; subst h1.
  - assert (Hsame : process_data fetch dates symbol resolution h
                    = process_data (answering (fun _ _ _ => cs)) [""] symbol resolution h).
    { unfold process_data. unfold bind at 1. rewrite Eloop.
      symmetry. unfold bind at 1.
      rewrite (fetch_loop_run (answering (fun _ _ _ => cs)) (fun _ => cs)) by reflexivity.
      cbn [flat_map app]. rewrite app_nil_r. reflexivity. }
    rewrite Hsame.
    pose proof (process_data_run (fun _ _ _ => cs) [""] symbol resolution h) as Hrun.
    pose proof (process_data_out_of_range (fun _ _ _ => cs) [""] symbol resolution h)
      as Hout.
    cbn [flat_map] in Hrun, Hout. rewrite app_nil_r in Hrun, Hout.
    destruct cs as [|c cs0] eqn:Ecs.
    + apply process_data_empty. reflexivity.
    + rewrite <- Ecs in *.
      assert (Hne : cs <> []) by (rewrite Ecs; discriminate).
      destruct (timestamps_in_range cs) eqn:Hrange.
      * exact (Hrun Hne eq_refl).
      * exact (Hout Hne eq_refl).
  - unfold process_data. unfold bind at 1. rewrite Eloop. reflexivity.
Qed.

(** X1.  Whatever the supplier answers or raises, [process_data] leaves every
    frame that existed as it was, although it builds its own frame by
    updates in place.  When it returns [None] the store is unchanged; when
    it returns a frame, that frame is the one new object, it is well formed
    and has the three return columns as float columns; when it raises, the
    store is unchanged or holds one more frame. *)
Theorem process_data_allocates_at_most_one_frame
        (fetch : string -> string -> string -> outcome (option (list Candle)))
        (dates : list string) (symbol resolution : string) (h : store) :
  let out := process_data fetch dates symbol resolution h in
  match fst out with
  | Ok None => snd out = h
  | Ok (Some r) =>
      r = length h
      /\ (exists d, snd out = h ++ [d])
      /\ analyzable (snd out) (Some r)
  | Raise _ => snd out = h \/ exists d, snd out = h ++ [d]
  end.
Proof.
  intros out. unfold out. rewrite process_data_after_loop.
  destruct (for_fold dates [] _ h) as [[[|c cs]|e] h1]; cbn [fst snd].
  - reflexivity.
  - destruct (timestamps_in_range (c :: cs)); cbn [fst snd].
    + split; [reflexivity|]. split; [eexists; reflexivity | apply analyzable_built].
    + right. eexists. reflexivity.
  - left. reflexivity.
Qed.

Lemma insert_by_head {A : Type} (le : A -> A -> bool) (x : A) (l : list A) :
  HdRel (fun a b => le a b = true) x l -> insert_by le x l = x :: l.
Proof.
  intros H. destruct H as [|y l Hxy]; simpl; [reflexivity|]. rewrite Hxy. reflexivity.
Qed.

Lemma sort_by_sorted_id {A : Type} (le : A -> A -> bool) (l : list A) :
  Sorted (fun a b => le a b = true) l -> sort_by le l = l.
Proof.
  induction 1 as [|x l Hs IH Hhd]; [reflexivity|].
  change (sort_by le (x :: l)) with (insert_by le x (sort_by le l)).
  rewrite IH. apply insert_by_head, Hhd.
Qed.

Lemma Sorted_combine_seq (keys : list Z) (s : nat) :
  Sorted Z.le keys ->
  Sorted (fun a b : Z * nat => Z.leb (fst a) (fst b) = true)
         (combine keys (seq s (length keys))).
Proof.
  intros H. revert s. induction H as [|k keys Hs IH Hhd]; intros s; simpl;
    constructor; [apply IH|].
  destruct Hhd as [|k' keys' Hk]; simpl; constructor. apply Z.leb_le, Hk.
Qed.

Lemma sorted_bars_of_sorted (cs : list Candle) :
  Sorted Z.le (map time cs) -> sorted_bars cs = cs.
Proof.
  intros H. unfold sorted_bars, argsort_by.
  rewrite sort_by_sorted_id by (apply Sorted_combine_seq, H).
  rewrite map_snd_combine by (rewrite length_seq; reflexivity).
  rewrite length_map. apply take_seq.
Qed.

(** X2.  When the records arrive already in ascending time order (equal
    timestamps allowed), with timestamps that can be converted, sorting
    changes nothing: row [i] of the frame is record [i] of the input. *)
Theorem sorted_input_keeps_its_order
        (supply : string -> string -> string -> list Candle) (dates : list string)
        (symbol resolution : string) (h : store) :
  let cs := flat_map (fun date => supply symbol date resolution) dates in
  cs <> [] ->
  timestamps_in_range cs = true ->
  Sorted Z.le (map time cs) ->
  exists (r : ref) (h' : store),
    process_data (answering supply) dates symbol resolution h = (Ok (Some r), h')
    /\ index (nth r h' empty_frame) = Datetime64 (map time cs)
    /\ lookup "open" (columns (nth r h' empty_frame)) = Some (Float64 (map open cs))
    /\ lookup "high" (columns (nth r h' empty_frame)) = Some (Float64 (map high cs))
    /\ lookup "low" (columns (nth r h' empty_frame)) = Some (Float64 (map low cs))
    /\ lookup "close" (columns (nth r h' empty_frame)) = Some (Float64 (map close cs)).
Proof.
  intros cs Hne Hrange Hsorted.
  exists (length h), (h ++ [built_frame cs resolution]).
  split; [exact (process_data_run supply dates symbol resolution h Hne Hrange)|].
  rewrite nth_new. unfold built_frame. rewrite (sorted_bars_of_sorted cs Hsorted).
  repeat split; reflexivity.
Qed.

Lemma sorted_input_keeps_its_order_witness :
  exists (r : ref) (h' : store),
    process_data (supplier_on "2025-12-11" climbing_bars) configured_dates
                 "BTCUSDT" "1m" [] = (Ok (Some r), h')
    /\ index (nth r h' empty_frame) = Datetime64 (map time climbing_bars).
Proof.
  destruct (sorted_input_keeps_its_order
              (fun _ date _ => if String.eqb date "2025-12-11" then climbing_bars else [])
              configured_dates "BTCUSDT" "1m" [])
    as (r & h' & Hrun & Hidx & _).
  - vm_compute. discriminate.
  - vm_compute. reflexivity.
  - vm_compute. repeat constructor; discriminate.
  - exists r, h'. split; assumption.
Defined.

Lemma sorted_by_time_unique (l1 l2 : list Candle) :
  Permutation l1 l2 ->
  Sorted Z.le (map time l1) -> Sorted Z.le (map time l2) ->
  NoDup (map time l1) ->
  l1 = l2.
Proof.
  revert l2. induction l1 as [|x l1 IH]; intros l2 Hperm Hs1 Hs2 Hnd.
  - apply Permutation_nil in Hperm. symmetry. exact Hperm.
  - destruct l2 as [|y l2];
      [apply Permutation_sym, Permutation_nil in Hperm; discriminate|].
    assert (Hxy : x = y).
    { apply Sorted_StronglySorted in Hs1; [|intros a b c; apply Z.le_trans].
      apply Sorted_StronglySorted in Hs2; [|intros a b c; apply Z.le_trans].
      simpl in Hs1, Hs2.
      apply StronglySorted_inv in Hs1. destruct Hs1 as [_ Hx].
      apply StronglySorted_inv in Hs2. destruct Hs2 as [_ Hy].
      rewrite Forall_forall in Hx, Hy.
      assert (Hyin : In y (x :: l1))
        by (apply (Permutation_in _ (Permutation_sym Hperm)); left; reflexivity).
      assert (Hxin : In x (y :: l2))
        by (apply (Permutation_in _ Hperm); left; reflexivity).
      destruct Hyin as [E|Hyin]; [exact E|].
      destruct Hxin as [E|Hxin]; [symmetry; exact E|].
      exfalso. inversion Hnd as [|t ts Hnotin _]. apply Hnotin.
      assert (Heq : time x = time y).
      { apply Z.le_antisymm.
        - apply Hx, in_map, Hyin.
        - apply Hy, in_map, Hxin. }
      rewrite Heq. apply in_map, Hyin. }
    subst y. f_equal. apply IH.
    + apply Permutation_cons_inv in Hperm. exact Hperm.
    + inversion Hs1; assumption.
    + inversion Hs2; assumption.
    + inversion Hnd; assumption.
Qed.

(** X3.  When no two records share a timestamp, and every timestamp can be
    converted, the order in which the days are fetched does not matter: any
    rearrangement of the date list leads to the same result and the same
    store. *)
Theorem fetch_order_is_irrelevant
        (supply : string -> string -> string -> list Candle) (dates dates' : list string)
        (symbol resolution : string) (h : store) :
  Permutation dates dates' ->
  NoDup (map time (flat_map (fun date => supply symbol date resolution) dates)) ->
  timestamps_in_range (flat_map (fun date => supply symbol date resolution) dates) = true ->
  process_data (answering supply) dates symbol resolution h
  = process_data (answering supply) dates' symbol resolution h.
Proof.
  intros Hperm Hnd Hrange.
  set (cs := flat_map (fun date => supply symbol date resolution) dates) in *.
  set (cs' := flat_map (fun date => supply symbol date resolution) dates').
  assert (Hcs : Permutation cs cs') by (apply Permutation_flat_map, Hperm).
  destruct cs as [|c0 cs0] eqn:Ecs.
  - apply Permutation_nil in Hcs.
    rewrite (process_data_empty supply dates symbol resolution h Ecs).
    rewrite (process_data_empty supply dates' symbol resolution h Hcs). reflexivity.
  - rewrite <- Ecs in *.
    assert (Hne : cs <> []) by (rewrite Ecs; discriminate).
    assert (Hne' : cs' <> []).
    { intros E. rewrite E in Hcs. apply Permutation_sym, Permutation_nil in Hcs.
      contradiction. }
    assert (Hrange' : timestamps_in_range cs' = true).
    { unfold timestamps_in_range in *. rewrite forallb_forall in *.
      intros t Ht. apply Hrange.
      apply (Permutation_in t (Permutation_sym (Permutation_map time Hcs))). exact Ht. }
    rewrite (process_data_run supply dates symbol resolution h Hne Hrange).
    rewrite (process_data_run supply dates' symbol resolution h Hne' Hrange').
    fold cs cs'. unfold built_frame.
    assert (Hsame : sorted_bars cs = sorted_bars cs').
    { apply sorted_by_time_unique.
      - apply perm_trans with cs; [apply sorted_bars_Permutation|].
        apply perm_trans with cs'; [exact Hcs|].
        apply Permutation_sym, sorted_bars_Permutation.
      - apply sorted_bars_Sorted.
      - apply sorted_bars_Sorted.
      - apply (Permutation_NoDup (l := map time cs)); [|exact Hnd].
        apply Permutation_map, Permutation_sym, sorted_bars_Permutation. }
    rewrite Hsame. reflexivity.
Qed.

Lemma fetch_order_is_irrelevant_witness :
  map time (flat_map (candles_of two_day_book) [ "2025-12-11"; "2025-12-12"; "2025-12-13" ])
  = [0; 60; 120; 86400; 86460; 86520]%Z
  /\ map time (flat_map (candles_of two_day_book) [ "2025-12-12"; "2025-12-13"; "2025-12-11" ])
     = [86400; 86460; 86520; 0; 60; 120]%Z
  /\ process_data (answering (fun _ date _ => candles_of two_day_book date))
                  [ "2025-12-11"; "2025-12-12"; "2025-12-13" ] "BTCUSDT" "1m" []
     = process_data (answering (fun _ date _ => candles_of two_day_book date))
                    [ "2025-12-12"; "2025-12-13"; "2025-12-11" ] "BTCUSDT" "1m" [].
Proof.
  split; [reflexivity|]. split; [reflexivity|].
  apply (fetch_order_is_irrelevant (fun _ date _ => candles_of two_day_book date)
           [ "2025-12-11"; "2025-12-12"; "2025-12-13" ]
           [ "2025-12-12"; "2025-12-13"; "2025-12-11" ] "BTCUSDT" "1m" []).
  - apply (Permutation_cons_app [ "2025-12-12"; "2025-12-13" ] []).
    apply Permutation_refl.
  - vm_compute. repeat constructor; simpl; intuition discriminate.
  - vm_compute. reflexivity.
Defined.

(** X4.  Asked for a column the frame does not have, [analyze_volatility]
    raises [KeyError] with that column name and allocates nothing. *)
Theorem analyze_volatility_missing_column (h : store) (df : ref) (col : string) :
  lookup col (columns (nth df h empty_frame)) = None ->
  analyze_volatility df col h = (Raise (KeyError col), h).
Proof.
  intros Hcol. unfold analyze_volatility, frame.getitem, bind, load.
  rewrite Hcol. reflexivity.
Qed.

Lemma analyze_volatility_missing_column_witness :
  analyze_volatility 0 "ret_30m" [built_frame climbing_bars "1m"]
  = (Raise (KeyError "ret_30m"), [built_frame climbing_bars "1m"]).
Proof.
  apply (analyze_volatility_missing_column [built_frame climbing_bars "1m"] 0 "ret_30m").
  reflexivity.
Defined.

Lemma bucket_table_nil_iff (ev : list float) : bucket_table ev = [] <-> ev = [].
Proof.
  split; [|intros ->; reflexivity].
  destruct ev as [|x ev]; [reflexivity|]. unfold bucket_table, buckets. discriminate.
Qed.

Lemma filter_nil_iff {A : Type} (p : A -> bool) (l : list A) :
  filter p l = [] <-> Forall (fun x => p x = false) l.
Proof.
  induction l as [|x l IH]; simpl.
  - split; [constructor | reflexivity].
  - destruct (p x) eqn:E.
    + split; [discriminate|]. intros H. inversion H; congruence.
    + rewrite IH. split; [intros H; constructor; assumption | intros H; inversion H; assumption].
Qed.

(** X5.  On a float column of a well-formed frame [analyze_volatility]
    returns normally, and the empty list comes back exactly when no value of
    the column reaches the threshold in absolute value (NaN never does);
    otherwise the table has its eight rows. *)
Theorem empty_table_iff_no_event (h : store) (df : ref) (col : string) (xs : list float) :
  wf (nth df h empty_frame) ->
  lookup col (columns (nth df h empty_frame)) = Some (Float64 xs) ->
  exists (rows : list BucketRow) (h' : store),
    analyze_volatility df col h = (Ok rows, h')
    /\ (rows = [] <-> Forall (fun x => is_event x = false) xs)
    /\ (rows <> [] -> length rows = 8).
Proof.
  intros Hwf Hcol.
  destruct (analyze_volatility_run h df col xs Hwf Hcol) as (h' & Hrun & _).
  exists (bucket_table (filter is_event xs)), h'.
  split; [exact Hrun|]. split.
  - rewrite bucket_table_nil_iff. apply filter_nil_iff.
  - destruct (filter is_event xs); [intros H; contradiction H; reflexivity|].
    intros _. reflexivity.
Qed.

Lemma empty_table_iff_no_event_witness :
  exists (rows : list BucketRow) (h' : store),
    analyze_volatility 0 "ret_5m"
      [returns_frame "ret_5m" [F64.nan; F64.lit 4 3; F64.neg (F64.lit 4 3)]]
    = (Ok rows, h')
    /\ rows = [].
Proof.
  destruct (empty_table_iff_no_event
              [returns_frame "ret_5m" [F64.nan; F64.lit 4 3; F64.neg (F64.lit 4 3)]]
              0 "ret_5m" [F64.nan; F64.lit 4 3; F64.neg (F64.lit 4 3)])
    as (rows & h' & Hrun & Hiff & _).
  - repeat constructor.
  - reflexivity.
  - exists rows, h'. split; [exact Hrun|]. apply Hiff.
    repeat constructor.
Defined.

(** X6.  On a float column of a well-formed frame the counts of the table
    add up to the number of events that are not infinite: every finite event
    is counted once, and an infinite return, though selected as an event, is
    counted by no row.  A table that is not empty names the eight buckets in
    their declared order. *)
Theorem counts_add_up_to_finite_events
        (h : store) (df : ref) (col : string) (xs : list float) :
  wf (nth df h empty_frame) ->
  lookup col (columns (nth df h empty_frame)) = Some (Float64 xs) ->
  exists (rows : list BucketRow) (h' : store),
    analyze_volatility df col h = (Ok rows, h')
    /\ total_pumps rows + total_dumps rows
       = length (filter not_infinite (filter is_event xs))
    /\ (rows = [] \/ map Bucket rows = map snd buckets).
Proof.
  intros Hwf Hcol.
  destruct (analyze_volatility_run h df col xs Hwf Hcol) as (h' & Hrun & _).
  exists (bucket_table (filter is_event xs)), h'.
  split; [exact Hrun|]. split.
  - apply bucket_table_counts, Forall_forall.
    intros x Hx. apply filter_In in Hx. apply Hx.
  - destruct (filter is_event xs) as [|x ev]; [left; reflexivity|].
    right. unfold bucket_table. rewrite map_map. reflexivity.
Qed.

Lemma counts_add_up_to_finite_events_witness :
  exists (rows : list BucketRow) (h' : store),
    analyze_volatility 0 "ret_5m"
      [returns_frame "ret_5m" [F64.lit 6 3; F64.inf; F64.neg (F64.lit 5 3)]]
    = (Ok rows, h')
    /\ total_pumps rows + total_dumps rows = 2.
Proof.
  destruct (counts_add_up_to_finite_events
              [returns_frame "ret_5m" [F64.lit 6 3; F64.inf; F64.neg (F64.lit 5 3)]]
              0 "ret_5m" [F64.lit 6 3; F64.inf; F64.neg (F64.lit 5 3)])
    as (rows & h' & Hrun & Hsum & _).
  - repeat constructor.
  - reflexivity.
  - exists rows, h'. split; [exact Hrun|]. rewrite Hsum. vm_compute. reflexivity.
Defined.

(** ** Direction and symmetry of the table *)

Lemma abs_of_positive (x : float) : F64.signbit x = false -> F64.is_nan x = false ->
  F64.abs x = x.
Proof. destruct x as [[]|[]| |[] mx ex]; simpl; intros H1 H2; try discriminate; reflexivity. Qed.

Lemma hits_by_sign (x : float) :
  is_event x = true -> F64.is_inf x = false ->
  pump_hits buckets x = (if F64.signbit x then 0 else 1)
  /\ dump_hits buckets x = (if F64.signbit x then 1 else 0).
Proof.
  intros Hev Hfin. pose proof (is_event_not_nan x Hev) as Hx.
  pose proof (hits_of_event x Hev) as Hsum. rewrite Hfin in Hsum.
  assert (Hp : pump_hits buckets x = if F64.signbit x then 0 else 1).
  { rewrite (pump_hits_buckets x Hx), Hfin. cbn [andb negb]. rewrite andb_true_r.
    destruct (F64.signbit x) eqn:Es.
    - destruct (F64.ge x threshold) eqn:Eg; [|reflexivity]. exfalso.
      apply (ge_neg_exclusive x threshold threshold_positive Eg).
      unfold is_event in Hev. rewrite (neg_of_negative x Es) in Hev. exact Hev.
    - unfold is_event in Hev. rewrite (abs_of_positive x Es Hx) in Hev.
      rewrite Hev. reflexivity. }
  split; [exact Hp|]. rewrite Hp in Hsum. destruct (F64.signbit x); lia.
Qed.

Lemma list_sum_filter {A : Type} (f : A -> nat) (p : A -> bool) (l : list A) :
  (forall x, In x l -> f x = if p x then 1 else 0) ->
  list_sum (map f l) = length (filter p l).
Proof.
  induction l as [|x l IH]; intros H; [reflexivity|].
  cbn [map list_sum fold_right filter]. unfold list_sum in IH.
  rewrite IH by (intros y Hy; apply H; right; exact Hy).
  rewrite (H x) by (left; reflexivity). destruct (p x); reflexivity.
Qed.

Lemma bucket_table_pumps (ev : list float) :
  total_pumps (bucket_table ev) = list_sum (map (pump_hits buckets) ev).
Proof. destruct ev; [reflexivity | apply total_pumps_rows]. Qed.

Lemma bucket_table_dumps (ev : list float) :
  total_dumps (bucket_table ev) = list_sum (map (dump_hits buckets) ev).
Proof. destruct ev; [reflexivity | apply total_dumps_rows]. Qed.

(** X7.  On a float column whose events are all finite, the pump counts of
    the table add up to the number of positive events and the dump counts to
    the number of negative events. *)
Theorem pumps_are_rises_dumps_are_falls
        (h : store) (df : ref) (col : string) (xs : list float) :
  wf (nth df h empty_frame) ->
  lookup col (columns (nth df h empty_frame)) = Some (Float64 xs) ->
  Forall (fun x => F64.is_inf x = false) xs ->
  exists (rows : list BucketRow) (h' : store),
    analyze_volatility df col h = (Ok rows, h')
    /\ total_pumps rows = length (filter is_positive (filter is_event xs))
    /\ total_dumps rows = length (filter F64.signbit (filter is_event xs)).
Proof.
  intros Hwf Hcol Hfin.
  destruct (analyze_volatility_run h df col xs Hwf Hcol) as (h' & Hrun & _).
  exists (bucket_table (filter is_event xs)), h'.
  split; [exact Hrun|].
  assert (Hall : forall x, In x (filter is_event xs) ->
                   is_event x = true /\ F64.is_inf x = false).
  { intros x Hx. apply filter_In in Hx. destruct Hx as [Hin Hev].
    rewrite Forall_forall in Hfin. split; [exact Hev | apply Hfin, Hin]. }
  rewrite bucket_table_pumps, bucket_table_dumps. split.
  - apply list_sum_filter. intros x Hx. destruct (Hall x Hx) as [Hev Hf].
    rewrite (proj1 (hits_by_sign x Hev Hf)). unfold is_positive.
    destruct (F64.signbit x); reflexivity.
  - apply list_sum_filter. intros x Hx. destruct (Hall x Hx) as [Hev Hf].
    exact (proj2 (hits_by_sign x Hev Hf)).
Qed.

Lemma pumps_are_rises_dumps_are_falls_witness :
  exists (rows : list BucketRow) (h' : store),
    analyze_volatility 0 "ret_5m"
      [returns_frame "ret_5m" [F64.lit 6 3; F64.lit 3 2; F64.neg (F64.lit 5 3)]]
    = (Ok rows, h')
    /\ total_pumps rows = 2 /\ total_dumps rows = 1.
Proof.
  destruct (pumps_are_rises_dumps_are_falls
              [returns_frame "ret_5m" [F64.lit 6 3; F64.lit 3 2; F64.neg (F64.lit 5 3)]]
              0 "ret_5m" [F64.lit 6 3; F64.lit 3 2; F64.neg (F64.lit 5 3)])
    as (rows & h' & Hrun & Hp & Hd).
  - repeat constructor.
  - reflexivity.
  - repeat constructor.
  - exists rows, h'. split; [exact Hrun|]. rewrite Hp, Hd. vm_compute. split; reflexivity.
Defined.

Lemma filter_Permutation {A : Type} (p : A -> bool) (l1 l2 : list A) :
  Permutation l1 l2 -> Permutation (filter p l1) (filter p l2).
Proof.
  induction 1 as [|x l1 l2 _ IH|x y l|l1 l2 l3 _ IH1 _ IH2]; simpl.
  - apply perm_nil.
  - destruct (p x); [apply perm_skip|]; exact IH.
  - destruct (p x), (p y); try apply Permutation_refl. apply perm_swap.
  - exact (perm_trans IH1 IH2).
Qed.

Lemma bucket_table_Permutation (ev1 ev2 : list float) :
  Permutation ev1 ev2 -> bucket_table ev1 = bucket_table ev2.
Proof.
  intros H. destruct ev1 as [|x ev1].
  - apply Permutation_nil in H. subst. reflexivity.
  - destruct ev2 as [|y ev2]; [apply Permutation_sym, Permutation_nil in H; discriminate|].
    unfold bucket_table. apply map_ext. intros b. unfold bucket_row.
    rewrite (Permutation_length (filter_Permutation (is_pump b) _ _ H)).
    rewrite (Permutation_length (filter_Permutation (is_dump b) _ _ H)).
    reflexivity.
Qed.

(** X8.  The table does not depend on the order of the rows: two frames
    whose columns hold the same returns in different orders give the same
    table. *)
Theorem table_ignores_row_order
        (h1 h2 : store) (df1 df2 : ref) (col : string) (xs ys : list float) :
  wf (nth df1 h1 empty_frame) ->
  lookup col (columns (nth df1 h1 empty_frame)) = Some (Float64 xs) ->
  wf (nth df2 h2 empty_frame) ->
  lookup col (columns (nth df2 h2 empty_frame)) = Some (Float64 ys) ->
  Permutation xs ys ->
  fst (analyze_volatility df1 col h1) = fst (analyze_volatility df2 col h2).
Proof.
  intros Hwf1 Hcol1 Hwf2 Hcol2 Hperm.
  destruct (analyze_volatility_run h1 df1 col xs Hwf1 Hcol1) as (h1' & Hrun1 & _).
  destruct (analyze_volatility_run h2 df2 col ys Hwf2 Hcol2) as (h2' & Hrun2 & _).
  rewrite Hrun1, Hrun2. cbn [fst]. f_equal.
  apply bucket_table_Permutation, filter_Permutation, Hperm.
Qed.

Lemma table_ignores_row_order_witness :
  fst (analyze_volatility 0 "ret_5m"
         [returns_frame "ret_5m" [F64.lit 6 3; F64.neg (F64.lit 5 3)]])
  = fst (analyze_volatility 0 "ret_5m"
           [returns_frame "ret_5m" [F64.neg (F64.lit 5 3); F64.lit 6 3]]).
Proof.
  apply (table_ignores_row_order
           [returns_frame "ret_5m" [F64.lit 6 3; F64.neg (F64.lit 5 3)]]
           [returns_frame "ret_5m" [F64.neg (F64.lit 5 3); F64.lit 6 3]]
           0 0 "ret_5m"
           [F64.lit 6 3; F64.neg (F64.lit 5 3)] [F64.neg (F64.lit 5 3); F64.lit 6 3]).
  - repeat constructor.
  - reflexivity.
  - repeat constructor.
  - reflexivity.
  - apply perm_swap.
Defined.

Lemma is_event_neg (x : float) : is_event (F64.neg x) = is_event x.
Proof. unfold is_event. destruct x as [[]|[]| |[] mx ex]; reflexivity. Qed.

Lemma neg_involutive (x : float) : F64.neg (F64.neg x) = x.
Proof. apply SFopp_involutive. Qed.

Lemma filter_map_swap {A B : Type} (f : A -> B) (p : B -> bool) (l : list A) :
  filter p (map f l) = map f (filter (fun x => p (f x)) l).
Proof.
  induction l as [|x l IH]; simpl; [reflexivity|].
  destruct (p (f x)); simpl; rewrite IH; reflexivity.
Qed.

Lemma bucket_table_neg (ev : list float) :
  bucket_table (map F64.neg ev) = map swap_counts (bucket_table ev).
Proof.
  destruct ev as [|x ev]; [reflexivity|].
  unfold bucket_table. cbn [map]. rewrite map_map. apply map_ext.
  intros b. unfold bucket_row, swap_counts. cbn [Bucket Pumps Dumps].
  change (F64.neg x :: map F64.neg ev) with (map F64.neg (x :: ev)).
  rewrite !filter_map_swap, !length_map. f_equal.
  - f_equal. apply filter_ext. intros y. rewrite is_dump_mirror. reflexivity.
  - f_equal. apply filter_ext. intros y. rewrite is_dump_mirror, neg_involutive.
    reflexivity.
Qed.

(** X9.  Turning every return of a column into its opposite exchanges the
    two counts of every row: rises become falls of the same bucket. *)
Theorem negated_returns_swap_the_counts
        (h1 h2 : store) (df1 df2 : ref) (col : string) (xs : list float) :
  wf (nth df1 h1 empty_frame) ->
  lookup col (columns (nth df1 h1 empty_frame)) = Some (Float64 xs) ->
  wf (nth df2 h2 empty_frame) ->
  lookup col (columns (nth df2 h2 empty_frame)) = Some (Float64 (map F64.neg xs)) ->
  exists rows : list BucketRow,
    fst (analyze_volatility df1 col h1) = Ok rows
    /\ fst (analyze_volatility df2 col h2) = Ok (map swap_counts rows).
Proof.
  intros Hwf1 Hcol1 Hwf2 Hcol2.
  destruct (analyze_volatility_run h1 df1 col xs Hwf1 Hcol1) as (h1' & Hrun1 & _).
  destruct (analyze_volatility_run h2 df2 col _ Hwf2 Hcol2) as (h2' & Hrun2 & _).
  exists (bucket_table (filter is_event xs)).
  rewrite Hrun1, Hrun2. cbn [fst]. split; [reflexivity|]. f_equal.
  rewrite filter_map_swap, <- bucket_table_neg. f_equal. f_equal.
  apply filter_ext. intros x. apply is_event_neg.
Qed.

Lemma negated_returns_swap_the_counts_witness :
  exists rows : list BucketRow,
    fst (analyze_volatility 0 "ret_5m"
           [returns_frame "ret_5m" [F64.lit 6 3; F64.neg (F64.lit 5 3)]]) = Ok rows
    /\ fst (analyze_volatility 0 "ret_5m"
              [returns_frame "ret_5m" (map F64.neg [F64.lit 6 3; F64.neg (F64.lit 5 3)])])
       = Ok (map swap_counts rows).
Proof.
  apply (negated_returns_swap_the_counts
           [returns_frame "ret_5m" [F64.lit 6 3; F64.neg (F64.lit 5 3)]]
           [returns_frame "ret_5m" (map F64.neg [F64.lit 6 3; F64.neg (F64.lit 5 3)])]
           0 0 "ret_5m" [F64.lit 6 3; F64.neg (F64.lit 5 3)]).
  - repeat constructor.
  - reflexivity.
  - repeat constructor.
  - reflexivity.
Defined.

(** ** The request address *)

Lemma rstrip_idempotent (c : Ascii.ascii) (s : string) :
  str.rstrip c (str.rstrip c s) = str.rstrip c s.
Proof.
  induction s as [|a s IH]; [reflexivity|].
  cbn [str.rstrip]. destruct (str.rstrip c s) as [|b r] eqn:E.
  - destruct (Ascii.eqb a c) eqn:Ea; [reflexivity|].
    cbn [str.rstrip]. rewrite Ea. reflexivity.
  - change (str.rstrip c (String a (String b r)))
      with (match str.rstrip c (String b r) with
            | EmptyString => if Ascii.eqb a c then EmptyString else String a EmptyString
            | String b' r' => String a (String b' r')
            end).
    rewrite IH. reflexivity.
Qed.

Lemma rstrip_app_kept (c : Ascii.ascii) (s t : string) :
  t <> EmptyString -> str.rstrip c t = t -> str.rstrip c (s ++ t) = (s ++ t)%string.
Proof.
  intros Hne Ht. induction s as [|a s IH]; [exact Ht|].
  cbn [append str.rstrip]. rewrite IH.
  destruct (s ++ t)%string as [|b r] eqn:E; [|reflexivity].
  destruct s; [contradiction | discriminate].
Qed.

Lemma rstrip_app_char (c : Ascii.ascii) (s : string) :
  str.rstrip c (s ++ String c EmptyString) = str.rstrip c s.
Proof.
  induction s as [|a s IH]; cbn [append str.rstrip].
  - rewrite Ascii.eqb_refl. reflexivity.
  - rewrite IH. reflexivity.
Qed.

Lemma endswith_app (s t : string) : str.endswith (s ++ t) t = true.
Proof.
  induction s as [|a s IH]; cbn [append].
  - destruct t; cbn [str.endswith]; rewrite String.eqb_refl; reflexivity.
  - cbn [str.endswith]. rewrite IH. destruct (String.eqb _ _); reflexivity.
Qed.

(** X10.  Whatever address is configured, the request goes to an address
    that ends in [/candles] and has no trailing slash.  An address that
    already ends in [/candles] is kept, so building the address twice
    changes nothing; and a trailing slash on the configured address makes
    no difference. *)
Theorem request_address_is_normalised (api_url : string) :
  str.endswith (candles_url api_url) "/candles" = true
  /\ str.rstrip "/"%char (candles_url api_url) = candles_url api_url
  /\ candles_url (candles_url api_url) = candles_url api_url
  /\ candles_url (api_url ++ "/") = candles_url api_url.
Proof.
  assert (H1 : str.endswith (candles_url api_url) "/candles" = true).
  { unfold candles_url. cbv zeta.
    destruct (str.endswith (str.rstrip "/"%char api_url) "/candles") eqn:E;
      [exact E | apply endswith_app]. }
  assert (H2 : str.rstrip "/"%char (candles_url api_url) = candles_url api_url).
  { unfold candles_url. cbv zeta.
    destruct (str.endswith (str.rstrip "/"%char api_url) "/candles");
      [apply rstrip_idempotent|].
    apply rstrip_app_kept; [discriminate | reflexivity]. }
  split; [exact H1|]. split; [exact H2|]. split.
  - unfold candles_url at 1. cbv zeta. rewrite H2, H1. reflexivity.
  - unfold candles_url. cbv zeta. rewrite rstrip_app_char. reflexivity.
Qed.

(** ** Credentials and failures *)

(** X11.  With the key or the address unset or empty, [fetch_candle_data]
    raises [ValueError] whatever the network would answer: the result does
    not depend on the network at all. *)
Theorem missing_credentials_raise
        (key url : option string)
        (net net' : string -> list (string * string) -> list (string * string) -> response)
        (symbol date resolution : string) :
  missing key || missing url = true ->
  (exists msg, fetch_candle_data key url net symbol date resolution
               = Raise (ValueError msg))
  /\ fetch_candle_data key url net symbol date resolution
     = fetch_candle_data key url net' symbol date resolution.
Proof.
  intros H. unfold fetch_candle_data. rewrite H. split; [eexists|]; reflexivity.
Qed.

Lemma missing_credentials_raise_witness :
  exists msg,
    fetch_candle_data (Some "") (Some "https://api.example.org")
                      (fun _ _ _ => Json (Some climbing_bars))
                      "BTCUSDT" "2025-12-11" "1m"
    = Raise (ValueError msg).
Proof.
  apply (missing_credentials_raise (Some "") (Some "https://api.example.org")
           (fun _ _ _ => Json (Some climbing_bars)) (fun _ _ _ => RequestException)
           "BTCUSDT" "2025-12-11" "1m").
  reflexivity.
Defined.

(** X12.  With both credentials present [fetch_candle_data] asks the
    normalised address once, with the three parameters and the key in the
    [X-API-Key] header.  It raises in one case only, with [AttributeError],
    when the body decodes to something that is not an object; it returns
    [None] exactly when the member [data] is [null]; a failed request and
    an object without the member both give the empty list, and a list under
    [data] comes back as it is. *)
Theorem fetch_raises_only_on_a_non_object_body
        (key url : string)
        (net : string -> list (string * string) -> list (string * string) -> response)
        (symbol date resolution : string) :
  key <> "" -> url <> "" ->
  let answer :=
    net (candles_url url)
        [ ("symbol", symbol); ("date", date); ("resolution", resolution) ]
        [ ("X-API-Key", key) ] in
  let result := fetch_candle_data (Some key) (Some url) net symbol date resolution in
  (forall e, result = Raise e <-> answer = NotAnObject /\ e = AttributeError)
  /\ (result = Ok None <-> answer = JsonNull)
  /\ (result = Ok (Some []) <->
      answer = RequestException \/ answer = Json None \/ answer = Json (Some []))
  /\ (forall data, answer = Json (Some data) -> result = Ok (Some data)).
Proof.
  intros Hk Hu answer result. unfold result, fetch_candle_data.
  destruct key as [|kc ks]; [contradiction|].
  destruct url as [|uc us]; [contradiction|].
  cbn [missing orb text]. fold answer.
  destruct answer as [| |[data|]|].
  - split; [intros e; split; [discriminate | intros [E _]; discriminate]|].
    split; [split; discriminate|].
    split; [split; [left; reflexivity | reflexivity]|].
    intros data. discriminate.
  - split; [intros e; split; [intros [= <-]; split; reflexivity
                             | intros [_ ->]; reflexivity]|].
    split; [split; discriminate|].
    split; [split; [discriminate | intros [E|[E|E]]; discriminate]|].
    intros data. discriminate.
  - split; [intros e; split; [discriminate | intros [E _]; discriminate]|].
    split; [split; discriminate|].
    split.
    + split.
      * intros [= ->]. right. right. reflexivity.
      * intros [E|[E|E]]; try discriminate. injection E as ->. reflexivity.
    + intros data' [= <-]. reflexivity.
  - split; [intros e; split; [discriminate | intros [E _]; discriminate]|].
    split; [split; discriminate|].
    split; [split; [right; left; reflexivity | reflexivity]|].
    intros data. discriminate.
  - split; [intros e; split; [discriminate | intros [E _]; discriminate]|].
    split; [split; reflexivity|].
    split; [split; [discriminate | intros [E|[E|E]]; discriminate]|].
    intros data. discriminate.
Qed.

Lemma fetch_raises_only_on_a_non_object_body_witness :
  fetch_candle_data (Some "k") (Some "https://api.example.org/")
                    (fun _ _ _ => NotAnObject) "BTCUSDT" "2025-12-11" "1m"
  = Raise AttributeError
  /\ fetch_candle_data (Some "k") (Some "https://api.example.org/")
                       (fun _ _ _ => Json (Some climbing_bars)) "BTCUSDT" "2025-12-11" "1m"
     = Ok (Some climbing_bars).
Proof.
  split.
  - apply (fetch_raises_only_on_a_non_object_body "k" "https://api.example.org/"
             (fun _ _ _ => NotAnObject) "BTCUSDT" "2025-12-11" "1m").
    + discriminate.
    + discriminate.
    + split; reflexivity.
  - apply (fetch_raises_only_on_a_non_object_body "k" "https://api.example.org/"
             (fun _ _ _ => Json (Some climbing_bars)) "BTCUSDT" "2025-12-11" "1m").
    + discriminate.
    + discriminate.
    + reflexivity.
Defined.

(** X13.  When every request fails, [process_data] returns [None] and leaves
    the store alone: a network that is down shows as "no data", not as an
    exception. *)
Theorem network_down_means_no_data
        (key url : string)
        (net : string -> list (string * string) -> list (string * string) -> response)
        (dates : list string) (symbol resolution : string) (h : store) :
  key <> "" -> url <> "" ->
  (forall a p hd, net a p hd = RequestException) ->
  process_data (fetch_candle_data (Some key) (Some url) net) dates symbol resolution h
  = (Ok None, h).
Proof.
  intros Hk Hu Hdown.
  rewrite (process_data_supplied _ (fun _ _ _ => [])).
  - apply process_data_empty.
    induction dates as [|d dates IH]; [reflexivity | exact IH].
  - intros date _. unfold fetch_candle_data.
    destruct key as [|kc ks]; [contradiction|].
    destruct url as [|uc us]; [contradiction|].
    cbn [missing orb text]. rewrite Hdown. reflexivity.
Qed.

Lemma network_down_means_no_data_witness :
  process_data (fetch_candle_data (Some "k") (Some "https://api.example.org")
                                  (fun _ _ _ => RequestException))
               configured_dates "BTCUSDT" "1m" []
  = (Ok None, []).
Proof.
  apply (network_down_means_no_data "k" "https://api.example.org"
           (fun _ _ _ => RequestException) configured_dates "BTCUSDT" "1m" []).
  - discriminate.
  - discriminate.
  - reflexivity.
Defined.

(** ** The calendar: ordinals and dates *)

Section Calendar.

Import datetime.
Local Open Scope Z_scope.

Lemma is_leap_spec (y : Z) :
  is_leap y = true <-> (y mod 4 = 0 /\ (y mod 100 <> 0 \/ y mod 400 = 0)).
Proof.
  unfold is_leap.
  destruct (Z.eqb_spec (y mod 4) 0), (Z.eqb_spec (y mod 100) 0),
           (Z.eqb_spec (y mod 400) 0); simpl; intuition (try discriminate; try lia).
Qed.

(** The year of an ordinal: the day [k] of the year [y], counted from 0. *)
Lemma ord2ymd_year (y k : Z) :
  1 <= y -> 0 <= k -> k < 365 + (if is_leap y then 1 else 0) ->
  ord2ymd (days_before_year y + k + 1)
  = let '(m, d) := month_and_day (is_leap y) k in mkdate y m d.
Proof.
  intros Hy Hk0 Hk.
  pose proof (is_leap_spec y) as Hleap.
  unfold ord2ymd, days_before_year. cbv zeta.
  replace ((y - 1) * 365 + (y - 1) / 4 - (y - 1) / 100 + (y - 1) / 400 + k + 1 - 1)
    with ((y - 1) * 365 + (y - 1) / 4 - (y - 1) / 100 + (y - 1) / 400 + k) by lia.
  set (N := (y - 1) * 365 + (y - 1) / 4 - (y - 1) / 100 + (y - 1) / 400 + k).
  set (n400 := N / 146097). set (r1 := N mod 146097).
  set (n100 := r1 / 36524). set (r2 := r1 mod 36524).
  set (n4 := r2 / 1461). set (r3 := r2 mod 1461).
  set (n1 := r3 / 365). set (r4 := r3 mod 365).
  (* the year minus one, split along the cycles of 400, 100 and 4 years *)
  set (a := (y - 1) / 400). set (ra := (y - 1) mod 400).
  set (b := ra / 100). set (rb := ra mod 100).
  set (c := rb / 4). set (e := rb mod 4).
  assert (Hsplit : y - 1 = 400 * a + 100 * b + 4 * c + e
                   /\ 0 <= b < 4 /\ 0 <= c < 25 /\ 0 <= e < 4 /\ 0 <= a).
  { unfold a, b, c, e, rb, ra. Z.div_mod_to_equations. lia. }
  destruct Hsplit as (Hy1 & Hb & Hc & He & Ha).
  assert (HN : N = 146097 * a + 36524 * b + 1461 * c + 365 * e + k).
  { unfold N. replace ((y - 1) / 4) with (100 * a + 25 * b + c)
      by (rewrite Hy1; Z.div_mod_to_equations; lia).
    replace ((y - 1) / 100) with (4 * a + b)
      by (rewrite Hy1; Z.div_mod_to_equations; lia).
    fold a. lia. }
  assert (Hl : is_leap y = true <-> (e = 3 /\ (c <> 24 \/ b = 3))).
  { rewrite Hleap. replace y with (400 * a + 100 * b + 4 * c + e + 1) by lia.
    clear - Hb Hc He Ha. Z.div_mod_to_equations. lia. }
  clearbody a b c e. clear ra rb Hleap.
  assert (Hkl : k = 365 -> e = 3 /\ (c <> 24 \/ b = 3)).
  { intros ->. apply Hl. destruct (is_leap y); [reflexivity | lia]. }
  assert (Hcase : k < 365 \/ (k = 365 /\ e = 3 /\ (c <> 24 \/ b = 3))).
  { destruct (Z.eq_dec k 365) as [Ek|Ek]; [right; split; [exact Ek | exact (Hkl Ek)]|].
    left. destruct (is_leap y); lia. }
  assert (H400 : n400 = a /\ r1 = 36524 * b + 1461 * c + 365 * e + k).
  { unfold n400, r1. rewrite HN. Z.div_mod_to_equations. lia. }
  destruct H400 as [E400 Er1].
  destruct (Z.eq_dec k 365) as [Ek|Ek].
  - (* the last day of a leap year *)
    destruct (Hkl Ek) as [-> Hcb]. subst k.
    assert (Hmd : month_and_day (is_leap y) 365 = (12, 31)).
    { replace (is_leap y) with true; [reflexivity|].
      symmetry. apply Hl. split; [reflexivity | exact Hcb]. }
    rewrite Hmd.
    destruct (Z.eq_dec c 24) as [Ec|Ec].
    + assert (Eb : b = 3) by lia. subst b c.
      assert (E100 : n100 = 4 /\ r2 = 0)
        by (unfold n100, r2; rewrite Er1; split; reflexivity).
      destruct E100 as [E100 Er2].
      assert (E4 : n4 = 0 /\ n1 = 0)
        by (unfold n1, r3, n4; rewrite Er2; split; reflexivity).
      destruct E4 as [E4 E1].
      rewrite E400, E100, E4, E1. cbn [Z.eqb Pos.eqb orb]. f_equal. lia.
    + assert (E100 : n100 = b /\ r2 = 1461 * c + 1460)
        by (unfold n100, r2; rewrite Er1; Z.div_mod_to_equations; lia).
      destruct E100 as [E100 Er2].
      assert (E4 : n4 = c /\ r3 = 1460)
        by (unfold n4, r3; rewrite Er2; Z.div_mod_to_equations; lia).
      destruct E4 as [E4 Er3].
      assert (E1 : n1 = 4) by (unfold n1; rewrite Er3; reflexivity).
      rewrite E400, E100, E4, E1. cbn [Z.eqb Pos.eqb orb]. f_equal. lia.
  - assert (Hk' : k < 365) by (destruct (is_leap y); lia).
    assert (E100 : n100 = b /\ r2 = 1461 * c + 365 * e + k)
      by (unfold n100, r2; rewrite Er1; Z.div_mod_to_equations; lia).
    destruct E100 as [E100 Er2].
    assert (E4 : n4 = c /\ r3 = 365 * e + k)
      by (unfold n4, r3; rewrite Er2; Z.div_mod_to_equations; lia).
    destruct E4 as [E4 Er3].
    assert (E1 : n1 = e /\ r4 = k)
      by (unfold n1, r4; rewrite Er3; Z.div_mod_to_equations; lia).
    destruct E1 as [E1 Er4].
    rewrite E400, E100, E4, E1, Er4.
    destruct (Z.eqb_spec e 4) as [|_]; [lia|].
    destruct (Z.eqb_spec b 4) as [|_]; [lia|].
    cbn [orb].
    assert (Hflag : (e =? 3) && (negb (c =? 24) || (b =? 3)) = is_leap y).
    { destruct (is_leap y).
      - destruct (proj1 Hl eq_refl) as [-> Hcb]. cbn [Z.eqb Pos.eqb andb].
        destruct (Z.eqb_spec c 24), (Z.eqb_spec b 3); simpl; try reflexivity. lia.
      - destruct (Z.eqb_spec e 3), (Z.eqb_spec c 24), (Z.eqb_spec b 3); simpl;
          try reflexivity; exfalso;
          assert (false = true) by (apply Hl; lia); discriminate. }
    rewrite Hflag.
    destruct (month_and_day (is_leap y) k) as [m d]. f_equal. lia.
Qed.


Lemma range_In (n k : Z) : 0 <= k < n -> In k (range n).
Proof.
  intros Hk. unfold range. apply in_map_iff. exists (Z.to_nat k).
  split; [lia|]. apply in_seq. lia.
Qed.

Lemma range_length (n : Z) : length (range n) = Z.to_nat n.
Proof. unfold range. rewrite length_map, length_seq. reflexivity. Qed.

Lemma range_nth (n : Z) (i : nat) :
  (i < Z.to_nat n)%nat -> nth i (range n) 0 = Z.of_nat i.
Proof.
  intros Hi. unfold range.
  change 0 with (Z.of_nat 0).
  rewrite (map_nth Z.of_nat (seq 0 (Z.to_nat n)) 0%nat i). rewrite seq_nth by exact Hi.
  reflexivity.
Qed.

(** The month part, checked day by day over a whole year. *)
Lemma month_and_day_checked (leap : bool) :
  forallb (fun k =>
             let '(m, d) := month_and_day leap k in
             (1 <=? m) && (m <=? 12) && (1 <=? d)
             && (d <=? (if (m =? 2) && leap then 29 else DAYS_IN_MONTH m))
             && (DAYS_BEFORE_MONTH m + (if (2 <? m) && leap then 1 else 0) + d - 1 =? k))
          (range (365 + (if leap then 1 else 0))) = true.
Proof. destruct leap; vm_compute; reflexivity. Qed.

Lemma month_and_day_spec (leap : bool) (k : Z) :
  0 <= k < 365 + (if leap then 1 else 0) ->
  let '(m, d) := month_and_day leap k in
  1 <= m <= 12
  /\ 1 <= d <= (if (m =? 2) && leap then 29 else DAYS_IN_MONTH m)
  /\ DAYS_BEFORE_MONTH m + (if (2 <? m) && leap then 1 else 0) + d - 1 = k.
Proof.
  intros Hk. pose proof (month_and_day_checked leap) as H.
  rewrite forallb_forall in H. specialize (H k (range_In _ _ Hk)).
  destruct (month_and_day leap k) as [m d].
  rewrite !andb_true_iff in H. destruct H as [[[[H1 H2] H3] H4] H5].
  apply Z.leb_le in H1, H2, H3, H4. apply Z.eqb_eq in H5. lia.
Qed.

Lemma day_of_year_checked (leap : bool) :
  forallb (fun m =>
     forallb (fun d =>
        implb ((1 <=? m) && (1 <=? d)
               && (d <=? (if (m =? 2) && leap then 29 else DAYS_IN_MONTH m)))
              (let k := DAYS_BEFORE_MONTH m + (if (2 <? m) && leap then 1 else 0) + d - 1 in
               (0 <=? k) && (k <? 365 + (if leap then 1 else 0))
               && (let '(m', d') := month_and_day leap k in (m' =? m) && (d' =? d))))
       (range 32))
    (range 13) = true.
Proof. destruct leap; vm_compute; reflexivity. Qed.

Lemma day_of_year_spec (leap : bool) (m d : Z) :
  1 <= m <= 12 ->
  1 <= d <= (if (m =? 2) && leap then 29 else DAYS_IN_MONTH m) ->
  let k := DAYS_BEFORE_MONTH m + (if (2 <? m) && leap then 1 else 0) + d - 1 in
  0 <= k < 365 + (if leap then 1 else 0) /\ month_and_day leap k = (m, d).
Proof.
  intros Hm Hd k. pose proof (day_of_year_checked leap) as H.
  rewrite forallb_forall in H.
  assert (Hm' : In m (range 13)) by (apply range_In; lia).
  specialize (H m Hm'). rewrite forallb_forall in H.
  assert (Hd31 : d <= 31).
  { destruct Hd as [_ Hd]. destruct ((m =? 2) && leap); [lia|].
    assert (Hc : m = 1 \/ m = 2 \/ m = 3 \/ m = 4 \/ m = 5 \/ m = 6 \/ m = 7
                 \/ m = 8 \/ m = 9 \/ m = 10 \/ m = 11 \/ m = 12) by lia.
    repeat (destruct Hc as [->|Hc]; [simpl in Hd; lia|]). subst m. simpl in Hd. lia. }
  assert (Hd' : In d (range 32)) by (apply range_In; lia).
  specialize (H d Hd').
  replace ((1 <=? m) && (1 <=? d)
           && (d <=? (if (m =? 2) && leap then 29 else DAYS_IN_MONTH m)))
    with true in H.
  2:{ symmetry. rewrite !andb_true_iff, !Z.leb_le. lia. }
  cbn [implb] in H. fold k in H.
  destruct (month_and_day leap k) as [m' d'].
  rewrite !andb_true_iff in H. destruct H as [[H1 H2] [H3 H4]].
  apply Z.leb_le in H1. apply Z.ltb_lt in H2. apply Z.eqb_eq in H3, H4.
  subst. split; [lia | reflexivity].
Qed.

(** A valid date is the date of its ordinal. *)
Lemma ord2ymd_toordinal (t : date) :
  valid t = true -> ord2ymd (toordinal t) = t.
Proof.
  destruct t as [y m d]. unfold valid, toordinal. cbn [year month day].
  rewrite !andb_true_iff, !Z.leb_le. intros [[[[[Hy1 Hy2] Hm1] Hm2] Hd1] Hd2].
  unfold days_in_month in Hd2.
  destruct (day_of_year_spec (is_leap y) m d) as [Hk Hmd]; [lia | lia |].
  unfold ymd2ord, days_before_month.
  replace (days_before_year y
           + (DAYS_BEFORE_MONTH m + (if (2 <? m) && is_leap y then 1 else 0)) + d)
    with (days_before_year y
          + (DAYS_BEFORE_MONTH m + (if (2 <? m) && is_leap y then 1 else 0) + d - 1) + 1)
    by lia.
  rewrite ord2ymd_year by lia. rewrite Hmd. reflexivity.
Qed.


Lemma year_split (a b c e : Z) :
  0 <= a -> 0 <= b < 4 -> 0 <= c < 25 -> 0 <= e < 4 ->
  days_before_year (400 * a + 100 * b + 4 * c + e + 1)
  = 146097 * a + 36524 * b + 1461 * c + 365 * e
  /\ (is_leap (400 * a + 100 * b + 4 * c + e + 1) = true
      <-> e = 3 /\ (c <> 24 \/ b = 3)).
Proof.
  intros Ha Hb Hc He. split.
  - unfold days_before_year. cbv zeta.
    replace (400 * a + 100 * b + 4 * c + e + 1 - 1)
      with (400 * a + 100 * b + 4 * c + e) by lia.
    Z.div_mod_to_equations. lia.
  - rewrite is_leap_spec. Z.div_mod_to_equations. lia.
Qed.

(** Every positive ordinal is a day of some year. *)
Lemma ordinal_year (n : Z) :
  1 <= n ->
  exists y k, 1 <= y /\ 0 <= k < 365 + (if is_leap y then 1 else 0)
              /\ n = days_before_year y + k + 1.
Proof.
  intros Hn.
  set (a := (n - 1) / 146097). set (t1 := (n - 1) mod 146097).
  set (b := Z.min (t1 / 36524) 3). set (t2 := t1 - 36524 * b).
  set (c := Z.min (t2 / 1461) 24). set (t3 := t2 - 1461 * c).
  set (e := Z.min (t3 / 365) 3). set (k := t3 - 365 * e).
  assert (Ha : 0 <= a /\ 0 <= t1 < 146097 /\ n - 1 = 146097 * a + t1)
    by (unfold a, t1; Z.div_mod_to_equations; lia).
  assert (Hb : 0 <= b < 4 /\ 0 <= t2 <= 36524 /\ (t2 = 36524 -> b = 3))
    by (unfold t2, b; Z.div_mod_to_equations; lia).
  assert (Hc : 0 <= c < 25 /\ 0 <= t3 <= 1460 /\ (c = 24 -> t3 = 1460 -> t2 = 36524))
    by (unfold t3, c; Z.div_mod_to_equations; lia).
  assert (He : 0 <= e < 4 /\ 0 <= k <= 365 /\ (k = 365 -> e = 3 /\ t3 = 1460))
    by (unfold k, e; Z.div_mod_to_equations; lia).
  destruct (year_split a b c e) as [Hdby Hleap]; try lia.
  exists (400 * a + 100 * b + 4 * c + e + 1), k.
  split; [lia|]. split.
  - split; [lia|].
    destruct (is_leap (400 * a + 100 * b + 4 * c + e + 1)) eqn:L; [lia|].
    assert (k <> 365); [|lia].
    intros Ek. assert (false = true); [|discriminate]. apply Hleap. lia.
  - rewrite Hdby. unfold k, t3, t2. lia.
Qed.

(** The date of a positive ordinal is a date of the calendar, and the
    ordinal of that date is the one we started from. *)
Lemma toordinal_ord2ymd (n : Z) :
  1 <= n ->
  toordinal (ord2ymd n) = n
  /\ 1 <= year (ord2ymd n)
  /\ 1 <= month (ord2ymd n) <= 12
  /\ 1 <= day (ord2ymd n) <= days_in_month (year (ord2ymd n)) (month (ord2ymd n)).
Proof.
  intros Hn. destruct (ordinal_year n Hn) as (y & k & Hy & Hk & ->).
  rewrite ord2ymd_year by lia.
  pose proof (month_and_day_spec (is_leap y) k Hk) as H.
  destruct (month_and_day (is_leap y) k) as [m d].
  unfold toordinal, ymd2ord, days_before_month, days_in_month.
  cbn [year month day]. lia.
Qed.

Lemma DAYS_BEFORE_MONTH_nonneg (m : Z) : 1 <= m <= 12 -> 0 <= DAYS_BEFORE_MONTH m.
Proof.
  intros Hm.
  assert (Hc : m = 1 \/ m = 2 \/ m = 3 \/ m = 4 \/ m = 5 \/ m = 6 \/ m = 7
               \/ m = 8 \/ m = 9 \/ m = 10 \/ m = 11 \/ m = 12) by lia.
  repeat (destruct Hc as [->|Hc]; [simpl; lia|]). subst m. simpl. lia.
Qed.

Lemma days_before_year_monotone (y y' : Z) :
  y <= y' -> days_before_year y <= days_before_year y'.
Proof.
  intros H. unfold days_before_year. cbv zeta. Z.div_mod_to_equations. lia.
Qed.

Lemma ord2ymd_valid (n : Z) :
  1 <= n <= 3652059 -> valid (ord2ymd n) = true.
Proof.
  intros [Hn Hmax]. destruct (toordinal_ord2ymd n Hn) as (Hord & Hy & Hm & Hd).
  unfold valid. rewrite !andb_true_iff, !Z.leb_le.
  repeat split; try lia.
  destruct (Z.le_gt_cases (year (ord2ymd n)) 9999) as [H|H]; [exact H|].
  exfalso.
  pose proof (days_before_year_monotone 10000 (year (ord2ymd n)) ltac:(lia)) as Hmono.
  change (days_before_year 10000) with 3652059 in Hmono.
  unfold toordinal, ymd2ord, days_before_month in Hord.
  pose proof (DAYS_BEFORE_MONTH_nonneg _ Hm).
  destruct ((2 <? month (ord2ymd n)) && is_leap (year (ord2ymd n))); lia.
Qed.

Lemma toordinal_bounds (t : date) : valid t = true -> 1 <= toordinal t <= 3652059.
Proof.
  intros Hv. pose proof (ord2ymd_toordinal t Hv) as Hrt.
  destruct t as [y m d]. unfold valid in Hv. cbn [year month day] in Hv.
  rewrite !andb_true_iff, !Z.leb_le in Hv.
  destruct Hv as [[[[[Hy1 Hy2] Hm1] Hm2] Hd1] Hd2].
  unfold days_in_month in Hd2.
  destruct (day_of_year_spec (is_leap y) m d) as [Hk _]; [lia | lia |].
  unfold toordinal, ymd2ord, days_before_month. cbn [year month day].
  pose proof (days_before_year_monotone 1 y ltac:(lia)) as H1.
  pose proof (days_before_year_monotone (y + 1) 10000 ltac:(lia)) as H2.
  change (days_before_year 1) with 0 in H1.
  change (days_before_year 10000) with 3652059 in H2.
  assert (Hnext : days_before_year (y + 1)
                  = days_before_year y + 365 + (if is_leap y then 1 else 0)).
  { pose proof (is_leap_spec y) as Hl. unfold days_before_year. cbv zeta.
    replace (y + 1 - 1) with (y - 1 + 1) by lia.
    destruct (is_leap y).
    - destruct (proj1 Hl eq_refl) as [H4 H100]. Z.div_mod_to_equations. lia.
    - assert (Hn : ~ (y mod 4 = 0 /\ (y mod 100 <> 0 \/ y mod 400 = 0)))
        by (intros H; apply Hl in H; discriminate).
      Z.div_mod_to_equations. lia. }
  lia.
Qed.

End Calendar.

(** ** Parsing what was printed *)

Section DateStrings.

Import datetime.
Local Open Scope Z_scope.

Lemma digit_cases (v : Z) :
  0 <= v <= 9 ->
  v = 0 \/ v = 1 \/ v = 2 \/ v = 3 \/ v = 4 \/ v = 5 \/ v = 6 \/ v = 7 \/ v = 8 \/ v = 9.
Proof. lia. Qed.

Lemma digit_char_digit (v : Z) : 0 <= v <= 9 -> digit (digit_char v) = Some v.
Proof.
  intros H. destruct (digit_cases v H) as [->|[->|[->|[->|[->|[->|[->|[->|[->| ->]]]]]]]]];
    reflexivity.
Qed.

Lemma digit_char_between (v : Z) :
  0 <= v <= 9 -> is_digit_between 0 9 (digit_char v) = true.
Proof.
  intros H. unfold is_digit_between. rewrite (digit_char_digit v H).
  apply andb_true_iff. rewrite !Z.leb_le. exact H.
Qed.

Lemma digit_char_value (v : Z) : 0 <= v <= 9 -> value (digit_char v) = v.
Proof. intros H. unfold value. rewrite (digit_char_digit v H). reflexivity. Qed.

Lemma append_empty (s : string) : (s ++ "")%string = s.
Proof. induction s as [|a s IH]; cbn [append]; [reflexivity | rewrite IH; reflexivity]. Qed.

Lemma parse_year_four_digits (y : Z) (rest : string) :
  0 <= y <= 9999 -> parse_year (four_digits y ++ rest) = Some (y, rest).
Proof.
  intros Hy. unfold four_digits. cbn [append]. unfold parse_year.
  assert (H1 : 0 <= y / 1000 <= 9) by (Z.div_mod_to_equations; lia).
  assert (H2 : 0 <= y / 100 mod 10 <= 9) by (Z.div_mod_to_equations; lia).
  assert (H3 : 0 <= y / 10 mod 10 <= 9) by (Z.div_mod_to_equations; lia).
  assert (H4 : 0 <= y mod 10 <= 9) by (Z.div_mod_to_equations; lia).
  rewrite !digit_char_between, !digit_char_value by assumption.
  cbn [andb]. do 2 f_equal. Z.div_mod_to_equations. lia.
Qed.

Lemma parse_month_two_digits (m : Z) (rest : string) :
  1 <= m <= 12 -> parse_month (two_digits m ++ rest) = Some (m, rest).
Proof.
  intros Hm.
  assert (Hc : m = 1 \/ m = 2 \/ m = 3 \/ m = 4 \/ m = 5 \/ m = 6 \/ m = 7
               \/ m = 8 \/ m = 9 \/ m = 10 \/ m = 11 \/ m = 12) by lia.
  repeat (destruct Hc as [->|Hc]; [reflexivity|]). subst m. reflexivity.
Qed.

Lemma parse_day_two_digits (d : Z) (rest : string) :
  1 <= d <= 31 -> parse_day (two_digits d ++ rest) = Some (d, rest).
Proof.
  intros Hd. unfold two_digits. cbn [append].
  assert (Hq : 0 <= d / 10 <= 3) by (Z.div_mod_to_equations; lia).
  assert (Hr : 0 <= d mod 10 <= 9) by (Z.div_mod_to_equations; lia).
  assert (Hsum : d = 10 * (d / 10) + d mod 10) by (Z.div_mod_to_equations; lia).
  revert Hsum Hq Hr. generalize (d / 10) (d mod 10). intros q r -> Hq Hr.
  assert (Hqc : q = 0 \/ q = 1 \/ q = 2 \/ q = 3) by lia.
  destruct (digit_cases r Hr) as [->|[->|[->|[->|[->|[->|[->|[->|[->| ->]]]]]]]]];
    destruct Hqc as [->|[->|[->| ->]]]; try reflexivity; lia.
Qed.

Lemma days_in_month_le_31 (y m : Z) : 1 <= m <= 12 -> days_in_month y m <= 31.
Proof.
  intros Hm. unfold days_in_month. destruct ((m =? 2) && is_leap y); [lia|].
  assert (Hc : m = 1 \/ m = 2 \/ m = 3 \/ m = 4 \/ m = 5 \/ m = 6 \/ m = 7
               \/ m = 8 \/ m = 9 \/ m = 10 \/ m = 11 \/ m = 12) by lia.
  repeat (destruct Hc as [->|Hc]; [simpl; lia|]). subst m. simpl. lia.
Qed.

Lemma days_in_month_ge_28 (y m : Z) : 1 <= m <= 12 -> 28 <= days_in_month y m.
Proof.
  intros Hm. unfold days_in_month. destruct ((m =? 2) && is_leap y); [lia|].
  assert (Hc : m = 1 \/ m = 2 \/ m = 3 \/ m = 4 \/ m = 5 \/ m = 6 \/ m = 7
               \/ m = 8 \/ m = 9 \/ m = 10 \/ m = 11 \/ m = 12) by lia.
  repeat (destruct Hc as [->|Hc]; [simpl; lia|]). subst m. simpl. lia.
Qed.

(** What [strptime] makes of a printed triple: the triple, checked. *)
Lemma strptime_printed (y m d : Z) :
  0 <= y <= 9999 -> 1 <= m <= 12 -> 1 <= d <= 31 ->
  strptime (strftime (mkdate y m d))
  = if valid (mkdate y m d) then Some (mkdate y m d) else None.
Proof.
  intros Hy Hm Hd. unfold strftime, strptime. cbn [year month day].
  rewrite parse_year_four_digits by exact Hy. cbn [append expect_dash].
  rewrite Ascii.eqb_refl.
  rewrite parse_month_two_digits by exact Hm. cbn [append expect_dash].
  rewrite Ascii.eqb_refl.
  rewrite <- (append_empty (two_digits d)).
  rewrite parse_day_two_digits by exact Hd. reflexivity.
Qed.

Lemma strptime_strftime (t : date) : valid t = true -> strptime (strftime t) = Some t.
Proof.
  intros Hv. destruct t as [y m d].
  pose proof Hv as Hv'. unfold valid in Hv'. cbn [year month day] in Hv'.
  rewrite !andb_true_iff, !Z.leb_le in Hv'.
  destruct Hv' as [[[[[Hy1 Hy2] Hm1] Hm2] Hd1] Hd2].
  pose proof (days_in_month_le_31 y m ltac:(lia)).
  rewrite strptime_printed by lia. rewrite Hv. reflexivity.
Qed.

Lemma strptime_valid (s : string) (t : date) : strptime s = Some t -> valid t = true.
Proof.
  unfold strptime.
  destruct (parse_year s) as [[y s1]|]; [|discriminate].
  destruct (expect_dash s1) as [s2|]; [|discriminate].
  destruct (parse_month s2) as [[m s3]|]; [|discriminate].
  destruct (expect_dash s3) as [s4|]; [|discriminate].
  destruct (parse_day s4) as [[d [|c r]]|]; try discriminate.
  destruct (valid (mkdate y m d)) eqn:E; [|discriminate].
  intros [= <-]. exact E.
Qed.

End DateStrings.

(** ** The dates of a range *)

(** X14.  For two dates that parse, the first not after the second and not
    before the year 1000, [get_date_range] returns one string per day from
    the first date to the second, both included: the first entry prints the
    start, the last prints the end, and entry [i] parses back to the day
    that lies [i] days after the start.  The entries are in the padded
    form also when the arguments were not. *)
Theorem date_range_is_inclusive (start end_ : string) (s e : datetime.date) :
  datetime.strptime start = Some s ->
  datetime.strptime end_ = Some e ->
  (1000 <= datetime.year s)%Z ->
  (datetime.toordinal s <= datetime.toordinal e)%Z ->
  exists l : list string,
    get_date_range start end_ = inr l
    /\ Z.of_nat (length l) = (datetime.toordinal e - datetime.toordinal s + 1)%Z
    /\ nth 0 l "" = datetime.strftime s
    /\ nth (length l - 1) l "" = datetime.strftime e
    /\ forall i, i < length l ->
         exists t, datetime.strptime (nth i l "") = Some t
                   /\ datetime.toordinal t = (datetime.toordinal s + Z.of_nat i)%Z.
Proof.
  intros Hs He _ Hle.
  pose proof (toordinal_bounds s (strptime_valid _ _ Hs)) as Bs.
  pose proof (toordinal_bounds e (strptime_valid _ _ He)) as Be.
  unfold get_date_range. rewrite Hs, He. cbv zeta.
  set (n := (datetime.toordinal e - datetime.toordinal s + 1)%Z).
  set (f := fun i : Z => datetime.strftime (plus_days s i)).
  exists (map f (range n)).
  assert (Hlen : length (map f (range n)) = Z.to_nat n)
    by (rewrite length_map; apply range_length).
  assert (Hnth : forall i, i < Z.to_nat n ->
            nth i (map f (range n)) "" = f (Z.of_nat i)).
  { intros i Hi.
    rewrite (nth_indep _ "" (f 0%Z)) by (rewrite Hlen; exact Hi).
    rewrite (map_nth f (range n) 0%Z i), range_nth by exact Hi. reflexivity. }
  split; [reflexivity|]. split; [rewrite Hlen; unfold n; lia|].
  split; [|split].
  - rewrite Hnth by (unfold n; lia). unfold f, plus_days.
    rewrite Z.add_0_r, ord2ymd_toordinal by exact (strptime_valid _ _ Hs). reflexivity.
  - rewrite Hlen, Hnth by (unfold n; lia). unfold f, plus_days.
    replace (datetime.toordinal s + Z.of_nat (Z.to_nat n - 1))%Z
      with (datetime.toordinal e) by (unfold n; lia).
    rewrite ord2ymd_toordinal by exact (strptime_valid _ _ He). reflexivity.
  - intros i Hi. rewrite Hlen in Hi. rewrite Hnth by exact Hi. unfold f, plus_days.
    exists (datetime.ord2ymd (datetime.toordinal s + Z.of_nat i)).
    split.
    + apply strptime_strftime, ord2ymd_valid. unfold n in Hi. lia.
    + apply toordinal_ord2ymd. lia.
Qed.

Lemma date_range_is_inclusive_witness :
  exists l : list string,
    get_date_range "2024-2-28" "2024-03-01" = inr l
    /\ Z.of_nat (length l) = 3%Z
    /\ nth 0 l "" = "2024-02-28"
    /\ nth (length l - 1) l "" = "2024-03-01".
Proof.
  destruct (date_range_is_inclusive "2024-2-28" "2024-03-01"
              (datetime.mkdate 2024 2 28) (datetime.mkdate 2024 3 1))
    as (l & Hrun & Hlen & Hfirst & Hlast & _).
  - reflexivity.
  - reflexivity.
  - vm_compute. discriminate.
  - vm_compute. discriminate.
  - exists l. repeat split; assumption.
Defined.

(** X15.  When the end date lies before the start date nothing is raised:
    the range is empty. *)
Theorem reversed_date_range_is_empty (start end_ : string) (s e : datetime.date) :
  datetime.strptime start = Some s ->
  datetime.strptime end_ = Some e ->
  (datetime.toordinal e < datetime.toordinal s)%Z ->
  get_date_range start end_ = inr [].
Proof.
  intros Hs He Hlt. unfold get_date_range. rewrite Hs, He. cbv zeta.
  unfold range.
  replace (Z.to_nat (datetime.toordinal e - datetime.toordinal s + 1)) with 0 by lia.
  reflexivity.
Qed.

Lemma reversed_date_range_is_empty_witness :
  get_date_range "2025-12-13" "2025-12-11" = inr [].
Proof.
  apply (reversed_date_range_is_empty "2025-12-13" "2025-12-11"
           (datetime.mkdate 2025 12 13) (datetime.mkdate 2025 12 11)).
  - reflexivity.
  - reflexivity.
  - vm_compute. reflexivity.
Defined.

(** X16.  A date that does not exist makes [get_date_range] raise
    [ValueError], as the start and as the end: a day past the end of its
    month, such as the 29th of February outside a leap year. *)
Theorem nonexistent_date_raises (y m d : Z) (other : string) :
  (1000 <= y <= 9999)%Z -> (1 <= m <= 12)%Z ->
  (datetime.days_in_month y m < d <= 31)%Z ->
  (exists msg, get_date_range (datetime.strftime (datetime.mkdate y m d)) other
               = inl (ValueError msg))
  /\ (exists msg, get_date_range other (datetime.strftime (datetime.mkdate y m d))
                  = inl (ValueError msg)).
Proof.
  intros Hy Hm Hd.
  pose proof (days_in_month_ge_28 y m Hm) as H28.
  assert (Hbad : datetime.strptime (datetime.strftime (datetime.mkdate y m d)) = None).
  { rewrite strptime_printed by lia.
    replace (datetime.valid (datetime.mkdate y m d)) with false; [reflexivity|].
    symmetry. unfold datetime.valid. cbn [datetime.year datetime.month datetime.day].
    rewrite !andb_false_iff. right. apply Z.leb_gt. lia. }
  unfold get_date_range. rewrite Hbad. split; [eexists; reflexivity|].
  destruct (datetime.strptime other); eexists; reflexivity.
Qed.

Lemma nonexistent_date_raises_witness :
  exists msg, get_date_range "2025-02-29" "2025-03-02" = inl (ValueError msg).
Proof.
  apply (nonexistent_date_raises 2025 2 29 "2025-03-02").
  - vm_compute. split; discriminate.
  - vm_compute. split; discriminate.
  - vm_compute. split; [reflexivity | discriminate].
Defined.

(** The configured range. *)
Lemma configured_date_range : get_date_range START_DATE END_DATE = inr configured_dates.
Proof. vm_compute. reflexivity. Qed.

(** ** From the bars to the table *)

Lemma filter_after_prefix {A : Type} (p : A -> bool) (l : list A) (w : nat) :
  Forall (fun x => p x = false) (firstn w l) ->
  length (filter p l) <= length l - w.
Proof.
  intros H. rewrite <- (firstn_skipn w l) at 1.
  rewrite filter_app. rewrite (proj2 (filter_nil_iff p (firstn w l)) H).
  cbn [app]. pose proof (filter_length_le p (skipn w l)) as Hle.
  rewrite length_skipn in Hle. exact Hle.
Qed.

Lemma pct_change_values_prefix (w : nat) (v : list float) :
  Forall (fun x => is_event x = false) (firstn w (pct_change_values w v)).
Proof.
  apply Forall_forall. intros x Hx.
  destruct (In_nth _ _ F64.nan Hx) as (i & Hi & <-).
  rewrite length_firstn, pct_change_values_length in Hi.
  rewrite nth_firstn. destruct (Nat.ltb_spec i w) as [Hlt|]; [|reflexivity].
  rewrite pct_change_values_nth by lia.
  destruct (Nat.ltb_spec i w); [reflexivity | lia].
Qed.

(** X17.  On every frame that [process_data] returns, and for each of the
    three return columns, [analyze_volatility] returns normally and leaves
    the frame as it is.  The table is that of the events in the return
    column of the frame, and since the first [window_bars] returns are NaN
    it counts at most [n - window_bars] events for [n] bars. *)
Theorem analysis_of_a_built_frame
        (supply : string -> string -> string -> list Candle) (dates : list string)
        (symbol resolution : string) (h : store) (minutes : nat) (col : string) :
  let cs := flat_map (fun date => supply symbol date resolution) dates in
  cs <> [] ->
  timestamps_in_range cs = true ->
  In (minutes, col) window_columns ->
  exists (r : ref) (h' h'' : store) (rets : list float) (rows : list BucketRow),
    process_data (answering supply) dates symbol resolution h = (Ok (Some r), h')
    /\ lookup col (columns (nth r h' empty_frame)) = Some (Float64 rets)
    /\ length rets = length cs
    /\ analyze_volatility r col h' = (Ok rows, h'')
    /\ rows = bucket_table (filter is_event rets)
    /\ nth_error h'' r = nth_error h' r
    /\ total_pumps rows + total_dumps rows
       <= length cs - window_bars minutes resolution.
Proof.
  intros cs Hne Hrange Hin.
  set (rets := pct_change_values (window_bars minutes resolution)
                                 (map close (sorted_bars cs))).
  assert (Hlen : length rets = length cs)
    by (unfold rets; rewrite pct_change_values_length, length_map;
        apply sorted_bars_length).
  pose proof (process_data_run supply dates symbol resolution h Hne Hrange) as Hrun.
  fold cs in Hrun.
  destruct (analyze_volatility_run (h ++ [built_frame cs resolution]) (length h)
              col rets) as (h'' & Hrun2 & [extra Hext]).
  - rewrite nth_new. apply built_frame_wf.
  - rewrite nth_new. exact (built_frame_window cs resolution minutes col Hin).
  - exists (length h), (h ++ [built_frame cs resolution]), h'', rets,
           (bucket_table (filter is_event rets)).
    split; [exact Hrun|].
    split; [rewrite nth_new; exact (built_frame_window cs resolution minutes col Hin)|].
    split; [exact Hlen|].
    split; [exact Hrun2|]. split; [reflexivity|]. split.
    + rewrite Hext. apply nth_error_app1. rewrite length_app. simpl. lia.
    + apply Nat.le_trans with (length (filter is_event rets));
        [apply bucket_table_bound|].
      rewrite <- Hlen.
      apply filter_after_prefix, pct_change_values_prefix.
Qed.

Lemma analysis_of_a_built_frame_witness :
  exists (r : ref) (h' h'' : store) (rows : list BucketRow),
    process_data (supplier_on "2025-12-11" climbing_bars) configured_dates
                 "BTCUSDT" "1m" [] = (Ok (Some r), h')
    /\ analyze_volatility r "ret_5m" h' = (Ok rows, h'')
    /\ total_pumps rows + total_dumps rows <= 1.
Proof.
  destruct (analysis_of_a_built_frame
              (fun _ date _ => if String.eqb date "2025-12-11" then climbing_bars else [])
              configured_dates "BTCUSDT" "1m" [] 5 "ret_5m")
    as (r & h' & h'' & rets & rows & Hrun & _ & _ & Hrun2 & _ & _ & Hbound).
  - vm_compute. discriminate.
  - vm_compute. reflexivity.
  - left. reflexivity.
  - exists r, h', h'', rows. split; [exact Hrun|]. split; [exact Hrun2|]. exact Hbound.
Defined.

(** ** Running [main] *)

(** The table a call returns is settled by the frame alone. *)
Lemma analysis_run (h : store) (r : ref) (w : string * string * string) :
  analyzable h (Some r) -> In w windows ->
  exists xs h',
    lookup (snd (fst w)) (columns (nth r h empty_frame)) = Some (Float64 xs)
    /\ analyze_volatility r (snd (fst w)) h
       = (Ok (bucket_table (filter is_event xs)), h')
    /\ extends h h'.
Proof.
  intros (Hlt & Hwf & Hcols) Hw. destruct (Hcols w Hw) as [xs Hxs].
  destruct (analyze_volatility_run h r _ xs Hwf Hxs) as (h' & Hrun & Hext).
  exists xs, h'. repeat split; assumption.
Qed.

Lemma for_fold_run {A S : Type} (body : S -> A -> M S) (Inv : store -> Prop)
      (l : list A) :
  (forall s a h, In a l -> Inv h ->
     exists s' h', body s a h = (Ok s', h') /\ Inv h' /\ extends h h') ->
  forall s h, Inv h ->
    exists s' h', for_fold l s body h = (Ok s', h') /\ Inv h' /\ extends h h'.
Proof.
  induction l as [|a l IH]; intros Hbody s h Hh; simpl.
  - exists s, h. split; [reflexivity|]. split; [exact Hh | apply extends_refl].
  - destruct (Hbody s a h (or_introl eq_refl) Hh) as (s1 & h1 & E1 & I1 & X1).
    destruct (IH (fun s a h Hin => Hbody s a h (or_intror Hin)) s1 h1 I1)
      as (s2 & h2 & E2 & I2 & X2).
    exists s2, h2. split; [|split; [exact I2 | exact (extends_trans _ _ _ X1 X2)]].
    unfold bind. rewrite E1. exact E2.
Qed.

Section ReportRuns.

Variable supply : string -> string -> string -> list Candle.
Variable dates : list string.
Variable render : list BucketRow -> string -> string.

Lemma report_window_run (symbol : string) (df_1m df_1s : option ref)
      (html : string) (w : string * string * string) (h : store) :
  analyzable h df_1m -> analyzable h df_1s -> In w windows ->
  exists html' h',
    report_window render symbol df_1m df_1s html w h = (Ok html', h')
    /\ extends h h'.
Proof.
  intros H1 H2 Hw. destruct w as [[win_id win_col] win_title].
  unfold report_window.
  assert (Hfirst : exists plot h1,
            match df_1m with
            | Some df =>
                results_1m <- analyze_volatility df win_col ;;
                match results_1m with
                | _ :: _ =>
                    ret (generate_plot_base64 render results_1m
                           (symbol ++ " - " ++ win_title ++ " (1m Res)")%string)
                | [] => ret None
                end
            | None => ret None
            end h = (Ok plot, h1) /\ extends h h1).
  { destruct df_1m as [r|]; [|exists None, h; split; [reflexivity | apply extends_refl]].
    destruct (analysis_run h r _ H1 Hw) as (xs & h1 & _ & Hrun & Hext).
    cbn [fst snd] in Hrun. unfold bind. rewrite Hrun.
    destruct (bucket_table (filter is_event xs)); eexists; exists h1;
      (split; [reflexivity | exact Hext]). }
  destruct Hfirst as (plot1 & h1 & E1 & X1).
  assert (Hsecond : exists plot h2,
            match df_1s with
            | Some df =>
                results_1s <- analyze_volatility df win_col ;;
                match results_1s with
                | _ :: _ =>
                    ret (generate_plot_base64 render results_1s
                           (symbol ++ " - " ++ win_title ++ " (1s Res)")%string)
                | [] => ret None
                end
            | None => ret None
            end h1 = (Ok plot, h2) /\ extends h1 h2).
  { destruct df_1s as [r|]; [|exists None, h1; split; [reflexivity | apply extends_refl]].
    destruct (analysis_run h1 r _ (analyzable_extends _ _ _ X1 H2) Hw)
      as (xs & h2 & _ & Hrun & Hext).
    cbn [fst snd] in Hrun. unfold bind. rewrite Hrun.
    destruct (bucket_table (filter is_event xs)); eexists; exists h2;
      (split; [reflexivity | exact Hext]). }
  destruct Hsecond as (plot2 & h2 & E2 & X2).
  eexists. exists h2. split; [|exact (extends_trans _ _ _ X1 X2)].
  unfold bind at 1. rewrite E1. unfold bind at 1. rewrite E2. reflexivity.
Qed.

Lemma process_data_cases (symbol resolution : string) (h : store) :
  timestamps_in_range (flat_map (fun date => supply symbol date resolution) dates) = true ->
  exists df h',
    process_data (answering supply) dates symbol resolution h = (Ok df, h')
    /\ extends h h' /\ analyzable h' df.
Proof.
  intros Hrange.
  destruct (flat_map (fun date => supply symbol date resolution) dates)
    as [|c0 cs0] eqn:Ecs.
  - exists None, h. split; [apply process_data_empty, Ecs|].
    split; [apply extends_refl | exact I].
  - eexists. eexists. split.
    + apply process_data_run; rewrite Ecs; [discriminate | exact Hrange].
    + split; [apply extends_app | apply analyzable_built].
Qed.

Lemma report_symbols_run (symbols : list string) (html_sections : list string)
      (h : store) :
  (forall symbol resolution, In symbol symbols -> In resolution [ "1m"; "1s" ] ->
     timestamps_in_range (flat_map (fun date => supply symbol date resolution) dates)
     = true) ->
  exists sections h',
    report_symbols (answering supply) dates render symbols html_sections h
    = (Ok sections, h')
    /\ extends h h'
    /\ length sections <= length html_sections + length symbols.
Proof.
  revert html_sections h. induction symbols as [|symbol symbols IH]; intros acc h Hrange.
  - exists acc, h. split; [reflexivity|]. split; [apply extends_refl | simpl; lia].
  - cbn [report_symbols].
    assert (Hrest : forall symbol' resolution, In symbol' symbols ->
              In resolution [ "1m"; "1s" ] ->
              timestamps_in_range
                (flat_map (fun date => supply symbol' date resolution) dates) = true)
      by (intros symbol' resolution Hin; apply Hrange; right; exact Hin).
    destruct (process_data_cases symbol "1m" h) as (df_1m & h1 & E1 & X1 & A1);
      [apply Hrange; [left; reflexivity | left; reflexivity]|].
    destruct (process_data_cases symbol "1s" h1) as (df_1s & h2 & E2 & X2 & A2);
      [apply Hrange; [left; reflexivity | right; left; reflexivity]|].
    pose proof (analyzable_extends _ _ _ X2 A1) as A1'.
    unfold bind at 1. rewrite E1. unfold bind at 1. rewrite E2.
    assert (Hsection : exists html h3,
              for_fold windows ("<h2>" ++ symbol ++ "</h2>")%string
                       (report_window render symbol df_1m df_1s) h2 = (Ok html, h3)
              /\ extends h2 h3).
    { destruct (for_fold_run (report_window render symbol df_1m df_1s)
                  (fun h' => analyzable h' df_1m /\ analyzable h' df_1s) windows)
        with (s := ("<h2>" ++ symbol ++ "</h2>")%string) (h := h2)
        as (html & h3 & E3 & _ & X3).
      - intros s w h' Hw [Ha Hb].
        destruct (report_window_run symbol df_1m df_1s s w h' Ha Hb Hw)
          as (s' & h'' & E & X).
        exists s', h''. split; [exact E|]. split; [|exact X].
        split; apply (analyzable_extends _ _ _ X); assumption.
      - split; assumption.
      - exists html, h3. split; assumption. }
    destruct Hsection as (html & h3 & E3 & X3).
    assert (X02 : extends h h2) by exact (extends_trans _ _ _ X1 X2).
    destruct df_1m as [r1|], df_1s as [r2|].
    1-3: destruct (IH (acc ++ [html]) h3 Hrest) as (sections & h4 & E4 & X4 & L4);
         exists sections, h4;
         (split; [unfold bind; rewrite E3; exact E4|]);
         (split; [exact (extends_trans _ _ _ X02 (extends_trans _ _ _ X3 X4))|]);
         rewrite length_app in L4; simpl in L4; simpl; lia.
    destruct (IH acc h2 Hrest) as (sections & h4 & E4 & X4 & L4).
    exists sections, h4. split; [exact E4|].
    split; [exact (extends_trans _ _ _ X02 X4) | simpl; lia].
Qed.

End ReportRuns.

(** X18.  When every call of the supplier returns a list of candles whose
    timestamps can be converted, the two loops of [main] run to their end
    whatever the candles are and whatever the charts look like: no column
    the analysis asks for is ever missing.  The text is the page around the
    sections collected, at most one per symbol, and in the store [main] only
    allocates: frames that existed before are unchanged.  (Drawing the
    charts is taken as given, and writing the file comes after.) *)
Theorem main_builds_the_page
        (supply : string -> string -> string -> list Candle) (dates : list string)
        (render : list BucketRow -> string -> string) (h : store) :
  (forall symbol resolution, In symbol SYMBOLS -> In resolution [ "1m"; "1s" ] ->
     timestamps_in_range (flat_map (fun date => supply symbol date resolution) dates)
     = true) ->
  exists (sections : list string) (h' : store),
    main (answering supply) dates render h = (Ok (page sections), h')
    /\ length sections <= length SYMBOLS
    /\ extends h h'.
Proof.
  intros Hrange. unfold main.
  destruct (report_symbols_run supply dates render SYMBOLS [] h Hrange)
    as (sections & h' & E & X & L).
  exists sections, h'. unfold bind. rewrite E.
  split; [reflexivity|]. split; [exact L | exact X].
Qed.

Lemma main_builds_the_page_witness :
  exists (sections : list string) (h' : store),
    main (supplier_on "2025-12-11" climbing_bars) configured_dates
         (fun _ title => title) []
    = (Ok (page sections), h')
    /\ length sections <= 2.
Proof.
  destruct (main_builds_the_page
              (fun _ date _ => if String.eqb date "2025-12-11" then climbing_bars else [])
              configured_dates (fun _ title => title) [])
    as (sections & h' & Hrun & Hlen & _).
  - intros symbol resolution _ _. vm_compute. reflexivity.
  - exists sections, h'. split; [exact Hrun | exact Hlen].
Defined.

(** X19.  When the supplier has no candle for any symbol, date and
    resolution, [main] writes the page with no section and allocates no
    frame. *)
Theorem main_without_data
        (supplier : string -> string -> string -> outcome (option (list Candle)))
        (dates : list string)
        (render : list BucketRow -> string -> string) (h : store) :
  (forall symbol date resolution, supplier symbol date resolution = Ok (Some [])) ->
  main supplier dates render h = (Ok (page []), h).
Proof.
  intros Hnone.
  assert (Hempty : forall symbol resolution,
            process_data supplier dates symbol resolution h = (Ok None, h)).
  { intros symbol resolution.
    rewrite (process_data_supplied supplier (fun _ _ _ => []))
      by (intros date _; apply Hnone).
    apply process_data_empty.
    induction dates as [|d ds IH]; [reflexivity | exact IH]. }
  unfold main, SYMBOLS. cbn [report_symbols]. unfold bind.
  rewrite !Hempty. reflexivity.
Qed.

Lemma main_without_data_witness :
  main (supplier_on "2025-12-11" []) configured_dates (fun _ title => title) []
  = (Ok (page []), []).
Proof.
  apply (main_without_data (supplier_on "2025-12-11" []) configured_dates
           (fun _ title => title) []).
  intros symbol date resolution. unfold supplier_on, answering.
  destruct (String.eqb date "2025-12-11"); reflexivity.
Defined.

Lemma analysis_table (h h1 : store) (r : ref) (w : string * string * string) :
  analyzable h (Some r) -> In w windows -> extends h h1 ->
  exists h2, analyze_volatility r (snd (fst w)) h1
             = (Ok (table_of h (Some r) (snd (fst w))), h2)
             /\ extends h1 h2.
Proof.
  intros Ha Hw Hext.
  pose proof (analyzable_extends _ _ _ Hext Ha) as Ha1.
  destruct (analysis_run h1 r w Ha1 Hw) as (xs & h2 & Hxs & Hrun & X).
  destruct Hext as [extra ->]. destruct Ha as (Hlt & _).
  rewrite nth_extends in Hxs by exact Hlt.
  exists h2. unfold table_of. rewrite Hxs. split; assumption.
Qed.

Lemma plot_run (render : list BucketRow -> string -> string)
      (h h1 : store) (df : option ref) (w : string * string * string) (title : string) :
  analyzable h df -> In w windows -> extends h h1 ->
  exists h2,
    match df with
    | Some r =>
        results <- analyze_volatility r (snd (fst w)) ;;
        match results with
        | _ :: _ => ret (generate_plot_base64 render results title)
        | [] => ret None
        end
    | None => ret None
    end h1
    = (Ok (generate_plot_base64 render (table_of h df (snd (fst w))) title), h2)
    /\ extends h1 h2.
Proof.
  intros Ha Hw Hext. destruct df as [r|].
  - destruct (analysis_table h h1 r w Ha Hw Hext) as (h2 & Hrun & X).
    exists h2. unfold bind. rewrite Hrun. split; [|exact X].
    destruct (table_of h (Some r) (snd (fst w))); reflexivity.
  - exists h1. split; [reflexivity | apply extends_refl].
Qed.

Lemma report_window_text
      (render : list BucketRow -> string -> string) (symbol : string)
      (df_1m df_1s : option ref) (html : string)
      (w : string * string * string) (h : store) :
  In w windows ->
  analyzable h df_1m -> analyzable h df_1s ->
  exists h' : store,
    report_window render symbol df_1m df_1s html w h
    = (Ok (window_html render symbol (table_of h df_1m (snd (fst w)))
                       (table_of h df_1s (snd (fst w))) html w), h')
    /\ extends h h'.
Proof.
  intros Hw H1 H2. destruct w as [[win_id win_col] win_title].
  destruct (plot_run render h h df_1m (win_id, win_col, win_title)
              (symbol ++ " - " ++ win_title ++ " (1m Res)")%string
              H1 Hw (extends_refl h)) as (h1 & E1 & X1).
  destruct (plot_run render h h1 df_1s (win_id, win_col, win_title)
              (symbol ++ " - " ++ win_title ++ " (1s Res)")%string
              H2 Hw X1) as (h2 & E2 & X2).
  cbn [fst snd] in *.
  exists h2. split; [|exact (extends_trans _ _ _ X1 X2)].
  unfold report_window. unfold bind at 1. rewrite E1.
  unfold bind at 1. rewrite E2. unfold ret, window_html, block.
  destruct (truthy (generate_plot_base64 render (table_of h df_1m win_col) _));
    destruct (truthy (generate_plot_base64 render (table_of h df_1s win_col) _));
    reflexivity.
Qed.

(** X20.  The text [main] adds for one window is settled by the two tables
    of that window: the heading, then for each resolution the chart of its
    table, or the sentence "No events found." when the table is empty.  A
    resolution whose frame holds no event therefore reads exactly like a
    resolution for which no data was fetched. *)
Theorem window_text_is_settled_by_the_tables
        (render : list BucketRow -> string -> string) (symbol : string)
        (df_1m df_1s : option ref) (html : string)
        (w : string * string * string) (h : store) :
  In w windows ->
  analyzable h df_1m -> analyzable h df_1s ->
  (exists h' : store,
     report_window render symbol df_1m df_1s html w h
     = (Ok (window_html render symbol (table_of h df_1m (snd (fst w)))
                        (table_of h df_1s (snd (fst w))) html w), h')
     /\ extends h h')
  /\ (table_of h df_1m (snd (fst w)) = [] ->
      fst (report_window render symbol df_1m df_1s html w h)
      = fst (report_window render symbol None df_1s html w h))
  /\ (table_of h df_1s (snd (fst w)) = [] ->
      fst (report_window render symbol df_1m df_1s html w h)
      = fst (report_window render symbol df_1m None html w h)).
Proof.
  intros Hw H1 H2.
  destruct (report_window_text render symbol df_1m df_1s html w h Hw H1 H2)
    as (h' & E & X).
  split; [exists h'; split; assumption|]. split; intros Hnil.
  - destruct (report_window_text render symbol None df_1s html w h Hw I H2)
      as (h0 & E0 & _).
    rewrite E, E0, Hnil. reflexivity.
  - destruct (report_window_text render symbol df_1m None html w h Hw H1 I)
      as (h0 & E0 & _).
    rewrite E, E0, Hnil. reflexivity.
Qed.

Lemma window_text_is_settled_by_the_tables_witness :
  fst (report_window (fun _ title => title) "BTCUSDT" (Some 0) None ""
         ("5m", "ret_5m", "5 Minute Window") [built_frame climbing_bars "1s"])
  = fst (report_window (fun _ title => title) "BTCUSDT" None None ""
           ("5m", "ret_5m", "5 Minute Window") [built_frame climbing_bars "1s"]).
Proof.
  destruct (window_text_is_settled_by_the_tables (fun _ title => title) "BTCUSDT"
              (Some 0) None "" ("5m", "ret_5m", "5 Minute Window")
              [built_frame climbing_bars "1s"])
    as (_ & Hquiet & _).
  - left. reflexivity.
  - exact (analyzable_built [] climbing_bars "1s").
  - exact I.
  - apply Hquiet. vm_compute. reflexivity.
Defined.

(** ** Where the run stops *)





(** X22.  With the key or the address unset or empty and at least one date
    to fetch, [process_data] raises the [ValueError] of [fetch_candle_data]
    on the first date, before any frame exists, and so does [main]: nothing
    between the two catches it. *)
Theorem missing_credentials_stop_the_run
        (key url : option string)
        (net : string -> list (string * string) -> list (string * string) -> response)
        (dates : list string) (symbol resolution : string)
        (render : list BucketRow -> string -> string) (h : store) :
  missing key || missing url = true ->
  dates <> [] ->
  exists msg,
    process_data (fetch_candle_data key url net) dates symbol resolution h
    = (Raise (ValueError msg), h)
    /\ main (fetch_candle_data key url net) dates render h
       = (Raise (ValueError msg), h).
Proof.
  intros Hmiss Hne. destruct dates as [|d dates]; [contradiction|].
  assert (Hrun : forall symbol' resolution',
            process_data (fetch_candle_data key url net) (d :: dates)
                         symbol' resolution' h
            = (Raise (ValueError
                 "API credentials not found in .env file (ORDERFLOW_API_KEY, ORDERFLOW_API_URL)"),
               h)).
  { intros symbol' resolution'. unfold process_data. cbn [for_fold].
    unfold bind, lift, fetch_candle_data. rewrite Hmiss. reflexivity. }
  eexists. split; [apply Hrun|].
  unfold main, SYMBOLS. cbn [report_symbols]. unfold bind at 1. unfold bind at 1.
  rewrite Hrun. reflexivity.
Qed.

Lemma missing_credentials_stop_the_run_witness :
  exists msg,
    main (fetch_candle_data None (Some "https://api.example.org")
                            (fun _ _ _ => Json (Some climbing_bars)))
         configured_dates (fun _ title => title) []
    = (Raise (ValueError msg), []).
Proof.
  destruct (missing_credentials_stop_the_run None (Some "https://api.example.org")
              (fun _ _ _ => Json (Some climbing_bars)) configured_dates
              "BTCUSDT" "1m" (fun _ title => title) [])
    as (msg & _ & Hmain).
  - reflexivity.
  - discriminate.
  - exists msg. exact Hmain.
Defined.

(** X23.  With both credentials present, an answer that is not what the
    code expects stops [process_data] on the date it arrives, when the calls
    for the dates before it returned lists: a body that is not an object
    raises [AttributeError], an object whose member [data] is [null] raises
    [TypeError] when the candles are collected.  The store is not touched. *)
Theorem malformed_answer_raises
        (key url : string)
        (net : string -> list (string * string) -> list (string * string) -> response)
        (before after : list string) (date symbol resolution : string) (h : store) :
  key <> "" -> url <> "" ->
  let ask := fun d =>
    net (candles_url url)
        [ ("symbol", symbol); ("date", d); ("resolution", resolution) ]
        [ ("X-API-Key", key) ] in
  (forall d, In d before ->
     exists data, fetch_candle_data (Some key) (Some url) net symbol d resolution
                  = Ok (Some data)) ->
  (ask date = NotAnObject ->
   process_data (fetch_candle_data (Some key) (Some url) net)
                (before ++ date :: after) symbol resolution h
   = (Raise AttributeError, h))
  /\ (ask date = JsonNull ->
      process_data (fetch_candle_data (Some key) (Some url) net)
                   (before ++ date :: after) symbol resolution h
      = (Raise TypeError, h)).
Proof.
  intros Hk Hu ask Hbefore.
  destruct key as [|kc ks]; [contradiction|].
  destruct url as [|uc us]; [contradiction|].
  assert (Hloop : forall e, 
            (fetch_candle_data (Some (String kc ks)) (Some (String uc us)) net
                               symbol date resolution = Raise e
             \/ (fetch_candle_data (Some (String kc ks)) (Some (String uc us)) net
                                   symbol date resolution = Ok None
                 /\ e = TypeError)) ->
            forall acc,
            for_fold (before ++ date :: after) acc (fun all_candles d =>
              candles <- lift (fetch_candle_data (Some (String kc ks))
                                 (Some (String uc us)) net symbol d resolution) ;;
              extend all_candles candles) h
            = (Raise e, h)).
  { intros e He. induction before as [|b before IH]; intros acc.
    - cbn [app for_fold]. unfold bind at 1. unfold bind at 1. unfold lift at 1.
      destruct He as [-> | [-> ->]]; reflexivity.
    - cbn [app for_fold]. unfold bind at 1. unfold bind at 1. unfold lift at 1.
      destruct (Hbefore b (or_introl eq_refl)) as [data Hdata].
      rewrite Hdata. cbn [extend ret].
      apply IH. intros d Hd. apply Hbefore. right. exact Hd. }
  split; intros Hask.
  - unfold process_data. unfold bind at 1. rewrite (Hloop AttributeError); [reflexivity|].
    left. unfold fetch_candle_data. cbn [missing orb text]. fold (ask date).
    rewrite Hask. reflexivity.
  - unfold process_data. unfold bind at 1. rewrite (Hloop TypeError); [reflexivity|].
    right. split; [|reflexivity].
    unfold fetch_candle_data. cbn [missing orb text]. fold (ask date).
    rewrite Hask. reflexivity.
Qed.

Lemma malformed_answer_raises_witness :
  process_data (fetch_candle_data (Some "k") (Some "https://api.example.org")
                  (fun _ params _ =>
                     if String.eqb (snd (nth 1 params ("", ""))) "2025-12-11"
                     then Json (Some climbing_bars) else JsonNull))
               configured_dates "BTCUSDT" "1m" []
  = (Raise TypeError, []).
Proof.
  apply (malformed_answer_raises "k" "https://api.example.org"
           (fun _ params _ =>
              if String.eqb (snd (nth 1 params ("", ""))) "2025-12-11"
              then Json (Some climbing_bars) else JsonNull)
           [ "2025-12-11" ] [ "2025-12-13" ] "2025-12-12" "BTCUSDT" "1m" []).
  - discriminate.
  - discriminate.
  - intros d [<-|[]]. exists climbing_bars. reflexivity.
  - reflexivity.
Defined.
